(** * AI sales coach: retrieval, caching and learning-feedback core

    A shallow embedding of the Python sources under [server/]:
    [cache.py] (LRU + TTL cache and the decorator [cached]),
    [knowledge_base.py] (content mirror, tag index, hybrid search),
    [conversation_engine.py] (history, context assembly, [chat]),
    [learning_system.py] (feedback thresholds, training suggestions),
    [script_generator.py] (style variants, running success rate),
    [llm_service.py] (the messages sent, the canned answers) and the
    paging of the search endpoint of [main.py].

    Modelling conventions.
    - A Python [str] is the [string] of its UTF-8 bytes, the literals of the
      source included. A character is a group of bytes ([Str.chars]);
      lengths, slices and [strip] count characters. [Str.lower] follows
      Python on the text whose cased letters are the ASCII letters, and the
      statements on case folding are made for such text.
    - A Python [int] is a [Z].
    - A Python [float] that is only compared (a score, a confidence) is an
      exact rational [Q]: every finite float is one, and comparisons are
      exact. The success rate of a script is computed, and is modelled
      twice: in [ScriptGenerator] over exact rationals, the value the
      formula has before any rounding, and in [ScriptGenerator64] in
      binary64, each operation rounded as the machine rounds it.
    - The constructors of the pydantic models check their fields:
      [KnowledgeBase.of_row] and [ScriptGenerator64.of_row] refuse the rows
      that [TrainingContent] and [SalesScript] refuse.
    - [datetime] values are [Z] microseconds, the resolution of
      [datetime]/[timedelta].
    - A [dict] or [OrderedDict] whose iteration order is observed is an
      insertion-ordered association list ([PyDict]); a [dict] that is only
      looked up and updated is a [gmap].
    - A [set] that is walked is a [gset], walked in the order of
      [elements]; no statement depends on that order.
    - A call that can raise returns a [result]; what a call that raises
      has done to the state before is not kept. *)

From Stdlib Require Import ZArith QArith Lqa String Ascii List Lia Bool.
From Stdlib Require Import Sorting.Sorted Sorting.Permutation.
From Stdlib Require Floats.
From stdpp Require Import gmap strings list fin_maps.

Open Scope string_scope.
Open Scope list_scope.
Open Scope Z_scope.

(** ** Exceptions *)

Inductive exn : Type :=
  | StopIteration
  | KeyError
  | ZeroDivisionError
  | OverflowError
  | ValidationError
  | LLMError.

Inductive result (A : Type) : Type :=
  | Ok (a : A)
  | Raise (e : exn).
Arguments Ok {A} a.
Arguments Raise {A} e.

#[global] Instance result_ret : MRet result := fun _ a => Ok a.
#[global] Instance result_bind : MBind result := fun _ _ f m =>
  match m with
  | Ok a => f a
  | Raise e => Raise e
  end.

(** ** Insertion-ordered dictionaries with string keys

    [collections.OrderedDict] and the built-in [dict]: the entries in
    insertion order, oldest first, one entry per key. *)

Module PyDict.
Section Dict.
Context {V : Type}.

Definition t : Type := list (string * V).

Definition keys (d : t) : list string := map fst d.
Definition values (d : t) : list V := map snd d.

(** [d.get(k)] *)
Fixpoint getitem (k : string) (d : t) : option V :=
  match d with
  | [] => None
  | (k', v) :: d' => if String.eqb k k' then Some v else getitem k d'
  end.

(** [k in d] *)
Definition contains (k : string) (d : t) : bool :=
  match getitem k d with Some _ => true | None => false end.

(** [del d[k]] for a present key (callers test [k in d] first). *)
Fixpoint delitem (k : string) (d : t) : t :=
  match d with
  | [] => []
  | (k', v) :: d' => if String.eqb k k' then d' else (k', v) :: delitem k d'
  end.

(** [d[k] = v]: a present key keeps its position, a new key goes last. *)
Fixpoint setitem (k : string) (v : V) (d : t) : t :=
  match d with
  | [] => [(k, v)]
  | (k', v') :: d' =>
      if String.eqb k k' then (k, v) :: d' else (k', v') :: setitem k v d'
  end.

(** [d.move_to_end(k)] *)
Definition move_to_end (k : string) (d : t) : result t :=
  match getitem k d with
  | Some v => Ok (delitem k d ++ [(k, v)])
  | None => Raise KeyError
  end.

(** [next(iter(d))] *)
Definition first_key (d : t) : result string :=
  match d with
  | [] => Raise StopIteration
  | (k, _) :: _ => Ok k
  end.
End Dict.
Arguments t : clear implicits.
End PyDict.

(** ** cache.py: [LRUCache] *)

Module LRUCache.
Section Cache.
Context {V : Type}.

Record t : Type := mk {
  max_size : Z;
  ttl : Z;                          (* seconds *)
  cache : PyDict.t V;                (* OrderedDict, least recently used first *)
  timestamps : gmap string Z         (* key -> time of the last [set] *)
}.

(** [LRUCache(max_size, ttl)] *)
Definition init (max_size ttl : Z) : t := mk max_size ttl [] ∅.

(** [timedelta(seconds=self.ttl)] in microseconds *)
Definition ttl_delta (c : t) : Z := ttl c * 1000000.

Definition delete (c : t) (key : string) : t :=
  mk (max_size c) (ttl c)
     (if PyDict.contains key (cache c) then PyDict.delitem key (cache c)
      else cache c)
     (base.delete key (timestamps c)).

(** The test of [get]: [key in timestamps] and
    [now - timestamps[key] > timedelta(seconds=ttl)]. *)
Definition expired (c : t) (key : string) (now : Z) : bool :=
  match timestamps c !! key with
  | Some ts => ttl_delta c <? now - ts
  | None => false
  end.

Definition get (c : t) (key : string) (now : Z) : result (option V * t) :=
  if negb (PyDict.contains key (cache c)) then Ok (None, c)
  else if expired c key now then Ok (None, delete c key)
  else
    d ← PyDict.move_to_end key (cache c);
    Ok (PyDict.getitem key d, mk (max_size c) (ttl c) d (timestamps c)).

Definition set (c : t) (key : string) (value : V) (now : Z) : result t :=
  c1 ← (if PyDict.contains key (cache c) then
          d ← PyDict.move_to_end key (cache c);
          Ok (mk (max_size c) (ttl c) d (timestamps c))
        else if max_size c <=? Z.of_nat (length (cache c)) then
          oldest_key ← PyDict.first_key (cache c);
          Ok (delete c oldest_key)
        else Ok c);
  Ok (mk (max_size c1) (ttl c1)
         (PyDict.setitem key value (cache c1))
         (<[key := now]> (timestamps c1))).

Definition clear (c : t) : t := mk (max_size c) (ttl c) [] ∅.

Definition size (c : t) : Z := Z.of_nat (length (cache c)).

(** The two dictionaries of a cache hold the same keys, each once. *)
Definition wf (c : t) : Prop :=
  NoDup (PyDict.keys (cache c)) /\
  forall k, k ∈ PyDict.keys (cache c) <-> is_Some (timestamps c !! k).
End Cache.
Arguments t : clear implicits.
End LRUCache.

(** The decorator [cached]: [cached cache key func s now now'] is a call of
    the decorated function. [cache] is the module's cache, absent when
    caching is disabled; [key] is the key computed from the arguments;
    [func] is the decorated function applied to them, which reads and writes
    a state [S]; a value [None] is Python's [None]; [now] and [now'] are the
    times of the lookup and of the store. *)

Module CacheDecorator.

Definition cached {A S : Type} (cache : option (LRUCache.t (option A)))
    (key : string) (func : S -> result (option A * S)) (s : S) (now now' : Z)
    : result (option A * S * option (LRUCache.t (option A))) :=
  match cache with
  | None => '(r, s') ← func s; Ok (r, s', None)
  | Some c =>
      '(cached_value, c1) ← LRUCache.get c key now;
      match cached_value with
      | Some (Some a) => Ok (Some a, s, Some c1)
      | _ =>
          '(r, s') ← func s;
          c2 ← LRUCache.set c1 key r now';
          Ok (r, s', Some c2)
      end
  end.

End CacheDecorator.

(** The operations a client can apply to a cache, and a run of them. *)

Module CacheOps.
Section Ops.
Context {V : Type}.

Inductive op : Type :=
  | OpGet (key : string)
  | OpSet (key : string) (value : V)
  | OpDelete (key : string)
  | OpClear.

Definition step (c : LRUCache.t V) (o : op) (now : Z) : result (LRUCache.t V) :=
  match o with
  | OpGet key => r ← LRUCache.get c key now; Ok r.2
  | OpSet key value => LRUCache.set c key value now
  | OpDelete key => Ok (LRUCache.delete c key)
  | OpClear => Ok (LRUCache.clear c)
  end.

(** The key an operation touches: the key of a [set], and of a [get] that
    hits. *)
Definition touched (c : LRUCache.t V) (o : op) (now : Z) : option string :=
  match o with
  | OpGet key =>
      match LRUCache.get c key now with
      | Ok (Some _, _) => Some key
      | _ => None
      end
  | OpSet key _ => Some key
  | _ => None
  end.

(** [run c stamp n ops] applies [ops] in order; operation number [n], [n+1],
    ... stamps the key it touches, so [stamp] maps a key to the number of
    the last operation that touched it. *)
Fixpoint run (c : LRUCache.t V) (stamp : gmap string nat) (n : nat)
    (ops : list (op * Z)) : result (LRUCache.t V * gmap string nat) :=
  match ops with
  | [] => Ok (c, stamp)
  | (o, now) :: ops' =>
      c' ← step c o now;
      run c'
        (match touched c o now with
         | Some k => <[k := n]> stamp
         | None => stamp
         end)
        (S n) ops'
  end.

(** [older stamp k1 k2]: the last touch of [k1] is before that of [k2]. *)
Definition older (stamp : gmap string nat) (k1 k2 : string) : Prop :=
  exists n1 n2, stamp !! k1 = Some n1 /\ stamp !! k2 = Some n2 /\ (n1 < n2)%nat.

(** The keys [l] are listed from the least to the most recently touched,
    all of them touched before operation [n]. *)
Definition stamped (l : list string) (stamp : gmap string nat) (n : nat) : Prop :=
  StronglySorted (older stamp) l /\
  forall k, k ∈ l -> exists m, stamp !! k = Some m /\ (m < n)%nat.

(** What a run maintains. *)
Definition inv (c : LRUCache.t V) (stamp : gmap string nat) (n : nat) : Prop :=
  LRUCache.wf c /\ stamped (PyDict.keys (LRUCache.cache c)) stamp n.
End Ops.
Arguments op : clear implicits.
End CacheOps.

(** ** Strings *)

Module Str.

Definition nl : string := String (ascii_of_nat 10) EmptyString.

Definition is_upper (c : ascii) : bool :=
  (65 <=? nat_of_ascii c)%nat && (nat_of_ascii c <=? 90)%nat.

Definition lower_char (c : ascii) : ascii :=
  if is_upper c then ascii_of_nat (nat_of_ascii c + 32) else c.

(** The folding of the ASCII letters: [A] to [Z] are lowered, every other
    byte is kept. *)
Fixpoint lower_ascii (s : string) : string :=
  match s with
  | EmptyString => EmptyString
  | String c s' => String (lower_char c) (lower_ascii s')
  end.

(** [q in s] *)
Fixpoint str_in (q s : string) : bool :=
  String.prefix q s ||
  match s with
  | EmptyString => false
  | String _ s' => str_in q s'
  end.

(** [q] occurs in [s]. *)
Definition occurs (q s : string) : Prop := exists a b, s = a +:+ q +:+ b.

(** A byte that continues a character of more than one byte
    ([10xxxxxx]). *)
Definition is_continuation (c : ascii) : bool :=
  (128 <=? nat_of_ascii c)%nat && (nat_of_ascii c <? 192)%nat.

(** The characters of a string, each as the bytes that encode it: a byte
    that is not a continuation byte starts a character. *)
Fixpoint chars (s : string) : list string :=
  match s with
  | EmptyString => []
  | String c s' =>
      match chars s' with
      | String c' rest :: l =>
          if is_continuation c' then String c (String c' rest) :: l
          else String c EmptyString :: String c' rest :: l
      | l => String c EmptyString :: l
      end
  end.

Definition implode (l : list string) : string := foldr String.append "" l.

(** [len(s)] *)
Definition len (s : string) : nat := length (chars s).

(** [s[:n]]: the first [n] characters. *)
Definition slice_to (n : nat) (s : string) : string := implode (firstn n (chars s)).

(** The characters [str.strip()] removes, those for which [str.isspace()]
    holds: U+0009 to U+000D, U+001C to U+0020, U+0085, U+00A0, U+1680,
    U+2000 to U+200A, U+2028, U+2029, U+202F, U+205F and U+3000. *)
Definition bytes (l : list nat) : string :=
  foldr (fun n s => String (ascii_of_nat n) s) "" l.

Definition spaces : list string :=
  map bytes
    [[9]; [10]; [11]; [12]; [13]; [28]; [29]; [30]; [31]; [32];
     [194; 133]; [194; 160]; [225; 154; 128];
     [226; 128; 128]; [226; 128; 129]; [226; 128; 130]; [226; 128; 131];
     [226; 128; 132]; [226; 128; 133]; [226; 128; 134]; [226; 128; 135];
     [226; 128; 136]; [226; 128; 137]; [226; 128; 138];
     [226; 128; 168]; [226; 128; 169]; [226; 128; 175]; [226; 129; 159];
     [227; 128; 128]]%nat.

Definition is_space (ch : string) : bool := existsb (String.eqb ch) spaces.

Fixpoint drop_while {A : Type} (f : A -> bool) (l : list A) : list A :=
  match l with
  | [] => []
  | x :: l' => if f x then drop_while f l' else l
  end.

(** [s.strip()] *)
Definition strip (s : string) : string :=
  implode (rev (drop_while is_space (rev (drop_while is_space (chars s))))).

Definition is_lower (c : ascii) : bool :=
  (97 <=? nat_of_ascii c)%nat && (nat_of_ascii c <=? 122)%nat.

(** The cased characters and the characters that case mapping skips, among
    the ASCII characters and the Greek sigmas. *)
Definition is_cased (ch : string) : bool :=
  match ch with
  | String c EmptyString => is_upper c || is_lower c
  | _ => String.eqb ch "Σ" || String.eqb ch "σ" || String.eqb ch "ς"
  end.

Definition is_case_ignorable (ch : string) : bool :=
  existsb (String.eqb ch) ["'"; "."; ":"; "^"; "`"].

(** No cased character follows, the skipped characters apart. *)
Fixpoint final_after (l : list string) : bool :=
  match l with
  | [] => true
  | ch :: l' => if is_case_ignorable ch then final_after l' else negb (is_cased ch)
  end.

(** The characters lowered from left to right; [cased_before]: the last
    character before that is not skipped is a cased one. A capital sigma
    that ends a word becomes the final sigma. *)
Fixpoint lower_chars (cased_before : bool) (l : list string) : list string :=
  match l with
  | [] => []
  | ch :: l' =>
      (if String.eqb ch "Σ"
       then (if cased_before && final_after l' then "ς" else "σ")
       else lower_ascii ch) ::
      lower_chars (if is_case_ignorable ch then cased_before else is_cased ch) l'
  end.

(** [s.lower()] on text whose cased characters, and whose characters that
    case mapping skips, are ASCII characters or Greek sigmas: the letters
    [A] to [Z] are lowered, a capital sigma becomes [σ], or [ς] at the end
    of a word, every other character is kept. (Python also lowers the other
    cased letters; the statements that rest on case folding are made for
    ASCII text, see [is_ascii].) *)
Definition lower (s : string) : string := implode (lower_chars false (chars s)).





(** [sep.join(l)] *)
Fixpoint join (sep : string) (l : list string) : string :=
  match l with
  | [] => ""
  | [s] => s
  | s :: l' => s +:+ sep +:+ join sep l'
  end.

(** Truthiness of a [str] and of an [Optional[str]]. *)
Definition truthy (s : string) : bool := negb (String.eqb s "").
Definition truthy_opt (s : option string) : bool :=
  match s with Some s => truthy s | None => false end.

(** [str(x)] of an [Optional[str]] inside an f-string. *)
Definition format_opt (s : option string) : string :=
  match s with Some s => s | None => "None" end.

End Str.

(** ** models.py and database.py *)

Module ContentType.

Inductive t : Type :=
  | TRAINING_MATERIAL
  | SALES_SCRIPT
  | Q_A
  | BEST_PRACTICE.

Definition value (c : t) : string :=
  match c with
  | TRAINING_MATERIAL => "training_material"
  | SALES_SCRIPT => "sales_script"
  | Q_A => "qa"
  | BEST_PRACTICE => "best_practice"
  end.

Definition eqb (a b : t) : bool := String.eqb (value a) (value b).

End ContentType.

Module TrainingContent.

Record t : Type := mk {
  id : option string;
  title : string;
  content : string;
  content_type : ContentType.t;
  tags : list string;
  created_by : string;
  created_at : Z;
  usage_count : Z;
  effectiveness_score : option Q
}.

Definition with_id (c : t) (i : string) : t :=
  mk (Some i) (title c) (content c) (content_type c) (tags c) (created_by c)
     (created_at c) (usage_count c) (effectiveness_score c).

End TrainingContent.

(** A row of the table [training_contents], as [add_content] writes its
    rows: the text columns hold a value and [content_type] holds a
    [ContentType.value]; [tags], [usage_count] and [effectiveness_score] can
    be NULL. *)
Module TrainingContentModel.

Record t : Type := mk {
  id : string;
  title : string;
  content : string;
  content_type : ContentType.t;
  tags : option (list string);
  created_by : string;
  created_at : Z;
  usage_count : option Z;
  effectiveness_score : option Q
}.

End TrainingContentModel.

Module ConversationMessage.

Record t : Type := mk {
  role : string;
  content : string;
  timestamp : Z
}.

End ConversationMessage.

Module Conversation.

Record t : Type := mk {
  id : option string;
  sales_id : string;
  customer_type : option string;
  scenario : option string;
  messages : list ConversationMessage.t;
  feedback_score : option Q;
  created_at : Z
}.

End Conversation.

Module LearningInsight.

Record t : Type := mk {
  id : option string;
  sales_id : option string;
  insight_type : string;
  content : string;
  confidence : Q;
  related_conversations : list string;
  created_at : Z
}.

Definition with_id (i : t) (new_id : string) : t :=
  mk (Some new_id) (sales_id i) (insight_type i) (content i) (confidence i)
     (related_conversations i) (created_at i).

End LearningInsight.

(** A row of the table [learning_insights]. *)
Module LearningInsightModel.

Record t : Type := mk {
  id : string;
  sales_id : string;
  insight_type : string;
  content : string;
  confidence : Q;
  related_conversations : list string;
  created_at : Z
}.

End LearningInsightModel.

Module SalesScript.

Record t : Type := mk {
  id : option string;
  title : string;
  script : string;
  scenario : string;
  customer_type : option string;
  tags : list string;
  created_by : string;
  created_at : Z;
  success_rate : Q;
  usage_count : Z;
  variants : list string
}.

Definition with_stats (s : t) (n : Z) (rate : Q) : t :=
  mk (id s) (title s) (script s) (scenario s) (customer_type s) (tags s)
     (created_by s) (created_at s) rate n (variants s).

End SalesScript.

(** A row of the table [sales_scripts], as [generate_script] writes its
    rows; the columns read with [or] can be NULL. *)
Module SalesScriptModel.

Record t : Type := mk {
  id : string;
  title : string;
  script : string;
  scenario : string;
  customer_type : option string;
  tags : option (list string);
  created_by : string;
  created_at : Z;
  success_rate : option Q;
  usage_count : option Z;
  variants : option (list string)
}.

Definition with_stats (s : t) (n : Z) (rate : Q) : t :=
  mk (id s) (title s) (script s) (scenario s) (customer_type s) (tags s)
     (created_by s) (created_at s) (Some rate) (Some n) (variants s).

End SalesScriptModel.

Module ChatRequest.

Record t : Type := mk {
  message : string;
  sales_id : string;
  customer_type : option string
}.

End ChatRequest.

Module ScriptGenerationRequest.

Record t : Type := mk {
  scenario : string;
  customer_type : option string;
  requirements : option string;
  base_script_id : option string
}.

End ScriptGenerationRequest.

(** Truthiness of a Python number: zero is false. *)
Definition truthy_Q (q : Q) : bool := negb (Qeq_bool q 0).
Definition truthy_Z (z : Z) : bool := negb (z =? 0).

(** [x or d] *)
Definition or_Q (x : option Q) (d : Q) : Q :=
  match x with
  | Some q => if truthy_Q q then q else d
  | None => d
  end.
Definition or_Z (x : option Z) (d : Z) : Z :=
  match x with
  | Some z => if truthy_Z z then z else d
  | None => d
  end.
Definition or_list {A : Type} (x : option (list A)) (d : list A) : list A :=
  match x with
  | Some (a :: l) => a :: l
  | _ => d
  end.

(** ** Binary64 numbers

    [success_rate] is a Python [float]: the running rate of
    [update_success_rate] is computed in binary64, each operation rounded to
    the nearest float. *)

Module Binary64.

Definition float : Set := PrimFloat.float.

(** The float nearest to the integer [n], ties to even. *)
Definition nearest (n : Z) : float :=
  FloatOps.SF2Prim
    (SpecFloat.binary_normalize FloatOps.prec FloatOps.emax n 0 false).

(** The integers that round to a finite float are those below [max_int] in
    absolute value. *)
Definition max_int : Z := 2 ^ 1024 - 2 ^ 970.
Definition in_range (n : Z) : Prop := Z.abs n < max_int.

(** [float(n)], the conversion of an [int] operand of float arithmetic:
    the nearest float, and [OverflowError] for an integer out of range. *)
Definition of_int (n : Z) : result float :=
  if Z.abs n <? max_int then Ok (nearest n) else Raise OverflowError.

(** Truthiness of a float: [0.0] and [-0.0] are false. *)
Definition truthy (x : float) : bool := negb (PrimFloat.eqb x PrimFloat.zero).

(** [x or d] *)
Definition or_float (x : option float) (d : float) : float :=
  match x with
  | Some f => if truthy f then f else d
  | None => d
  end.

(** [s / n] on two integers that a float holds exactly: the quotient
    rounded to the nearest float. *)
Definition quotient (s n : Z) : float := PrimFloat.div (nearest s) (nearest n).

End Binary64.

(** [SalesScript] with its rate in binary64. *)
Module SalesScript64.

Record t : Type := mk {
  id : option string;
  title : string;
  script : string;
  scenario : string;
  customer_type : option string;
  tags : list string;
  created_by : string;
  created_at : Z;
  success_rate : Binary64.float;
  usage_count : Z;
  variants : list string
}.

Definition with_stats (s : t) (n : Z) (rate : Binary64.float) : t :=
  mk (id s) (title s) (script s) (scenario s) (customer_type s) (tags s)
     (created_by s) (created_at s) rate n (variants s).

End SalesScript64.

(** A row of the table [sales_scripts] with its rate in binary64; every
    column but the primary key is nullable. *)
Module SalesScriptModel64.

Record t : Type := mk {
  id : string;
  title : option string;
  script : option string;
  scenario : option string;
  customer_type : option string;
  tags : option (list string);
  created_by : option string;
  created_at : option Z;
  success_rate : option Binary64.float;
  usage_count : option Z;
  variants : option (list string)
}.

Definition with_stats (s : t) (n : Z) (rate : Binary64.float) : t :=
  mk (id s) (title s) (script s) (scenario s) (customer_type s) (tags s)
     (created_by s) (created_at s) (Some rate) (Some n) (variants s).

End SalesScriptModel64.

(** ** Sorting: [sorted(l, key=..., reverse=True)]

    Python's sort is stable, also with [reverse=True]: elements with equal
    keys keep their order. The result of a stable sort is determined by
    that, so an insertion sort computes it. *)

Module Sorting.
Section Sort.
Context {A K : Type} (key : A -> K) (lt : K -> K -> bool).

Fixpoint insert_desc (x : A) (l : list A) : list A :=
  match l with
  | [] => [x]
  | y :: l' =>
      if lt (key x) (key y) then y :: insert_desc x l' else x :: y :: l'
  end.

Definition sorted_desc (l : list A) : list A := foldr insert_desc [] l.

(** [x] may stand before [y]: the key of [x] is not below that of [y]. *)
Definition not_below (x y : A) : Prop := lt (key x) (key y) = false.
End Sort.

(** [x] stands before [y] in [l]. *)
Definition before {A : Type} (x y : A) (l : list A) : Prop :=
  exists l1 l2 l3, l = l1 ++ x :: l2 ++ y :: l3.
End Sorting.

(** ** knowledge_base.py: [KnowledgeBase]

    [search_content] hands out the very [TrainingContent] objects the
    mirror holds, and the cache keeps the lists it was given, so the objects
    are kept in a store and named by reference; [update_effectiveness]
    mutates an object in place. The vector database is a collaborator: the
    hits of a query are an input, each hit reduced to its [metadata['id']]. *)

Module KnowledgeBase.

Record t : Type := mk {
  objects : gmap nat TrainingContent.t;        (* the objects, by identity *)
  next_object : nat;
  contents : PyDict.t nat;                     (* self.contents *)
  search_index : gmap string (list string);    (* self.search_index *)
  table : gmap string TrainingContentModel.t;  (* training_contents *)
  cache : option (LRUCache.t (list nat))       (* cache.cache *)
}.

Definition with_store (w : t) (o : gmap nat TrainingContent.t) (n : nat) : t :=
  mk o n (contents w) (search_index w) (table w) (cache w).
Definition with_contents (w : t) (d : PyDict.t nat) : t :=
  mk (objects w) (next_object w) d (search_index w) (table w) (cache w).
Definition with_search_index (w : t) (i : gmap string (list string)) : t :=
  mk (objects w) (next_object w) (contents w) i (table w) (cache w).
Definition with_table (w : t) (d : gmap string TrainingContentModel.t) : t :=
  mk (objects w) (next_object w) (contents w) (search_index w) d (cache w).
Definition with_cache (w : t) (c : option (LRUCache.t (list nat))) : t :=
  mk (objects w) (next_object w) (contents w) (search_index w) (table w) c.

(** A new object. *)
Definition alloc (w : t) (c : TrainingContent.t) : nat * t :=
  (next_object w,
   with_store w (<[next_object w := c]> (objects w)) (S (next_object w))).

(** The items a list of references stands for. *)
Definition deref (w : t) (l : list nat) : list TrainingContent.t :=
  omap (fun r => objects w !! r) l.

(** The validation of [title], [content] and [created_by]: the length is
    checked on the value as it is given, then [validate_not_empty] refuses
    a blank value and returns the value stripped. *)
Definition validate_text (max_length : Z) (v : string) : result string :=
  if (Z.of_nat (Str.len v) <? 1) || (max_length <? Z.of_nat (Str.len v))
  then Raise ValidationError
  else if Str.truthy (Str.strip v) then Ok (Str.strip v)
  else Raise ValidationError.

(** [ge=0, le=5] on an optional score. *)
Definition score_ok (score : option Q) : bool :=
  match score with
  | Some x => Qle_bool 0 x && Qle_bool x 5
  | None => true
  end.

(** [TrainingContent(id=db_content.id, ..., usage_count=usage, ...)]:
    the model validates what it is given and raises on a value it
    refuses. [usage] is the value passed for [usage_count]; [None] is
    refused. *)
Definition of_row (row : TrainingContentModel.t) (usage : option Z)
    : result TrainingContent.t :=
  title ← validate_text 200 (TrainingContentModel.title row);
  content ← validate_text 10000 (TrainingContentModel.content row);
  created_by ← validate_text 100 (TrainingContentModel.created_by row);
  let tags := or_list (TrainingContentModel.tags row) [] in
  if (20 <? length tags)%nat then Raise ValidationError
  else
    match usage with
    | None => Raise ValidationError
    | Some usage_count =>
        if usage_count <? 0 then Raise ValidationError
        else if negb (score_ok (TrainingContentModel.effectiveness_score row))
        then Raise ValidationError
        else
          Ok (TrainingContent.mk
                (Some (TrainingContentModel.id row))
                title content
                (TrainingContentModel.content_type row)
                tags created_by
                (TrainingContentModel.created_at row)
                usage_count
                (TrainingContentModel.effectiveness_score row))
    end.

Definition to_row (content_id : string) (c : TrainingContent.t) : TrainingContentModel.t :=
  TrainingContentModel.mk
    content_id
    (TrainingContent.title c)
    (TrainingContent.content c)
    (TrainingContent.content_type c)
    (Some (TrainingContent.tags c))
    (TrainingContent.created_by c)
    (TrainingContent.created_at c)
    (Some (TrainingContent.usage_count c))
    (TrainingContent.effectiveness_score c).

(** The index update of [_load_from_database]: an id is listed once. *)
Definition index_tag_once (content_id : string)
    (index : gmap string (list string)) (tag : string) : gmap string (list string) :=
  let ids := default [] (index !! tag) in
  if bool_decide (content_id ∈ ids) then <[tag := ids]> index
  else <[tag := ids ++ [content_id]]> index.

(** One round of the loop of [_load_from_database]. *)
Definition load_row (w : t) (row : TrainingContentModel.t) : result t :=
  c ← of_row row (Some (or_Z (TrainingContentModel.usage_count row) 0));
  let '(r, w1) := alloc w c in
  let w2 := with_contents w1
              (PyDict.setitem (TrainingContentModel.id row) r (contents w1)) in
  Ok (with_search_index w2
        (foldl (index_tag_once (TrainingContentModel.id row)) (search_index w2)
           (TrainingContent.tags c))).

(** The loop of [_load_from_database], inside its [try]: the first row
    that raises ends it, and what was loaded before stays. *)
Fixpoint load_rows (w : t) (rows : list TrainingContentModel.t) : t :=
  match rows with
  | [] => w
  | row :: rows' =>
      match load_row w row with
      | Ok w' => load_rows w' rows'
      | Raise _ => w
      end
  end.

(** [KnowledgeBase()]: [rows] is what [db.query(TrainingContentModel).all()]
    returns. *)
Definition init (rows : list TrainingContentModel.t)
    (table : gmap string TrainingContentModel.t)
    (cache : option (LRUCache.t (list nat))) : t :=
  load_rows (mk ∅ 0 [] ∅ table cache) rows.

(** The index update of [add_content]: the id is appended. *)
Definition index_tag (content_id : string)
    (index : gmap string (list string)) (tag : string) : gmap string (list string) :=
  <[tag := default [] (index !! tag) ++ [content_id]]> index.

(** [add_content(content)]; [uuid] is [uuid.uuid4().hex[:8]]. A row whose
    key is taken fails the commit, which is rolled back and logged. *)
Definition add_content (w : t) (content : TrainingContent.t) (uuid : string)
    : string * t :=
  let content_id :=
    match TrainingContent.id content with
    | Some i => if Str.truthy i then i else "kb_" +:+ uuid
    | None => "kb_" +:+ uuid
    end in
  let content := TrainingContent.with_id content content_id in
  let '(r, w1) := alloc w content in
  let w2 :=
    match table w1 !! content_id with
    | Some _ => w1
    | None => with_table w1 (<[content_id := to_row content_id content]> (table w1))
    end in
  let w3 := with_contents w2 (PyDict.setitem content_id r (contents w2)) in
  (content_id,
   with_search_index w3
     (foldl (index_tag content_id) (search_index w3) (TrainingContent.tags content))).

Definition cache_key (query : string) (content_type : option ContentType.t) : string :=
  "search:" +:+ query +:+ ":" +:+
  match content_type with
  | Some ct => ContentType.value ct
  | None => "all"
  end.

(** The loop over the vector hits: each hit is resolved against the table
    and kept when its type passes the filter. *)
Fixpoint resolve_hits (w : t) (content_type : option ContentType.t)
    (hits : list (option string)) (results : list nat) : result (list nat * t) :=
  match hits with
  | [] => Ok (results, w)
  | hit :: hits' =>
      if negb (Str.truthy_opt hit) then resolve_hits w content_type hits' results
      else
        match table w !! default "" hit with
        | None => resolve_hits w content_type hits' results
        | Some row =>
            if match content_type with
               | Some ct =>
                   negb (String.eqb
                           (ContentType.value (TrainingContentModel.content_type row))
                           (ContentType.value ct))
               | None => false
               end
            then resolve_hits w content_type hits' results
            else
              match of_row row (TrainingContentModel.usage_count row) with
              | Raise e => Raise e
              | Ok content =>
                  let '(r, w') := alloc w content in
                  resolve_hits w' content_type hits' (results ++ [r])
              end
        end
  end.

(** The test of the keyword scan. *)
Definition matches (query_lower : string) (c : TrainingContent.t) : bool :=
  Str.str_in query_lower (Str.lower (TrainingContent.title c)) ||
  Str.str_in query_lower (Str.lower (TrainingContent.content c)) ||
  existsb (fun tag => Str.str_in query_lower (Str.lower tag)) (TrainingContent.tags c).

Definition type_allows (content_type : option ContentType.t)
    (c : TrainingContent.t) : bool :=
  match content_type with
  | Some ct => ContentType.eqb (TrainingContent.content_type c) ct
  | None => true
  end.

(** The keyword scan over [self.contents.values()]. *)
Definition keyword_scan (w : t) (query : string)
    (content_type : option ContentType.t) : list nat :=
  List.filter
    (fun r =>
       match objects w !! r with
       | Some c => type_allows content_type c && matches (Str.lower query) c
       | None => false
       end)
    (PyDict.values (contents w)).

(** [(x.effectiveness_score or 0, x.usage_count)] and the order of tuples. *)
Definition sort_key (c : TrainingContent.t) : Q * Z :=
  (or_Q (TrainingContent.effectiveness_score c) 0, TrainingContent.usage_count c).

Definition key_lt (a b : Q * Z) : bool :=
  match (a.1 ?= b.1)%Q with
  | Lt => true
  | Eq => a.2 <? b.2
  | Gt => false
  end.

Definition key_of (w : t) (r : nat) : Q * Z :=
  match objects w !! r with
  | Some c => sort_key c
  | None => (0%Q, 0)
  end.

(** The ranking step: [sorted(results, key=..., reverse=True)]. *)
Definition rank (w : t) (results : list nat) : list nat :=
  Sorting.sorted_desc (key_of w) key_lt results.

(** [cache.get(cache_key)] when the cache is enabled. *)
Definition cache_lookup (w : t) (key : string) (now : Z)
    : result (option (list nat) * t) :=
  match cache w with
  | Some c => '(v, c') ← LRUCache.get c key now; Ok (v, with_cache w (Some c'))
  | None => Ok (None, w)
  end.

(** [cache.set(cache_key, sorted_results)] when the cache is enabled. *)
Definition cache_store (w : t) (key : string) (value : list nat) (now : Z)
    : result t :=
  match cache w with
  | Some c => c' ← LRUCache.set c key value now; Ok (with_cache w (Some c'))
  | None => Ok w
  end.

(** [search_content(query, content_type)]: [hits] are the vector hits,
    [now] and [now'] the times of the cache lookup and of the cache store. *)
Definition search_content (w : t) (query : string)
    (content_type : option ContentType.t) (hits : list (option string))
    (now now' : Z) : result (list nat * t) :=
  let key := cache_key query content_type in
  '(cached, w0) ← cache_lookup w key now;
  match cached with
  | Some l => Ok (l, w0)
  | None =>
      '(results, w1) ← resolve_hits w0 content_type hits [];
      let results :=
        match results with
        | [] => keyword_scan w1 query content_type
        | _ => results
        end in
      let sorted_results := rank w1 results in
      w2 ← cache_store w1 key sorted_results now';
      Ok (sorted_results, w2)
  end.

(** [get_content(content_id)]: the mirror first, then the table. *)
Definition get_content (w : t) (content_id : string) : result (option nat * t) :=
  match PyDict.getitem content_id (contents w) with
  | Some r => Ok (Some r, w)
  | None =>
      match table w !! content_id with
      | Some row =>
          c ← of_row row (Some (or_Z (TrainingContentModel.usage_count row) 0));
          let '(r, w1) := alloc w c in
          Ok (Some r, with_contents w1 (PyDict.setitem content_id r (contents w1)))
      | None => Ok (None, w)
      end
  end.

(** [update_effectiveness(content_id, score)]: the object is changed in
    place. *)
Definition update_effectiveness (w : t) (content_id : string) (score : Q) : t :=
  match PyDict.getitem content_id (contents w) with
  | Some r =>
      match objects w !! r with
      | Some c =>
          with_store w
            (<[r := TrainingContent.mk
                      (TrainingContent.id c) (TrainingContent.title c)
                      (TrainingContent.content c) (TrainingContent.content_type c)
                      (TrainingContent.tags c) (TrainingContent.created_by c)
                      (TrainingContent.created_at c)
                      (TrainingContent.usage_count c + 1) (Some score)]>
               (objects w))
            (next_object w)
      | None => w
      end
  | None => w
  end.

(** [get_by_tags(tags)]: the ids the index lists under one of the tags,
    each id once, then the items the mirror holds for them. The order in
    which Python walks a set is not specified; [elements] stands for it. *)
Definition get_by_tags (w : t) (tags : list string) : list nat :=
  let content_ids : gset string :=
    foldl (fun ids tag =>
             match search_index w !! tag with
             | Some l => ids ∪ list_to_set l
             | None => ids
             end)
          ∅ tags in
  omap (M := list) (fun cid => PyDict.getitem cid (contents w))
    (elements content_ids).

(** The score an item is ranked by: an absent score counts as 0. *)
Definition score (c : TrainingContent.t) : Q :=
  or_Q (TrainingContent.effectiveness_score c) 0.

(** A list of references is ranked in a store: no item stands before one
    with a greater key. *)
Definition ranked (w : t) (l : list nat) : Prop :=
  StronglySorted (Sorting.not_below (key_of w) key_lt) l.

(** Every reference the mirror holds names an object of the store. *)
Definition refs_ok (w : t) : Prop :=
  forall i r, PyDict.getitem i (contents w) = Some r -> (r < next_object w)%nat.

(** The tag index agrees with the mirror: tag [tag] lists id [i] exactly
    when the item the mirror holds under [i] carries [tag]. *)
Definition index_consistent (w : t) : Prop :=
  forall (tag i : string),
    i ∈ default [] (search_index w !! tag) <->
    exists r c,
      PyDict.getitem i (contents w) = Some r /\
      objects w !! r = Some c /\
      tag ∈ TrainingContent.tags c.

(** What holds of a mirror loaded from [rows]. *)
Definition loaded (rows : list TrainingContentModel.t) (w : t) : Prop :=
  refs_ok w /\ index_consistent w /\
  PyDict.keys (contents w) = map TrainingContentModel.id rows /\
  forall row, row ∈ rows ->
    exists r c,
      of_row row (Some (or_Z (TrainingContentModel.usage_count row) 0)) = Ok c /\
      PyDict.getitem (TrainingContentModel.id row) (contents w) = Some r /\
      objects w !! r = Some c.


End KnowledgeBase.

(** ** conversation_engine.py: [ConversationEngine] *)

Module ConversationEngine.

Record t : Type := mk {
  conversation_history : gmap string (list Conversation.t);  (* in memory *)
  table : list Conversation.t;                               (* conversations *)
  cache : option (LRUCache.t (list Conversation.t))
}.

(** [_build_context(content, history, request)] *)
Definition _build_context (content : list TrainingContent.t)
    (history : list Conversation.t) (request : ChatRequest.t) : string :=
  let context_parts :=
    map (fun item =>
           "培訓內容：" +:+ TrainingContent.title item +:+ Str.nl +:+
           Str.slice_to 200 (TrainingContent.content item) +:+ "...")
        (firstn 3 content) in
  let context_parts :=
    match last history with
    | Some recent =>
        context_parts ++
        ["最近對話場景：" +:+ Str.format_opt (Conversation.scenario recent)]
    | None => context_parts
    end in
  Str.join (Str.nl +:+ Str.nl) context_parts.

(** [_extract_suggestions(content, request)] *)
Definition _extract_suggestions (content : list TrainingContent.t)
    (request : ChatRequest.t) : list string :=
  map (fun item => "參考：" +:+ TrainingContent.title item) (firstn 2 content).

(** [_get_related_scripts(request)] *)
Definition _get_related_scripts (request : ChatRequest.t) : list string :=
  ["script_001"; "script_002"].

(** [save_conversation(sales_id, conversation)]; [uuid] is
    [uuid.uuid4().hex[:8]]. *)
Definition save_conversation (e : t) (sales_id : string)
    (conversation : Conversation.t) (uuid : string) : t :=
  let conversation :=
    if Str.truthy_opt (Conversation.id conversation) then conversation
    else
      Conversation.mk (Some ("conv_" +:+ uuid))
        (Conversation.sales_id conversation)
        (Conversation.customer_type conversation)
        (Conversation.scenario conversation)
        (Conversation.messages conversation)
        (Conversation.feedback_score conversation)
        (Conversation.created_at conversation) in
  mk (<[sales_id :=
          default [] (conversation_history e !! sales_id) ++ [conversation]]>
        (conversation_history e))
     (if existsb (fun row => bool_decide (Conversation.id row = Conversation.id conversation))
           (table e)
      then table e                      (* the commit fails and is rolled back *)
      else table e ++ [conversation])
     (cache e).

(** [order_by(created_at.desc()).limit(limit)] over the rows of one
    subject. *)
Definition query_history (rows : list Conversation.t) (sales_id : string)
    (limit : nat) : list Conversation.t :=
  firstn limit
    (Sorting.sorted_desc Conversation.created_at Z.ltb
       (List.filter (fun c => String.eqb (Conversation.sales_id c) sales_id) rows)).

(** The rows of the subject, the most recent first. *)
Definition recent_first (rows : list Conversation.t) (sales_id : string)
    : list Conversation.t :=
  Sorting.sorted_desc Conversation.created_at Z.ltb
    (List.filter (fun c => String.eqb (Conversation.sales_id c) sales_id) rows).

Definition history_key (sales_id : string) (limit : string) : string :=
  "history:" +:+ sales_id +:+ ":" +:+ limit.

(** [get_conversation_history(sales_id, limit)]; [limit_str] is
    [str(limit)]. *)
Definition get_conversation_history (e : t) (sales_id : string) (limit : nat)
    (limit_str : string) (now now' : Z) : result (list Conversation.t * t) :=
  let key := history_key sales_id limit_str in
  '(cached, e0) ←
    match cache e with
    | Some c =>
        '(v, c') ← LRUCache.get c key now;
        Ok (v, mk (conversation_history e) (table e) (Some c'))
    | None => Ok (None, e)
    end;
  match cached with
  | Some l => Ok (l, e0)
  | None =>
      let conversations := query_history (table e0) sales_id limit in
      e1 ← match cache e0 with
           | Some c =>
               c' ← LRUCache.set c key conversations now';
               Ok (mk (conversation_history e0) (table e0) (Some c'))
           | None => Ok e0
           end;
      Ok (conversations, e1)
  end.

(** Step 2 of [chat]: the history of the subject, from memory when there is
    one, else the last ten conversations of the table. *)
Definition user_history (e : t) (user_id : string) (now now' : Z)
    : result (list Conversation.t * t) :=
  match default [] (conversation_history e !! user_id) with
  | [] =>
      '(h, e1) ← get_conversation_history e user_id 10 "10" now now';
      match h with
      | [] => Ok (h, e1)
      | _ =>
          Ok (h, mk (<[user_id := h]> (conversation_history e1))
                    (table e1) (cache e1))
      end
  | h => Ok (h, e)
  end.

End ConversationEngine.

(** ** learning_system.py: [LearningSystem] *)

Module LearningSystem.
Section Learning.
(** [str(x)] of a float inside an f-string. *)
Context (float_str : Q -> string).

Record t : Type := mk {
  insights : gmap string (list LearningInsight.t);   (* in memory *)
  table : list LearningInsightModel.t                (* learning_insights *)
}.

Definition problem_keywords : list (string * list string) :=
  [("价格异议", ["贵"; "价格"; "费用"; "成本"; "预算"]);
   ("功能疑虑", ["能"; "可以"; "功能"; "特性"; "支持"]);
   ("信任问题", ["真的"; "确定"; "保证"; "可靠"; "信任"])].

Fixpoint unique (l : list string) : list string :=
  match l with
  | [] => []
  | s :: l' => if existsb (String.eqb s) l' then unique l' else s :: unique l'
  end.

(** [_identify_common_issues(conversation)] *)
Definition _identify_common_issues (conversation : Conversation.t) : list string :=
  match Conversation.messages conversation with
  | [] => []
  | msgs =>
      let user_messages :=
        List.filter (fun m => String.eqb (ConversationMessage.role m) "user") msgs in
      let assistant_messages :=
        List.filter (fun m => String.eqb (ConversationMessage.role m) "assistant") msgs in
      let issues1 :=
        if (10 <? length user_messages)%nat
        then ["对话过长，可能表示需求未及时满足"] else [] in
      let questions :=
        map (fun m => Str.lower (ConversationMessage.content m))
          (List.filter (fun m => Str.str_in "?" (ConversationMessage.content m))
             user_messages) in
      let issues2 :=
        if (2 <? length questions)%nat &&
           negb (Qle_bool (inject_Z (Z.of_nat (length questions)) * 0.7)
                          (inject_Z (Z.of_nat (length (unique questions)))))
        then ["发现重复提问模式，建议优化话术"] else [] in
      let issues3 :=
        if (1 <? length user_messages)%nat && (0 <? length assistant_messages)%nat
        then ["建议关注响应速度，及时回复客户"] else [] in
      let all_user_text :=
        Str.join " "
          (map (fun m => Str.lower (ConversationMessage.content m)) user_messages) in
      let detected_problems :=
        map fst
          (List.filter
             (fun p => existsb (fun keyword => Str.str_in keyword all_user_text) p.2)
             problem_keywords) in
      let issues4 :=
        match detected_problems with
        | [] => []
        | _ =>
            ["检测到常见问题类型：" +:+ Str.join ", " detected_problems +:+
             "，建议针对性培训"]
        end in
      issues1 ++ issues2 ++ issues3 ++ issues4
  end.

(** Part 1 of [analyze_conversation]: the insight the feedback score
    gives. *)
Definition quality_insights (conversation : Conversation.t) (now : Z)
    : list LearningInsight.t :=
  let related :=
    match Conversation.id conversation with
    | Some i => if Str.truthy i then [i] else []
    | None => []
    end in
  match Conversation.feedback_score conversation with
  | Some score =>
      if truthy_Q score then
        if Qle_bool 4.5 score then
          [LearningInsight.mk None None "strength"
             ("此次对话表现优秀（" +:+ float_str score +:+ "分），建议记录为最佳实践")
             0.9 related now]
        else if Qle_bool score 2.5 then
          [LearningInsight.mk None None "improvement"
             ("此次对话需要改进（" +:+ float_str score +:+ "分），建议加强相关培训")
             0.85 related now]
        else []
      else []
  | None => []
  end.

(** Part 2: one pattern insight for each issue. *)
Definition pattern_insights (conversation : Conversation.t) (now : Z)
    : list LearningInsight.t :=
  map (fun issue => LearningInsight.mk None None "pattern" issue 0.75 [] now)
      (_identify_common_issues conversation).

(** The insights get their ids when they are saved: [uuids] are the
    [uuid.uuid4().hex[:8]] drawn, one for each insight. *)
Fixpoint assign_ids (l : list LearningInsight.t) (uuids : nat -> string) (n : nat)
    : list LearningInsight.t :=
  match l with
  | [] => []
  | i :: l' =>
      LearningInsight.with_id i ("insight_" +:+ uuids n) :: assign_ids l' uuids (S n)
  end.

Definition to_row (sales_id : string) (i : LearningInsight.t) : LearningInsightModel.t :=
  LearningInsightModel.mk
    (default "" (LearningInsight.id i)) sales_id
    (LearningInsight.insight_type i) (LearningInsight.content i)
    (LearningInsight.confidence i) (LearningInsight.related_conversations i)
    (LearningInsight.created_at i).

(** The strings of a list are distinct. *)
Fixpoint distinct (l : list string) : bool :=
  match l with
  | [] => true
  | s :: l' => negb (existsb (String.eqb s) l') && distinct l'
  end.

(** The rows are added in one transaction and [id] is the primary key:
    the commit goes through when the ids of the new rows are distinct and
    none is the id of a row of the table; otherwise it fails, is rolled back
    and logged, and no row is stored. *)
Definition commit_rows (table rows : list LearningInsightModel.t)
    : list LearningInsightModel.t :=
  if distinct (map LearningInsightModel.id rows) &&
     forallb
       (fun row =>
          negb (existsb
                  (fun old => String.eqb (LearningInsightModel.id old)
                                         (LearningInsightModel.id row))
                  table))
       rows
  then table ++ rows
  else table.

(** [analyze_conversation(conversation)] *)
Definition analyze_conversation (ls : t) (conversation : Conversation.t)
    (uuids : nat -> string) (now : Z) : list LearningInsight.t * t :=
  let insights0 :=
    quality_insights conversation now ++ pattern_insights conversation now in
  let sales_id := Conversation.sales_id conversation in
  if Str.truthy sales_id then
    let saved := assign_ids insights0 uuids 0 in
    (saved,
     mk (<[sales_id := default [] (insights ls !! sales_id) ++ saved]> (insights ls))
        (commit_rows (table ls) (map (to_row sales_id) saved)))
  else (insights0, ls).

(** The order of [sorted(..., key=lambda x: x.confidence, reverse=True)]. *)
Definition confidence_lt (a b : Q) : bool := negb (Qle_bool b a).

(** [generate_personalized_training(sales_id)]. The knowledge base is
    searched with no type filter; [kb] is its state, [hits] the vector hits
    of that search, [now] and [now'] the times of its cache lookup and of
    its cache store. *)
Definition generate_personalized_training (ls : t) (sales_id : string)
    (kb : KnowledgeBase.t) (hits : list (option string)) (now now' : Z)
    : result (list string * KnowledgeBase.t) :=
  let db_insights :=
    firstn 20
      (Sorting.sorted_desc LearningInsightModel.created_at Z.ltb
         (List.filter
            (fun i => String.eqb (LearningInsightModel.sales_id i) sales_id)
            (table ls))) in
  match db_insights with
  | [] => Ok (["继续练习，保持良好表现"], kb)
  | _ =>
      let of_type (insight_type : string) :=
        List.filter
          (fun i => String.eqb (LearningInsightModel.insight_type i) insight_type)
          db_insights in
      let improvements := of_type "improvement" in
      let strengths := of_type "strength" in
      let patterns := of_type "pattern" in
      let suggestions1 :=
        map (fun imp => "建议加强：" +:+ LearningInsightModel.content imp)
          (firstn 3
             (Sorting.sorted_desc LearningInsightModel.confidence confidence_lt
                improvements)) in
      let suggestions2 :=
        match Sorting.sorted_desc LearningInsightModel.confidence confidence_lt
                strengths with
        | best :: _ => ["优势：" +:+ LearningInsightModel.content best]
        | [] => []
        end in
      let suggestions3 :=
        match patterns with
        | [] => []
        | _ =>
            ["发现模式：" +:+
             Str.join ", "
               (map (fun p => Str.slice_to 30 (LearningInsightModel.content p))
                    (firstn 2 patterns)) +:+
             "..."]
        end in
      '(suggestions4, kb') ←
        match improvements with
        | [] => Ok ([], kb)
        | _ =>
            let improvement_text :=
              Str.join " " (map LearningInsightModel.content (firstn 2 improvements)) in
            '(recommended_content, kb') ←
              KnowledgeBase.search_content kb improvement_text None hits now now';
            let recommended_content :=
              if (2 <? length recommended_content)%nat
              then firstn 2 recommended_content else recommended_content in
            match KnowledgeBase.deref kb' recommended_content with
            | first :: _ => Ok (["推荐培训内容：" +:+ TrainingContent.title first], kb')
            | [] => Ok ([], kb')
            end
        end;
      let suggestions := suggestions1 ++ suggestions2 ++ suggestions3 ++ suggestions4 in
      Ok (match suggestions with
          | [] => ["表现良好，继续保持！"]
          | _ => suggestions
          end, kb')
  end.

End Learning.
End LearningSystem.

(** ** llm_service.py: [LLMService]

    [client] is [self.client]: absent when there is no API key, else the call
    [chat.completions.create(messages=...)], which gives a text or raises.
    A message is a pair of a role and a content. *)

Module LLMService.

Definition advice_customer : string :=
"基於我們的最佳實踐，我建議您：

1. **深入了解客戶需求**
   - 透過提問了解客戶的真實痛點
   - 傾聽客戶的關注點和期望

2. **提供針對性解決方案**
   - 將產品特性與客戶需求匹配
   - 強調價值而非功能

3. **建立信任關係**
   - 展示專業性和同理心
   - 提供真實案例和成功故事

可以參考我們的話術庫中的「客戶需求挖掘」部分，那裡有詳細的對話模板。".

Definition advice_script : string :=
"針對您的情況，我推薦以下話術：

**開場白：**
「我理解您的關注點，讓我為您詳細說明一下我們的解決方案如何滿足您的具體需求。」

**價值呈現：**
「根據您剛才提到的[具體需求]，我們的[產品特性]可以幫您[具體價值]，這在我們之前服務的[客戶類型]中取得了很好的效果。」

**異議處理：**
「我完全理解您的顧慮。讓我從另一個角度為您分析一下...」

需要我為您生成更具體的話術嗎？".

Definition advice_price : string :=
"處理價格異議的建議：

1. **價值導向**
   - 強調ROI和長期價值
   - 對比成本和收益

2. **分階段說明**
   - 解釋價格構成
   - 提供靈活方案

3. **社會證明**
   - 展示其他客戶的滿意度和成果
   - 提供案例研究

可以參考我們的話術庫中的「價格異議處理」模板。".

Definition advice_default : string :=
"這是一個很好的問題。讓我基於我們的培訓材料和最佳實踐為您提供建議。

建議您：
1. 參考我們知識庫中的相關內容
2. 結合實際情況靈活運用
3. 記錄這次對話的結果，以便持續改進

如果您有具體場景，我可以為您生成定制化的話術和SOP流程。".

(** [_fallback_response(message, context)] *)
Definition _fallback_response (message : string) (context : option string) : string :=
  if Str.str_in "客戶" message || Str.str_in "如何處理" message ||
     Str.str_in "客户" message || Str.str_in "如何处理" message
  then advice_customer
  else if Str.str_in "話術" message || Str.str_in "怎麼說" message ||
          Str.str_in "话术" message || Str.str_in "怎么说" message
  then advice_script
  else if Str.str_in "價格" message || Str.str_in "費用" message ||
          Str.str_in "价格" message || Str.str_in "费用" message
  then advice_price
  else advice_default.

(** [l[-n:]] *)
Definition last_n {A : Type} (n : nat) (l : list A) : list A :=
  skipn (length l - n) l.

(** The messages [generate_response] sends. *)
Definition messages_for (system_prompt user_message : string)
    (context : option string) (conversation_history : list (string * string))
    : list (string * string) :=
  let enhanced_prompt :=
    if negb (Str.str_in "繁體中文" system_prompt) &&
       negb (Str.str_in "繁體" system_prompt)
    then system_prompt +:+ Str.nl +:+ Str.nl +:+
         "**重要：請務必使用繁體中文回答，不要使用簡體中文。所有回應都必須是繁體中文。**"
    else system_prompt in
  [("system", enhanced_prompt)] ++
  (if Str.truthy_opt context
   then [("system",
          "相關知識和培訓內容：" +:+ Str.nl +:+ default "" context +:+ Str.nl +:+
          Str.nl +:+ "注意：請使用繁體中文回答。")]
   else []) ++
  last_n 5 conversation_history ++
  [("user", user_message)].

(** [generate_response(system_prompt, user_message, context,
    conversation_history)]: every failure of the call is caught and answered
    by [_fallback_response]. *)
Definition generate_response
    (client : option (list (string * string) -> result string))
    (system_prompt user_message : string) (context : option string)
    (conversation_history : list (string * string)) : string :=
  match client with
  | None => _fallback_response user_message context
  | Some create =>
      match create (messages_for system_prompt user_message context
                      conversation_history) with
      | Ok text => text
      | Raise _ => _fallback_response user_message context
      end
  end.

End LLMService.

(** ** conversation_engine.py: [chat] and [_generate_response] *)

Module ChatResponse.

Record t : Type := mk {
  response : string;
  suggestions : list string;
  related_scripts : list string;
  confidence : Q
}.

End ChatResponse.

Module Chat.

Definition system_prompt : string :=
"你是一個專業的銷售教練AI助手。你的任務是：
1. 幫助業務員解決銷售過程中的問題
2. 提供基於最佳實踐的建議
3. 推薦合適的話術和策略
4. 持續學習和改進

請用專業、友好、實用的方式回答，並給出具體的行動建議。

**重要：請務必使用繁體中文回答，不要使用簡體中文。所有回應都必須是繁體中文。**".

(** The history [_generate_response] hands to the service: the last four
    messages of each of the last three conversations. *)
Definition conversation_window (history : list Conversation.t)
    : list (string * string) :=
  flat_map
    (fun conv =>
       map (fun msg => (ConversationMessage.role msg, ConversationMessage.content msg))
           (LLMService.last_n 4 (Conversation.messages conv)))
    (LLMService.last_n 3 history).

(** [_generate_response(message, context, history)] *)
Definition _generate_response
    (client : option (list (string * string) -> result string))
    (message context : string) (history : list Conversation.t) : string :=
  LLMService.generate_response client system_prompt message (Some context)
    (conversation_window history).

(** [chat(request)] after the search: [relevant_content] is what step 1
    leaves, the result of [knowledge_base.search_content] or [[]] when it
    is empty or the search raised. *)
Definition chat (e : ConversationEngine.t)
    (client : option (list (string * string) -> result string))
    (request : ChatRequest.t) (relevant_content : list TrainingContent.t)
    (now now' : Z) : result (ChatResponse.t * ConversationEngine.t) :=
  '(user_history, e1) ←
    ConversationEngine.user_history e (ChatRequest.sales_id request) now now';
  let context :=
    ConversationEngine._build_context relevant_content user_history request in
  let response_text :=
    _generate_response client (ChatRequest.message request) context user_history in
  let suggestions :=
    ConversationEngine._extract_suggestions relevant_content request in
  Ok (ChatResponse.mk response_text (firstn 3 suggestions)
        (ConversationEngine._get_related_scripts request) 0.85,
      e1).

End Chat.

(** ** script_generator.py: [ScriptGenerator]

    The text generation service is a collaborator:
    [generate_response system_prompt user_message] is
    [llm_service.generate_response(system_prompt, user_message, context=None)]
    as its caller sees it, a text or an exception;
    [llm_generate_script scenario customer_type requirements] is
    [llm_service.generate_script]. *)

Module ScriptGenerator.

Record t : Type := mk {
  scripts : gmap string SalesScript.t;        (* self.scripts *)
  table : gmap string SalesScriptModel.t      (* sales_scripts *)
}.

Definition styles : list (string * string) :=
  [("正式版本", "使用正式、专业的语言风格");
   ("友好版本", "使用友好、亲切的语言风格");
   ("简洁版本", "使用简洁、直接的语言风格")].

Definition style_names_tw (style_name : string) : string :=
  if String.eqb style_name "正式版本" then "正式版本"
  else if String.eqb style_name "友好版本" then "友好版本"
  else if String.eqb style_name "简洁版本" then "簡潔版本"
  else style_name.

Definition variant_system_prompt : string :=
  "你是一個銷售話術改寫專家，擅長將話術改寫為不同的語言風格。請使用繁體中文回答。".

Definition variant_prompt (style_name_tw style_desc script : string) : string :=
  "請將以下銷售話術改寫為" +:+ style_name_tw +:+ "（" +:+ style_desc +:+
  "），保持核心內容和結構不變，只改變表達風格。" +:+ Str.nl +:+ Str.nl +:+
  "原始話術：" +:+ Str.nl +:+ script +:+ Str.nl +:+ Str.nl +:+
  "請生成" +:+ style_name_tw +:+ "。" +:+ Str.nl +:+ Str.nl +:+
  "**重要：請務必使用繁體中文生成，不要使用簡體中文。**".

(** The fallback of [_generate_variants]. *)
Definition fallback_variants (script : string) : list string :=
  ["变体1（正式版）：" +:+ Str.slice_to 100 script +:+ "...";
   "变体2（友好版）：" +:+ Str.slice_to 100 script +:+ "...";
   "变体3（简洁版）：" +:+ Str.slice_to 100 script +:+ "..."].

Section Generation.
Context (generate_response : string -> string -> result string).
Context (llm_generate_script : string -> option string -> option string -> string).

(** The [for] loop of [_generate_variants], inside its [try]. *)
Fixpoint variants_loop (todo : list (string * string)) (script : string)
    (variants : list string) : result (list string) :=
  match todo with
  | [] => Ok variants
  | (style_name, style_desc) :: todo' =>
      variant ← generate_response variant_system_prompt
                  (variant_prompt (style_names_tw style_name) style_desc script);
      variants_loop todo' script (variants ++ [variant])
  end.

(** [_generate_variants(script)] *)
Definition _generate_variants (script : string) : list string :=
  let variants :=
    match variants_loop styles script [] with
    | Ok variants => variants
    | Raise _ => fallback_variants script
    end in
  firstn 3 variants.

(** [_generate_from_scratch(request, content)] *)
Definition _generate_from_scratch (request : ScriptGenerationRequest.t)
    (content : list TrainingContent.t) : string :=
  let best_practices :=
    Str.join Str.nl
      (map (fun c => "- " +:+ TrainingContent.title c +:+ ": " +:+
                     Str.slice_to 200 (TrainingContent.content c))
           (firstn 3 content)) in
  let script :=
    llm_generate_script (ScriptGenerationRequest.scenario request)
      (ScriptGenerationRequest.customer_type request)
      (ScriptGenerationRequest.requirements request) in
  if Str.truthy best_practices
  then script +:+ Str.nl +:+ Str.nl +:+ "參考最佳實踐：" +:+ Str.nl +:+ best_practices
  else script.

Definition optimize_system_prompt : string :=
  "你是一個銷售話術優化專家，擅長將普通話術優化為更專業、更有效的版本。請使用繁體中文回答。".

Definition or_str (s : option string) (d : string) : string :=
  match s with
  | Some s => if Str.truthy s then s else d
  | None => d
  end.

Definition optimize_prompt (base_script : string)
    (request : ScriptGenerationRequest.t) : string :=
  "你是一個專業的銷售話術優化專家。請優化以下話術，使其更有效、更專業。" +:+
  Str.nl +:+ Str.nl +:+ "原始話術：" +:+ Str.nl +:+ base_script +:+
  Str.nl +:+ Str.nl +:+ "優化要求：" +:+ Str.nl +:+
  "- 場景：" +:+ ScriptGenerationRequest.scenario request +:+ Str.nl +:+
  "- 客戶類型：" +:+ or_str (ScriptGenerationRequest.customer_type request) "通用" +:+
  Str.nl +:+
  "- 特殊要求：" +:+ or_str (ScriptGenerationRequest.requirements request) "無" +:+
  Str.nl +:+ Str.nl +:+
  "請提供優化後的話術，保持原有結構但提升表達效果。" +:+ Str.nl +:+ Str.nl +:+
  "**重要：請務必使用繁體中文生成，不要使用簡體中文。**".

(** [_optimize_script(base_script, request)] *)
Definition _optimize_script (base_script : string)
    (request : ScriptGenerationRequest.t) : string :=
  match generate_response optimize_system_prompt (optimize_prompt base_script request) with
  | Ok optimized => optimized
  | Raise _ =>
      base_script +:+ Str.nl +:+ Str.nl +:+ "优化建议：" +:+ Str.nl +:+
      "- 增加更多情感连接" +:+ Str.nl +:+ "- 强化价值主张" +:+ Str.nl +:+
      "- 简化表达方式"
  end.

(** [generate_script(request, created_by)] after the search:
    [related_content] is what [knowledge_base.search_content] returned,
    [uuid] is [uuid.uuid4().hex[:8]]. *)
Definition generate_script (g : t) (request : ScriptGenerationRequest.t)
    (created_by : string) (related_content : list TrainingContent.t)
    (uuid : string) (now : Z) : SalesScript.t * t :=
  let script_text :=
    match ScriptGenerationRequest.base_script_id request with
    | Some base_id =>
        if Str.truthy base_id then
          match scripts g !! base_id with
          | Some base_script => _optimize_script (SalesScript.script base_script) request
          | None => _generate_from_scratch request related_content
          end
        else _generate_from_scratch request related_content
    | None => _generate_from_scratch request related_content
    end in
  let variants := _generate_variants script_text in
  let script_id := "script_" +:+ uuid in
  let scenario := ScriptGenerationRequest.scenario request in
  let customer_type := ScriptGenerationRequest.customer_type request in
  let script :=
    SalesScript.mk (Some script_id)
      (scenario +:+ " - " +:+ or_str customer_type "通用")
      script_text scenario customer_type
      (if Str.truthy_opt customer_type
       then [scenario; default "" customer_type] else [scenario])
      created_by now 0 0 variants in
  (script,
   mk (<[script_id := script]> (scripts g))
      (match table g !! script_id with
       | Some _ => table g
       | None =>
           <[script_id :=
               SalesScriptModel.mk script_id (SalesScript.title script)
                 script_text scenario customer_type (Some (SalesScript.tags script))
                 created_by now (Some 0%Q) (Some 0) (Some variants)]> (table g)
       end)).
End Generation.

Definition of_row (row : SalesScriptModel.t) : SalesScript.t :=
  SalesScript.mk
    (Some (SalesScriptModel.id row))
    (SalesScriptModel.title row)
    (SalesScriptModel.script row)
    (SalesScriptModel.scenario row)
    (SalesScriptModel.customer_type row)
    (or_list (SalesScriptModel.tags row) [])
    (SalesScriptModel.created_by row)
    (SalesScriptModel.created_at row)
    (or_Q (SalesScriptModel.success_rate row) 0)
    (or_Z (SalesScriptModel.usage_count row) 0)
    (or_list (SalesScriptModel.variants row) []).

(** [get_script(script_id)]: the mirror first, then the table. *)
Definition get_script (g : t) (script_id : string) : option SalesScript.t * t :=
  match scripts g !! script_id with
  | Some script => (Some script, g)
  | None =>
      match table g !! script_id with
      | Some row =>
          let script := of_row row in
          (Some script, mk (<[script_id := script]> (scripts g)) (table g))
      | None => (None, g)
      end
  end.

(** [x / n] before rounding: division by zero raises. The division of
    binary64 is [ScriptGenerator64.float_div]. *)
Definition float_div (x : Q) (n : Z) : result Q :=
  if n =? 0 then Raise ZeroDivisionError else Ok (x / inject_Z n)%Q.

(** [update_success_rate(script_id, success)] *)
Definition update_success_rate (g : t) (script_id : string) (success : bool)
    : result t :=
  match get_script g script_id with
  | (None, g1) => Ok g1
  | (Some script, g1) =>
      let usage_count := SalesScript.usage_count script + 1 in
      success_rate ←
        (if success then
           float_div
             (SalesScript.success_rate script * inject_Z (usage_count - 1) + 1)%Q
             usage_count
         else
           float_div
             (SalesScript.success_rate script * inject_Z (usage_count - 1))%Q
             usage_count);
      let script := SalesScript.with_stats script usage_count success_rate in
      Ok (mk (<[script_id := script]> (scripts g1))
             (match table g1 !! script_id with
              | Some row =>
                  <[script_id := SalesScriptModel.with_stats row usage_count success_rate]>
                    (table g1)
              | None => table g1
              end))
  end.

(** The rate after an update, as [update_success_rate] computes it. *)
Definition next_rate (rate : Q) (n : Z) (success : bool) : Q :=
  ((rate * inject_Z (n - 1) + (if success then 1 else 0)) / inject_Z n)%Q.

(** [llm_service.generate_response(system_prompt, user_message,
    context=None)] as the generator calls it: it never raises. *)
Definition with_llm_service
    (client : option (list (string * string) -> result string))
    (system_prompt user_message : string) : result string :=
  Ok (LLMService.generate_response client system_prompt user_message None []).

(** The number of successes among the outcomes, and their mean. *)
Definition successes (outcomes : list bool) : Z :=
  Z.of_nat (length (List.filter (fun b : bool => b) outcomes)).
Definition mean (outcomes : list bool) : Q :=
  (inject_Z (successes outcomes) / inject_Z (Z.of_nat (length outcomes)))%Q.

(** A run of updates on one script. *)
Fixpoint update_all (g : t) (script_id : string) (outcomes : list bool) : result t :=
  match outcomes with
  | [] => Ok g
  | success :: outcomes' =>
      g' ← update_success_rate g script_id success;
      update_all g' script_id outcomes'
  end.

End ScriptGenerator.

(** ** script_generator.py: the success rate in binary64

    [get_script] and [update_success_rate] once more, with the rate a
    binary64 float and the rows as the table can hold them. *)

Module ScriptGenerator64.

Record t : Type := mk {
  scripts : gmap string SalesScript64.t;        (* self.scripts *)
  table : gmap string SalesScriptModel64.t      (* sales_scripts *)
}.

(** A field of [SalesScript] without a default: [None] is refused. *)
Definition required {A : Type} (x : option A) : result A :=
  match x with
  | Some a => Ok a
  | None => Raise ValidationError
  end.

(** [SalesScript(id=db_script.id, ..., success_rate=db_script.success_rate
    or 0.0, usage_count=db_script.usage_count or 0, ...)] *)
Definition of_row (row : SalesScriptModel64.t) : result SalesScript64.t :=
  title ← required (SalesScriptModel64.title row);
  script ← required (SalesScriptModel64.script row);
  scenario ← required (SalesScriptModel64.scenario row);
  created_by ← required (SalesScriptModel64.created_by row);
  created_at ← required (SalesScriptModel64.created_at row);
  Ok (SalesScript64.mk
        (Some (SalesScriptModel64.id row))
        title script scenario
        (SalesScriptModel64.customer_type row)
        (or_list (SalesScriptModel64.tags row) [])
        created_by created_at
        (Binary64.or_float (SalesScriptModel64.success_rate row) PrimFloat.zero)
        (or_Z (SalesScriptModel64.usage_count row) 0)
        (or_list (SalesScriptModel64.variants row) [])).

(** [get_script(script_id)]: the mirror first, then the table. *)
Definition get_script (g : t) (script_id : string)
    : result (option SalesScript64.t * t) :=
  match scripts g !! script_id with
  | Some script => Ok (Some script, g)
  | None =>
      match table g !! script_id with
      | Some row =>
          script ← of_row row;
          Ok (Some script, mk (<[script_id := script]> (scripts g)) (table g))
      | None => Ok (None, g)
      end
  end.

(** [x / n] with [n] an [int]: [n] is converted, and division by zero
    raises (an [int] converts to [0.0] only when it is 0). *)
Definition float_div (x : Binary64.float) (n : Z) : result Binary64.float :=
  d ← Binary64.of_int n;
  if n =? 0 then Raise ZeroDivisionError else Ok (PrimFloat.div x d).

(** [update_success_rate(script_id, success)] *)
Definition update_success_rate (g : t) (script_id : string) (success : bool)
    : result t :=
  found ← get_script g script_id;
  match found with
  | (None, g1) => Ok g1
  | (Some script, g1) =>
      let usage_count := SalesScript64.usage_count script + 1 in
      success_rate ←
        (if success then
           count ← Binary64.of_int (usage_count - 1);
           one ← Binary64.of_int 1;
           float_div
             (PrimFloat.add
                (PrimFloat.mul (SalesScript64.success_rate script) count) one)
             usage_count
         else
           count ← Binary64.of_int (usage_count - 1);
           float_div
             (PrimFloat.mul (SalesScript64.success_rate script) count)
             usage_count);
      let script := SalesScript64.with_stats script usage_count success_rate in
      Ok (mk (<[script_id := script]> (scripts g1))
             (match table g1 !! script_id with
              | Some row =>
                  <[script_id :=
                      SalesScriptModel64.with_stats row usage_count success_rate]>
                    (table g1)
              | None => table g1
              end))
  end.

(** A run of updates on one script. *)
Fixpoint update_all (g : t) (script_id : string) (outcomes : list bool) : result t :=
  match outcomes with
  | [] => Ok g
  | success :: outcomes' =>
      g' ← update_success_rate g script_id success;
      update_all g' script_id outcomes'
  end.

(** The formula of the rate: [(rate * (n - 1) + 1) / n] after a success,
    [(rate * (n - 1)) / n] after a failure, each operation rounded. *)
Definition next_rate (rate : Binary64.float) (n : Z) (success : bool)
    : Binary64.float :=
  if success then
    PrimFloat.div
      (PrimFloat.add (PrimFloat.mul rate (Binary64.nearest (n - 1)))
         (Binary64.nearest 1))
      (Binary64.nearest n)
  else
    PrimFloat.div (PrimFloat.mul rate (Binary64.nearest (n - 1)))
      (Binary64.nearest n).

(** The mean of the outcomes, rounded to the nearest float: what
    [sum(outcomes) / len(outcomes)] gives. *)
Definition mean (outcomes : list bool) : Binary64.float :=
  Binary64.quotient (ScriptGenerator.successes outcomes)
    (Z.of_nat (length outcomes)).



Definition count (outcomes : list bool) : nat :=
  length (List.filter (fun b : bool => b) outcomes).



End ScriptGenerator64.

(** ** main.py: the search endpoint *)

Module PaginatedResponse.

Record t (A : Type) : Type := mk {
  items : list A;
  total : Z;
  page : Z;
  page_size : Z;
  total_pages : Z
}.
Arguments mk {A}.
Arguments items {A}.
Arguments total {A}.
Arguments page {A}.
Arguments page_size {A}.
Arguments total_pages {A}.

End PaginatedResponse.

Module Main.

(** [l[start:end]] for [0 <= start <= end]. *)
Definition slice {A : Type} (start end_ : Z) (l : list A) : list A :=
  firstn (Z.to_nat (end_ - start)) (skipn (Z.to_nat start) l).

(** [search_content(query, content_type, page, page_size)] after the
    search: [all_results] is what [knowledge_base.search_content]
    returned. *)
Definition search_content {A : Type} (all_results : list A) (page page_size : Z)
    : PaginatedResponse.t A :=
  let page := if page <? 1 then 1 else page in
  let page_size := if (page_size <? 1) || (100 <? page_size) then 10 else page_size in
  let total := Z.of_nat (length all_results) in
  let start := (page - 1) * page_size in
  let end_ := start + page_size in
  let items := slice start end_ all_results in
  let total_pages := (total + page_size - 1) / page_size in
  PaginatedResponse.mk items total page page_size total_pages.

End Main.

(** ** Sample data for the worked cases *)

Module Demo.
Import KnowledgeBase.

Definition item (id : option string) (title : string) (tags : list string)
    (score : option Q) : TrainingContent.t :=
  TrainingContent.mk id title "how to answer" ContentType.BEST_PRACTICE tags
    "trainer" 0 0 score.

(** A new knowledge base over an empty table, the cache enabled. *)
Definition kb0 : t := init [] ∅ (Some (LRUCache.init 200 3600)).

(** Two items added, scored 3 and 4. *)
Definition kb1 : t :=
  (add_content kb0 (item None "Pricing basics" [] (Some 3%Q)) "a1").2.
Definition kb2 : t :=
  (add_content kb1 (item None "Pricing objections" [] (Some 4%Q)) "b2").2.

(** A row that reached the table after the mirror was loaded. *)
Definition row_c3 : TrainingContentModel.t :=
  TrainingContentModel.mk "kb_c3" "Discounts" "when to offer one"
    ContentType.BEST_PRACTICE (Some ["pricing"]) "trainer" 0 (Some 0) None.
Definition kb_unloaded : t := with_table kb0 {["kb_c3" := row_c3]}.

(** An item added under the tag [pricing], and its replacement under the
    tag [closing]. *)
Definition tagged : TrainingContent.t := item (Some "kb_c3") "Discounts" ["pricing"] None.
Definition retagged : TrainingContent.t := item (Some "kb_c3") "Discounts" ["closing"] None.
Definition kb_tagged : t := (add_content kb0 tagged "c3").2.


(** A new script, as [generate_script] leaves it in the mirror. *)
Definition script0 : SalesScript.t :=
  SalesScript.mk (Some "script_s1") "Renewal - SMB" "Hello" "Renewal" (Some "SMB")
    ["Renewal"; "SMB"] "system" 0 0 0 [].
Definition gen0 : ScriptGenerator.t :=
  ScriptGenerator.mk {["script_s1" := script0]} ∅.

(** A text generation service that fails on the friendly variant only. *)
Definition flaky (system_prompt user_message : string) : result string :=
  if Str.str_in "正式版本" user_message then Ok "FORMAL"
  else if Str.str_in "友好版本" user_message then Raise LLMError
  else Ok "CONCISE".

(** An API client that fails on the friendly variant only. *)
Definition flaky_client (messages : list (string * string)) : result string :=
  flaky "" (default "" (snd <$> last messages)).

(** A subject with two stored conversations and nothing in memory. *)
Definition conv_old : Conversation.t :=
  Conversation.mk (Some "conv_1") "u1" None (Some "cold call") [] None 1000000.
Definition conv_new : Conversation.t :=
  Conversation.mk (Some "conv_2") "u1" None (Some "renewal") [] None 2000000.
Definition engine : ConversationEngine.t :=
  ConversationEngine.mk ∅ [conv_old; conv_new] None.
Definition request : ChatRequest.t := ChatRequest.mk "How do I open?" "u1" None.

(** A conversation rated 0, the lowest score the feedback endpoint takes. *)
Definition conv_zero : Conversation.t :=
  Conversation.mk (Some "conv_3") "u1" None None [] (Some 0%Q) 3000000.



End Demo.

(** * Properties *)

(** ** Facts about insertion-ordered dictionaries *)

Module PyDictFacts.
Section Facts.
Context {V : Type}.
Implicit Types (d : PyDict.t V) (k : string) (v : V).

Lemma keys_cons k v d : PyDict.keys ((k, v) :: d) = k :: PyDict.keys d.
Proof. reflexivity. Qed.

Lemma keys_app d d' : PyDict.keys (d ++ d') = PyDict.keys d ++ PyDict.keys d'.
Proof. apply List.map_app. Qed.

Lemma getitem_None d k :
  PyDict.getitem k d = None <-> k ∉ PyDict.keys d.
Proof.
  induction d as [|[k' v'] d IH]; simpl.
  - split; [intros _; apply not_elem_of_nil | reflexivity].
  - rewrite not_elem_of_cons. destruct (String.eqb_spec k k') as [->|Hne].
    + split; [discriminate | intros [H _]; congruence].
    + rewrite IH. tauto.
Qed.

Lemma getitem_Some_keys d k v :
  PyDict.getitem k d = Some v -> k ∈ PyDict.keys d.
Proof.
  intros H. destruct (decide (k ∈ PyDict.keys d)) as [|Hn]; [assumption|].
  apply getitem_None in Hn. congruence.
Qed.

Lemma keys_getitem d k :
  k ∈ PyDict.keys d -> exists v, PyDict.getitem k d = Some v.
Proof.
  intros H. destruct (PyDict.getitem k d) eqn:E; [eauto|].
  apply getitem_None in E. contradiction.
Qed.

Lemma contains_true d k :
  PyDict.contains k d = true <-> k ∈ PyDict.keys d.
Proof.
  unfold PyDict.contains. destruct (PyDict.getitem k d) eqn:E.
  - split; [intros _; eapply getitem_Some_keys; eassumption | reflexivity].
  - apply getitem_None in E. split; [discriminate | tauto].
Qed.

Lemma contains_false d k :
  PyDict.contains k d = false <-> k ∉ PyDict.keys d.
Proof.
  rewrite <- contains_true. destruct (PyDict.contains k d); split; congruence.
Qed.

Lemma elem_of_keys_delitem d k k' :
  k' ∈ PyDict.keys (PyDict.delitem k d) -> k' ∈ PyDict.keys d.
Proof.
  induction d as [|[k0 v0] d IH]; simpl; [trivial|].
  destruct (String.eqb k k0); simpl; rewrite !elem_of_cons; tauto.
Qed.

Lemma elem_of_keys_delitem_ne d k k' :
  k' <> k -> k' ∈ PyDict.keys d -> k' ∈ PyDict.keys (PyDict.delitem k d).
Proof.
  intros Hne. induction d as [|[k0 v0] d IH]; simpl; [trivial|].
  destruct (String.eqb_spec k k0) as [->|Hk]; simpl; rewrite !elem_of_cons;
    intuition congruence.
Qed.

Lemma NoDup_delitem d k :
  NoDup (PyDict.keys d) -> NoDup (PyDict.keys (PyDict.delitem k d)).
Proof.
  induction d as [|[k0 v0] d IH]; simpl; [trivial|].
  intros H. apply NoDup_cons in H as [Hn Hd].
  destruct (String.eqb k k0); [assumption|]. simpl.
  apply NoDup_cons. split; [|auto].
  intros Hin. apply Hn. eapply elem_of_keys_delitem; eassumption.
Qed.

Lemma not_elem_of_delitem d k :
  NoDup (PyDict.keys d) -> k ∉ PyDict.keys (PyDict.delitem k d).
Proof.
  induction d as [|[k0 v0] d IH]; simpl; [intros _; apply not_elem_of_nil|].
  intros H. apply NoDup_cons in H as [Hn Hd].
  destruct (String.eqb_spec k k0) as [->|Hk]; [assumption|].
  simpl. apply not_elem_of_cons. split; [assumption | now apply IH].
Qed.

Lemma getitem_delitem_ne d k k' :
  k' <> k -> PyDict.getitem k' (PyDict.delitem k d) = PyDict.getitem k' d.
Proof.
  intros Hne. induction d as [|[k0 v0] d IH]; simpl; [reflexivity|].
  destruct (String.eqb_spec k k0) as [->|Hk]; simpl.
  - destruct (String.eqb_spec k' k0); [congruence | reflexivity].
  - destruct (String.eqb k' k0); [reflexivity | apply IH].
Qed.

Lemma length_delitem d k :
  k ∈ PyDict.keys d -> S (length (PyDict.delitem k d)) = length d.
Proof.
  induction d as [|[k0 v0] d IH]; simpl; [intros H; now apply elem_of_nil in H|].
  destruct (String.eqb_spec k k0) as [->|Hk]; [reflexivity|].
  rewrite elem_of_cons. intros [Heq|Hin]; [congruence|]. simpl. now rewrite IH.
Qed.

Lemma setitem_absent d k v :
  k ∉ PyDict.keys d -> PyDict.setitem k v d = d ++ [(k, v)].
Proof.
  induction d as [|[k0 v0] d IH]; simpl; [reflexivity|].
  rewrite not_elem_of_cons. intros [H1 H2].
  destruct (String.eqb_spec k k0) as [->|Hk]; [congruence|].
  now rewrite IH.
Qed.

Lemma setitem_last d k v v0 :
  k ∉ PyDict.keys d ->
  PyDict.setitem k v (d ++ [(k, v0)]) = d ++ [(k, v)].
Proof.
  induction d as [|[k1 v1] d IH]; simpl.
  - now rewrite String.eqb_refl.
  - rewrite not_elem_of_cons. intros [H1 H2].
    destruct (String.eqb_spec k k1) as [->|Hk]; [congruence|].
    now rewrite IH.
Qed.

Lemma getitem_app_last d k v :
  k ∉ PyDict.keys d -> PyDict.getitem k (d ++ [(k, v)]) = Some v.
Proof.
  induction d as [|[k1 v1] d IH]; simpl.
  - now rewrite String.eqb_refl.
  - rewrite not_elem_of_cons. intros [H1 H2].
    destruct (String.eqb_spec k k1) as [->|Hk]; [congruence|].
    now apply IH.
Qed.

Lemma getitem_app_ne d k k' v :
  k' <> k -> PyDict.getitem k' (d ++ [(k, v)]) = PyDict.getitem k' d.
Proof.
  intros Hne. induction d as [|[k1 v1] d IH]; simpl.
  - destruct (String.eqb_spec k' k); [congruence | reflexivity].
  - destruct (String.eqb k' k1); [reflexivity | apply IH].
Qed.

Lemma getitem_setitem_eq d k v : PyDict.getitem k (PyDict.setitem k v d) = Some v.
Proof.
  induction d as [|[k1 v1] d IH]; simpl.
  - now rewrite String.eqb_refl.
  - destruct (String.eqb_spec k k1) as [->|Hk]; simpl.
    + now rewrite String.eqb_refl.
    + destruct (String.eqb_spec k k1); [congruence | apply IH].
Qed.

Lemma getitem_setitem_ne d k k' v :
  k' <> k -> PyDict.getitem k' (PyDict.setitem k v d) = PyDict.getitem k' d.
Proof.
  intros Hne. induction d as [|[k1 v1] d IH]; simpl.
  - destruct (String.eqb_spec k' k); [congruence | reflexivity].
  - destruct (String.eqb_spec k k1) as [->|Hk]; simpl.
    + destruct (String.eqb_spec k' k1); [congruence | reflexivity].
    + destruct (String.eqb k' k1); [reflexivity | apply IH].
Qed.

End Facts.
End PyDictFacts.

(** ** The cache: well-formedness and recency order *)

Module LRUCacheFacts.
Import LRUCache.
Section Facts.
Context {V : Type}.
Implicit Types (c : LRUCache.t V) (k key : string) (stamp : gmap string nat).

Lemma wf_init m t : wf (init m t : LRUCache.t V).
Proof.
  split; simpl; [constructor|].
  intros k. rewrite lookup_empty. split.
  - intros H. now apply elem_of_nil in H.
  - intros [x Hx]. discriminate.
Qed.

Lemma wf_clear c : wf (clear c).
Proof. apply (wf_init (max_size c) (ttl c)). Qed.

Lemma cache_delete c key :
  cache (delete c key) = PyDict.delitem key (cache c) \/
  ((key ∉ PyDict.keys (cache c)) /\ cache (delete c key) = cache c).
Proof.
  unfold delete; simpl. destruct (PyDict.contains key (cache c)) eqn:E; [now left|].
  right. split; [now apply PyDictFacts.contains_false | reflexivity].
Qed.

Lemma cache_delete_present c key :
  key ∈ PyDict.keys (cache c) ->
  cache (delete c key) = PyDict.delitem key (cache c).
Proof.
  intros H. unfold delete; simpl.
  apply PyDictFacts.contains_true in H. now rewrite H.
Qed.

Lemma wf_delete c key : wf c -> wf (delete c key).
Proof.
  intros [Hnd Hdom]. split.
  - destruct (cache_delete c key) as [->|[_ ->]]; [|assumption].
    now apply PyDictFacts.NoDup_delitem.
  - intros k. simpl timestamps.
    destruct (decide (k = key)) as [->|Hne].
    + rewrite lookup_delete_eq. split; [|intros [x Hx]; discriminate].
      intros Hin. exfalso.
      destruct (cache_delete c key) as [E|[Hn E]]; rewrite E in Hin.
      * now apply PyDictFacts.not_elem_of_delitem in Hin.
      * contradiction.
    + rewrite lookup_delete_ne by congruence. rewrite <- Hdom.
      destruct (cache_delete c key) as [->|[_ ->]]; [|reflexivity].
      split; [apply PyDictFacts.elem_of_keys_delitem
             | now apply PyDictFacts.elem_of_keys_delitem_ne].
Qed.

(** What [move_to_end] does to a present key. *)
Lemma move_to_end_present (d : PyDict.t V) key v :
  PyDict.getitem key d = Some v ->
  PyDict.move_to_end key d = Ok (PyDict.delitem key d ++ [(key, v)]).
Proof. intros H. unfold PyDict.move_to_end. now rewrite H. Qed.

Lemma NoDup_moved (d : PyDict.t V) key v :
  NoDup (PyDict.keys d) ->
  NoDup (PyDict.keys (PyDict.delitem key d ++ [(key, v)])).
Proof.
  intros Hnd. rewrite PyDictFacts.keys_app. simpl.
  apply NoDup_app. split; [now apply PyDictFacts.NoDup_delitem|].
  split; [|apply NoDup_singleton].
  intros x Hx Hx'. apply list_elem_of_singleton in Hx'. subst x.
  now apply PyDictFacts.not_elem_of_delitem in Hx.
Qed.

Lemma elem_of_moved (d : PyDict.t V) key v k :
  key ∈ PyDict.keys d ->
  k ∈ PyDict.keys (PyDict.delitem key d ++ [(key, v)]) <-> k ∈ PyDict.keys d.
Proof.
  intros Hkey. rewrite PyDictFacts.keys_app, elem_of_app. simpl.
  rewrite list_elem_of_singleton. split.
  - intros [H| ->]; [eapply PyDictFacts.elem_of_keys_delitem; eassumption | assumption].
  - intros H. destruct (decide (k = key)) as [->|Hne]; [now right|left].
    now apply PyDictFacts.elem_of_keys_delitem_ne.
Qed.

(** The three outcomes of [get]. *)
Lemma get_absent c key now :
  key ∉ PyDict.keys (cache c) -> get c key now = Ok (None, c).
Proof.
  intros H. unfold get. apply PyDictFacts.contains_false in H. now rewrite H.
Qed.

Lemma get_expired c key now :
  key ∈ PyDict.keys (cache c) -> expired c key now = true ->
  get c key now = Ok (None, delete c key).
Proof.
  intros H E. unfold get. apply PyDictFacts.contains_true in H.
  now rewrite H, E.
Qed.

Lemma get_fresh c key now v :
  NoDup (PyDict.keys (cache c)) ->
  PyDict.getitem key (cache c) = Some v -> expired c key now = false ->
  get c key now =
    Ok (Some v, mk (max_size c) (ttl c)
                   (PyDict.delitem key (cache c) ++ [(key, v)]) (timestamps c)).
Proof.
  intros Hnd Hv E. unfold get.
  pose proof (PyDictFacts.getitem_Some_keys _ _ _ Hv) as Hin.
  apply PyDictFacts.contains_true in Hin. rewrite Hin, E. simpl.
  rewrite (move_to_end_present _ _ _ Hv). simpl.
  rewrite PyDictFacts.getitem_app_last; [reflexivity|].
  now apply PyDictFacts.not_elem_of_delitem.
Qed.

Lemma get_cases c key now :
  NoDup (PyDict.keys (cache c)) ->
  ((key ∉ PyDict.keys (cache c)) /\ get c key now = Ok (None, c)) \/
  ((key ∈ PyDict.keys (cache c)) /\ expired c key now = true /\
   get c key now = Ok (None, delete c key)) \/
  (exists v, PyDict.getitem key (cache c) = Some v /\ expired c key now = false /\
     get c key now =
       Ok (Some v, mk (max_size c) (ttl c)
                      (PyDict.delitem key (cache c) ++ [(key, v)]) (timestamps c))).
Proof.
  intros Hnd. destruct (PyDict.getitem key (cache c)) as [v|] eqn:Hv.
  - pose proof (PyDictFacts.getitem_Some_keys _ _ _ Hv) as Hin.
    destruct (expired c key now) eqn:E.
    + right; left. auto using get_expired.
    + right; right. exists v. auto using get_fresh.
  - apply PyDictFacts.getitem_None in Hv. left. auto using get_absent.
Qed.

Lemma wf_get c key now r c' :
  wf c -> get c key now = Ok (r, c') -> wf c'.
Proof.
  intros Hwf Hget. pose proof Hwf as [Hnd Hdom].
  destruct (get_cases c key now Hnd) as [[_ E]|[(_ & _ & E)|(v & Hv & _ & E)]];
    rewrite E in Hget; inversion Hget; subst; clear Hget.
  - assumption.
  - now apply wf_delete.
  - split; simpl.
    + now apply NoDup_moved.
    + intros k. rewrite elem_of_moved; [apply Hdom|].
      eapply PyDictFacts.getitem_Some_keys; eassumption.
Qed.

(** The two outcomes of [set] that do not raise. *)
Lemma set_present c key value now v :
  NoDup (PyDict.keys (cache c)) ->
  PyDict.getitem key (cache c) = Some v ->
  set c key value now =
    Ok (mk (max_size c) (ttl c)
           (PyDict.delitem key (cache c) ++ [(key, value)])
           (<[key := now]> (timestamps c))).
Proof.
  intros Hnd Hv. unfold set.
  pose proof (PyDictFacts.getitem_Some_keys _ _ _ Hv) as Hin.
  apply PyDictFacts.contains_true in Hin. rewrite Hin.
  rewrite (move_to_end_present _ _ _ Hv). simpl.
  rewrite PyDictFacts.setitem_last; [reflexivity|].
  now apply PyDictFacts.not_elem_of_delitem.
Qed.

Lemma set_room c key value now :
  key ∉ PyDict.keys (cache c) ->
  (Z.of_nat (length (cache c)) < max_size c) ->
  set c key value now =
    Ok (mk (max_size c) (ttl c) (cache c ++ [(key, value)])
           (<[key := now]> (timestamps c))).
Proof.
  intros Hn Hlt. unfold set.
  apply PyDictFacts.contains_false in Hn as Hc. rewrite Hc.
  destruct (Z.leb_spec (max_size c) (Z.of_nat (length (cache c)))); [lia|].
  simpl. now rewrite PyDictFacts.setitem_absent.
Qed.

Lemma set_full c key value now lru v0 rest :
  NoDup (PyDict.keys (cache c)) ->
  key ∉ PyDict.keys (cache c) ->
  (max_size c <= Z.of_nat (length (cache c))) ->
  cache c = (lru, v0) :: rest ->
  set c key value now =
    Ok (mk (max_size c) (ttl c) (rest ++ [(key, value)])
           (<[key := now]> (base.delete lru (timestamps c)))).
Proof.
  intros Hnd Hn Hle Hc. unfold set.
  apply PyDictFacts.contains_false in Hn as Hcf. rewrite Hcf.
  destruct (Z.leb_spec (max_size c) (Z.of_nat (length (cache c)))); [|lia].
  rewrite Hc at 1. simpl.
  unfold delete. rewrite Hc. unfold PyDict.contains. simpl.
  rewrite String.eqb_refl. simpl.
  rewrite PyDictFacts.setitem_absent; [reflexivity|].
  rewrite Hc in Hn. simpl in Hn. apply not_elem_of_cons in Hn. tauto.
Qed.

Lemma set_empty_full c key value now :
  cache c = [] -> max_size c <= 0 -> set c key value now = Raise StopIteration.
Proof.
  intros Hc Hm. unfold set. rewrite Hc. simpl.
  destruct (Z.leb_spec (max_size c) (Z.of_nat 0)); [reflexivity | lia].
Qed.

Lemma wf_set c key value now c' :
  wf c -> set c key value now = Ok c' -> wf c'.
Proof.
  intros [Hnd Hdom] Hset.
  destruct (PyDict.getitem key (cache c)) as [v|] eqn:Hv.
  - rewrite (set_present _ _ _ _ _ Hnd Hv) in Hset. inversion Hset; subst; clear Hset.
    pose proof (PyDictFacts.getitem_Some_keys _ _ _ Hv) as Hin.
    split; simpl.
    + now apply NoDup_moved.
    + intros k. rewrite elem_of_moved by assumption.
      destruct (decide (k = key)) as [->|Hne].
      * rewrite lookup_insert_eq. split; [eauto | intros _; assumption].
      * rewrite lookup_insert_ne by congruence. apply Hdom.
  - apply PyDictFacts.getitem_None in Hv.
    destruct (Z.lt_ge_cases (Z.of_nat (length (cache c))) (max_size c)) as [Hlt|Hge].
    + rewrite (set_room _ _ _ _ Hv Hlt) in Hset. inversion Hset; subst; clear Hset.
      split; simpl.
      * rewrite PyDictFacts.keys_app. simpl. apply NoDup_app.
        split; [assumption|]. split; [|apply NoDup_singleton].
        intros x Hx Hx'. apply list_elem_of_singleton in Hx'. now subst.
      * intros k. rewrite PyDictFacts.keys_app, elem_of_app. simpl.
        rewrite list_elem_of_singleton.
        destruct (decide (k = key)) as [->|Hne].
        -- rewrite lookup_insert_eq. split; [eauto | now right].
        -- rewrite lookup_insert_ne by congruence. rewrite <- Hdom. tauto.
    + destruct (cache c) as [|[lru v0] rest] eqn:Hc.
      * rewrite set_empty_full in Hset; [discriminate | assumption | simpl in Hge; lia].
      * rewrite (set_full c key value now lru v0 rest) in Hset;
          [|rewrite Hc; assumption..|assumption].
        inversion Hset; subst; clear Hset.
        simpl in Hnd. apply NoDup_cons in Hnd as [Hlru Hnd].
        simpl in Hv. apply not_elem_of_cons in Hv as [Hkl Hv].
        split; simpl.
        -- rewrite PyDictFacts.keys_app. simpl. apply NoDup_app.
           split; [assumption|]. split; [|apply NoDup_singleton].
           intros x Hx Hx'. apply list_elem_of_singleton in Hx'. now subst.
        -- intros k. rewrite PyDictFacts.keys_app, elem_of_app. simpl.
           rewrite list_elem_of_singleton.
           destruct (decide (k = key)) as [->|Hne].
           ++ rewrite lookup_insert_eq. split; [eauto | now right].
           ++ rewrite lookup_insert_ne by congruence.
              destruct (decide (k = lru)) as [->|Hne'].
              ** rewrite lookup_delete_eq. split; [|intros [x Hx]; discriminate].
                 intros [H|H]; [contradiction | congruence].
              ** rewrite lookup_delete_ne by congruence. rewrite <- Hdom.
                 simpl. rewrite elem_of_cons. split; [tauto|].
                 intros [H|H]; [congruence | now left].
Qed.

End Facts.
End LRUCacheFacts.

(** ** Runs of cache operations keep the keys in order of last touch *)

Module CacheRunFacts.
Import LRUCache LRUCacheFacts CacheOps.
Section Facts.
Context {V : Type}.
Implicit Types (c : LRUCache.t V) (k key : string) (stamp : gmap string nat).

Lemma stamped_nil stamp n : stamped [] stamp n.
Proof.
  split; [constructor|]. intros k H. now apply elem_of_nil in H.
Qed.

Lemma stamped_later l stamp n : stamped l stamp n -> stamped l stamp (S n).
Proof.
  intros [Hs Hb]. split; [assumption|].
  intros k Hk. destruct (Hb k Hk) as (m & Hm & Hlt). exists m. split; [assumption | lia].
Qed.

Lemma stamped_tail x l stamp n : stamped (x :: l) stamp n -> stamped l stamp n.
Proof.
  intros [Hs Hb]. split.
  - now inversion Hs.
  - intros k Hk. apply Hb. now right.
Qed.

Lemma stamped_delitem (d : PyDict.t V) key stamp n :
  stamped (PyDict.keys d) stamp n ->
  stamped (PyDict.keys (PyDict.delitem key d)) stamp n.
Proof.
  induction d as [|[k0 v0] d IH]; simpl; [trivial|].
  intros H. destruct (String.eqb key k0).
  - eapply stamped_tail; eassumption.
  - pose proof (IH (stamped_tail _ _ _ _ H)) as [Hs' Hb'].
    destruct H as [Hs Hb]. split; simpl.
    + inversion Hs as [|? ? Hs0 Hall]; subst. constructor; [assumption|].
      rewrite List.Forall_forall in *. intros x Hx. apply Hall.
      apply list_elem_of_In. apply list_elem_of_In in Hx.
      eapply PyDictFacts.elem_of_keys_delitem; eassumption.
    + intros k Hk. apply elem_of_cons in Hk as [->|Hk].
      * apply Hb. now left.
      * now apply Hb'.
Qed.

Lemma older_insert_ne stamp k n k1 k2 :
  k <> k1 -> k <> k2 -> older stamp k1 k2 -> older (<[k := n]> stamp) k1 k2.
Proof.
  intros H1 H2 (n1 & n2 & E1 & E2 & Hlt). exists n1, n2.
  rewrite !lookup_insert_ne by assumption. auto.
Qed.

(** Touching a key that is not listed puts it last. *)
Lemma stamped_touch l key stamp n :
  key ∉ l -> stamped l stamp n -> stamped (l ++ [key]) (<[key := n]> stamp) (S n).
Proof.
  intros Hn [Hs Hb]. split.
  - induction l as [|x l IH]; simpl.
    + repeat constructor.
    + apply not_elem_of_cons in Hn as [Hx Hn].
      inversion Hs as [|? ? Hs0 Hall]; subst. constructor.
      * apply IH; [assumption..|]. intros k Hk. apply Hb. now right.
      * apply List.Forall_app. split.
        -- rewrite List.Forall_forall in *. intros y Hy.
           apply older_insert_ne; [congruence| |now apply Hall].
           intros ->. apply Hn. now apply list_elem_of_In.
        -- constructor; [|constructor].
           destruct (Hb x) as (m & Hm & Hlt); [now left|].
           exists m, n. rewrite lookup_insert_eq, lookup_insert_ne by congruence. auto.
  - intros k Hk. apply elem_of_app in Hk as [Hk|Hk].
    + destruct (Hb k Hk) as (m & Hm & Hlt). exists m.
      rewrite lookup_insert_ne; [split; [assumption | lia]|].
      intros ->. contradiction.
    + apply list_elem_of_singleton in Hk. subst k. exists n.
      rewrite lookup_insert_eq. split; [reflexivity | lia].
Qed.

(** The first key of the list is older than every other one. *)
Lemma stamped_head_oldest x l stamp n k :
  stamped (x :: l) stamp n -> k ∈ l -> older stamp x k.
Proof.
  intros [Hs _] Hk. inversion Hs as [|? ? _ Hall]; subst.
  rewrite List.Forall_forall in Hall. apply Hall. now apply list_elem_of_In.
Qed.

Lemma inv_init m t : inv (init m t : LRUCache.t V) ∅ 0.
Proof. split; [apply wf_init | apply stamped_nil]. Qed.

Lemma inv_delete c key stamp n :
  inv c stamp n -> inv (delete c key) stamp (S n).
Proof.
  intros [Hwf Hrec]. split; [now apply wf_delete|].
  apply stamped_later.
  destruct (cache_delete c key) as [->|[_ ->]]; [|assumption].
  now apply stamped_delitem.
Qed.

Lemma inv_step c o now c' stamp n :
  inv c stamp n -> step c o now = Ok c' ->
  inv c'
    (match touched c o now with Some k => <[k := n]> stamp | None => stamp end)
    (S n).
Proof.
  intros [Hwf Hrec] Hstep. pose proof Hwf as [Hnd Hdom].
  destruct o as [key|key value|key|]; simpl in *.
  - (* get *)
    destruct (get_cases c key now Hnd) as [[_ E]|[(_ & _ & E)|(v & Hv & _ & E)]];
      rewrite E in *; simpl in Hstep; inversion Hstep; subst; clear Hstep.
    + split; [assumption | now apply stamped_later].
    + now apply inv_delete.
    + split; [eapply wf_get; eassumption|].
      simpl. rewrite PyDictFacts.keys_app. simpl.
      apply stamped_touch; [now apply PyDictFacts.not_elem_of_delitem|].
      now apply stamped_delitem.
  - (* set *)
    split; [eapply wf_set; eassumption|].
    destruct (PyDict.getitem key (cache c)) as [v|] eqn:Hv.
    + rewrite (set_present _ _ _ _ _ Hnd Hv) in Hstep.
      inversion Hstep; subst; clear Hstep. simpl.
      rewrite PyDictFacts.keys_app. simpl.
      apply stamped_touch; [now apply PyDictFacts.not_elem_of_delitem|].
      now apply stamped_delitem.
    + apply PyDictFacts.getitem_None in Hv.
      destruct (Z.lt_ge_cases (Z.of_nat (length (cache c))) (max_size c)) as [Hlt|Hge].
      * rewrite (set_room _ _ _ _ Hv Hlt) in Hstep.
        inversion Hstep; subst; clear Hstep. simpl.
        rewrite PyDictFacts.keys_app. simpl. now apply stamped_touch.
      * destruct (cache c) as [|[lru v0] rest] eqn:Hc.
        -- rewrite set_empty_full in Hstep;
             [discriminate | assumption | simpl in Hge; lia].
        -- rewrite (set_full c key value now lru v0 rest) in Hstep;
             [|rewrite Hc; assumption..|assumption].
           inversion Hstep; subst; clear Hstep. simpl.
           rewrite PyDictFacts.keys_app. simpl.
           simpl in Hv. apply not_elem_of_cons in Hv as [_ Hv].
           apply stamped_touch; [assumption|].
           rewrite ?Hc in Hrec.
           eapply stamped_tail; exact Hrec.
  - (* delete *)
    inversion Hstep; subst. now apply inv_delete.
  - (* clear *)
    inversion Hstep; subst. split; [apply wf_clear | apply stamped_nil].
Qed.

Lemma inv_run ops : forall c stamp n c' stamp',
  inv c stamp n -> run c stamp n ops = Ok (c', stamp') ->
  inv c' stamp' (n + length ops).
Proof.
  induction ops as [|[o now] ops IH]; intros c stamp n c' stamp' Hinv Hrun; simpl in *.
  - inversion Hrun; subst. now rewrite Nat.add_0_r.
  - destruct (step c o now) as [c1|e] eqn:Hstep; simpl in Hrun; [|discriminate].
    replace (n + S (length ops))%nat with (S n + length ops)%nat by lia.
    eapply IH; [|exact Hrun]. eapply inv_step; eassumption.
Qed.

(** Every cache a run reaches from a new cache is well formed and lists
    its keys by recency. *)
Lemma reachable_inv m t ops c stamp :
  run (init m t) ∅ 0 ops = Ok (c, stamp) -> inv c stamp (length ops).
Proof. intros H. apply (inv_run ops _ _ _ _ _ (inv_init m t) H). Qed.

End Facts.
End CacheRunFacts.

(** ** cache.py: the claims *)

Module CacheClaims.
Import LRUCache LRUCacheFacts CacheOps CacheRunFacts.

(** C3. In a cache reached by any run of operations from a new cache, with
    its timestamps in microseconds and [ttl] in seconds:
    - [get] of an absent key is a miss and leaves the cache as it is;
    - [get] of a key whose last [set] is more than [ttl] seconds before
      [now] is a miss that removes the entry from both dictionaries (the size
      drops by one, no other entry changes);
    - otherwise [get] returns the stored value and moves the key to the
      most-recently-used end, the other keys keeping their order;
    - so a hit is never older than [ttl]. *)
Theorem get_miss_expire_or_hit {V : Type} (m t : Z) (ops : list (op V * Z))
    (c : LRUCache.t V) (stamp : gmap string nat) (key : string) (now : Z) :
  run (init m t) ∅ 0 ops = Ok (c, stamp) ->
  (PyDict.getitem key (cache c) = None -> get c key now = Ok (None, c)) /\
  (forall v, PyDict.getitem key (cache c) = Some v ->
     exists ts, timestamps c !! key = Some ts /\
       (ttl c * 1000000 < now - ts ->
          exists c', get c key now = Ok (None, c') /\
            PyDict.getitem key (cache c') = None /\
            timestamps c' !! key = None /\
            size c' = size c - 1 /\
            (forall k, k <> key ->
               PyDict.getitem k (cache c') = PyDict.getitem k (cache c) /\
               timestamps c' !! k = timestamps c !! k)) /\
       (now - ts <= ttl c * 1000000 ->
          exists c', get c key now = Ok (Some v, c') /\
            cache c' = PyDict.delitem key (cache c) ++ [(key, v)] /\
            timestamps c' = timestamps c /\
            size c' = size c)) /\
  (forall v c', get c key now = Ok (Some v, c') ->
     exists ts, timestamps c !! key = Some ts /\ now - ts <= ttl c * 1000000).
Proof.
  intros Hrun. destruct (reachable_inv _ _ _ _ _ Hrun) as [[Hnd Hdom] _].
  assert (Hts : forall v, PyDict.getitem key (cache c) = Some v ->
                 exists ts, timestamps c !! key = Some ts).
  { intros v Hv. apply PyDictFacts.getitem_Some_keys in Hv.
    apply Hdom in Hv as [ts Hts]. eauto. }
  split; [|split].
  - intros Hnone. apply get_absent. now apply PyDictFacts.getitem_None.
  - intros v Hv. destruct (Hts v Hv) as [ts Ets]. exists ts. split; [assumption|].
    pose proof (PyDictFacts.getitem_Some_keys _ _ _ Hv) as Hin. split.
    + intros Hold. exists (delete c key).
      assert (E : expired c key now = true).
      { unfold expired, ttl_delta. rewrite Ets. now apply Z.ltb_lt. }
      split; [now apply get_expired|].
      rewrite (cache_delete_present _ _ Hin). split; [|split; [|split]].
      * apply PyDictFacts.getitem_None. now apply PyDictFacts.not_elem_of_delitem.
      * simpl. apply lookup_delete_eq.
      * unfold size. rewrite (cache_delete_present _ _ Hin).
        pose proof (PyDictFacts.length_delitem _ _ Hin). lia.
      * intros k Hne. split.
        -- now apply PyDictFacts.getitem_delitem_ne.
        -- simpl. apply lookup_delete_ne. congruence.
    + intros Hyoung. eexists. split.
      * apply get_fresh; [assumption..|].
        unfold expired, ttl_delta. rewrite Ets. apply Z.ltb_ge. lia.
      * simpl. split; [reflexivity|]. split; [reflexivity|].
        unfold size. simpl. rewrite length_app. simpl.
        pose proof (PyDictFacts.length_delitem _ _ Hin). lia.
  - intros v c' Hget.
    destruct (get_cases c key now Hnd) as [[_ E]|[(_ & _ & E)|(v' & Hv & Hexp & E)]];
      rewrite E in Hget; try discriminate.
    destruct (Hts v' Hv) as [ts Ets]. exists ts. split; [assumption|].
    unfold expired, ttl_delta in Hexp. rewrite Ets in Hexp.
    apply Z.ltb_ge in Hexp. lia.
Qed.

(** C3, at work: [set(a, 1)] at time 0 on a cache with a TTL of one hour;
    a [get(a)] one microsecond past the hour is a miss that empties the
    cache. *)
Lemma get_miss_expire_or_hit_witness :
  exists (c c' : LRUCache.t Z) stamp,
    run (init 2 3600) ∅ 0 [(OpSet "a" 1, 0)] = Ok (c, stamp) /\
    get c "a" 3600000001 = Ok (None, c') /\ size c' = 0.
Proof.
  eexists _, _, _. split; [reflexivity|].
  match goal with
  | |- get ?c _ _ = _ /\ _ =>
      destruct (get_miss_expire_or_hit 2 3600 [(OpSet "a" 1, 0)] c _ "a" 3600000001
                  eq_refl) as (_ & H & _)
  end.
  destruct (H 1 eq_refl) as (ts & Hts & Hold & _).
  vm_compute in Hts. inversion Hts; subst ts.
  destruct (Hold ltac:(vm_compute; reflexivity)) as (c' & Hget & _ & _ & Hsize & _).
  vm_compute in Hget. vm_compute. split; reflexivity.
Defined.

(** C2. In a cache of capacity at least one that a run of operations has
    filled to its capacity, [set] of an absent key drops the first entry of
    the ordered dictionary, which is the key whose last touch (a [set], or a
    [get] that hit) is older than that of every other cached key; the other
    entries keep their order and the new key goes last, as most recently
    used. With capacity 2, [set(a); set(b); get(a); set(c)], with [a] still
    within its TTL when it is read, leaves exactly [a] and [c]. *)
Theorem set_evicts_least_recently_used {V : Type} :
  (forall (m t : Z) (ops : list (op V * Z)) (c : LRUCache.t V)
          (stamp : gmap string nat) (key : string) (value : V) (now : Z),
     run (init m t) ∅ 0 ops = Ok (c, stamp) ->
     0 < max_size c ->
     size c = max_size c ->
     PyDict.getitem key (cache c) = None ->
     exists lru v0 rest c',
       cache c = (lru, v0) :: rest /\
       (forall k, k ∈ PyDict.keys rest -> older stamp lru k) /\
       set c key value now = Ok c' /\
       cache c' = rest ++ [(key, value)] /\
       timestamps c' = <[key := now]> (base.delete lru (timestamps c)) /\
       size c' = max_size c') /\
  (forall (a b c : string) (va vb vc : V) (ttl t1 t2 t3 t4 : Z),
     a <> b -> a <> c -> b <> c ->
     t3 - t1 <= ttl * 1000000 ->
     exists final stamp,
       run (init 2 ttl) ∅ 0
         [(OpSet a va, t1); (OpSet b vb, t2); (OpGet a, t3); (OpSet c vc, t4)]
       = Ok (final, stamp) /\
       cache final = [(a, va); (c, vc)]).
Proof.
  split.
  - intros m t ops c stamp key value now Hrun Hpos Hsize Hnone.
    destruct (reachable_inv _ _ _ _ _ Hrun) as [[Hnd Hdom] Hrec].
    apply PyDictFacts.getitem_None in Hnone.
    unfold size in Hsize.
    destruct (cache c) as [|[lru v0] rest] eqn:Hc; [simpl in Hsize; lia|].
    exists lru, v0, rest. eexists. split; [reflexivity|]. split.
    + intros k Hk. rewrite ?Hc in Hrec.
      eapply stamped_head_oldest; eassumption.
    + split.
      * apply (set_full c key value now lru v0 rest);
          rewrite ?Hc; first [assumption | reflexivity | lia].
      * simpl. split; [reflexivity|]. split; [reflexivity|].
        unfold size. simpl. rewrite length_app. simpl in *. lia.
  - intros a b c va vb vc ttl t1 t2 t3 t4 Hab Hac Hbc Hfresh.
    set (c1 := mk 2 ttl [(a, va)] (<[a := t1]> ∅)).
    set (c2 := mk 2 ttl [(a, va); (b, vb)] (<[b := t2]> (<[a := t1]> ∅))).
    set (c3 := mk 2 ttl [(b, vb); (a, va)] (<[b := t2]> (<[a := t1]> ∅))).
    assert (E1 : set (init 2 ttl) a va t1 = Ok c1).
    { apply (set_room (init 2 ttl)); simpl; [apply not_elem_of_nil | lia]. }
    assert (E2 : set c1 b vb t2 = Ok c2).
    { apply (set_room c1); simpl; [|lia].
      apply not_elem_of_cons. split; [congruence | apply not_elem_of_nil]. }
    assert (Hnd2 : NoDup (PyDict.keys (cache c2))).
    { simpl. apply NoDup_cons. split; [|apply NoDup_singleton].
      intros H. apply list_elem_of_singleton in H. congruence. }
    assert (E3 : get c2 a t3 = Ok (Some va, c3)).
    { rewrite (get_fresh c2 a t3 va Hnd2).
      - unfold c3. simpl. rewrite String.eqb_refl. reflexivity.
      - simpl. now rewrite String.eqb_refl.
      - unfold expired, ttl_delta. simpl.
        rewrite lookup_insert_ne by congruence. rewrite lookup_insert_eq.
        apply Z.ltb_ge. lia. }
    assert (E4 : set c3 c vc t4 =
                 Ok (mk 2 ttl [(a, va); (c, vc)]
                       (<[c := t4]> (base.delete b (timestamps c3))))).
    { apply (set_full c3 c vc t4 b vb [(a, va)]); simpl; [| |lia|reflexivity].
      - apply NoDup_cons. split; [|apply NoDup_singleton].
        intros H. apply list_elem_of_singleton in H. congruence.
      - rewrite !not_elem_of_cons. repeat split; try congruence.
        apply not_elem_of_nil. }
    eexists _, _. split.
    + cbn [run step]. rewrite E1. cbn [mbind result_bind].
      rewrite E2. cbn [mbind result_bind].
      rewrite E3. cbn [mbind result_bind snd].
      rewrite E4. cbn [mbind result_bind]. reflexivity.
    + reflexivity.
Qed.

(** C2, at work: the run [set(a,1); set(b,2); get(a); set(c,3)] fills a
    cache of capacity 2; a further [set(d,4)] evicts [a] and keeps [c]. *)
Lemma set_evicts_least_recently_used_witness :
  exists (c c' : LRUCache.t Z) stamp,
    run (init 2 3600) ∅ 0
      [(OpSet "a" 1, 0); (OpSet "b" 2, 1); (OpGet "a", 2); (OpSet "c" 3, 3)]
    = Ok (c, stamp) /\
    PyDict.keys (cache c) = ["a"; "c"] /\
    set c "d" 4 4 = Ok c' /\
    PyDict.keys (cache c') = ["c"; "d"].
Proof.
  destruct (proj2 (@set_evicts_least_recently_used Z) "a" "b" "c" 1 2 3 3600 0 1 2 3)
    as (c & stamp & Hrun & Hc); [discriminate..|lia|].
  destruct (proj1 (@set_evicts_least_recently_used Z) 2 3600 _ c stamp "d" 4 4 Hrun)
    as (lru & v0 & rest & c' & Hcache & _ & Hset & Hc' & _).
  - vm_compute in Hrun. inversion Hrun; subst. simpl. lia.
  - vm_compute in Hrun. inversion Hrun; subst. reflexivity.
  - rewrite Hc. reflexivity.
  - exists c, c', stamp. split; [exact Hrun|].
    rewrite Hc in Hcache. inversion Hcache; subst.
    rewrite Hc, Hc'. repeat split; try reflexivity. exact Hset.
Defined.

End CacheClaims.

(** ** Strings: substrings and lower case *)

Module StrFacts.
Import Str.

Lemma lower_app (a b : string) : lower_ascii (a +:+ b) = lower_ascii a +:+ lower_ascii b.
Proof. induction a as [|x a IH]; simpl; [reflexivity | now rewrite IH]. Qed.

Lemma prefix_app (q b : string) : String.prefix q (q +:+ b) = true.
Proof.
  induction q as [|x q IH]; simpl; [now destruct b|].
  destruct (ascii_dec x x); [assumption | congruence].
Qed.

Lemma prefix_inv (q s : string) :
  String.prefix q s = true -> exists b, s = q +:+ b.
Proof.
  revert s. induction q as [|x q IH]; intros s H; simpl.
  - now exists s.
  - destruct s as [|y s]; simpl in H; [discriminate|].
    destruct (ascii_dec x y) as [->|]; [|discriminate].
    destruct (IH s H) as [b ->]. now exists b.
Qed.

(** [str_in q s] holds exactly when [q] occurs in [s]. *)
Lemma append_assoc (a b c : string) : (a +:+ b) +:+ c = a +:+ (b +:+ c).
Proof.
  induction a as [|x a IH]; [reflexivity|].
  change (String x ((a +:+ b) +:+ c) = String x (a +:+ (b +:+ c))).
  now rewrite IH.
Qed.

Lemma str_in_spec (q s : string) : str_in q s = true <-> occurs q s.
Proof.
  unfold occurs. split.
  - induction s as [|y s IH]; cbn [str_in]; rewrite orb_true_iff.
    + intros [H|H]; [|discriminate]. destruct (prefix_inv _ _ H) as [b Hb].
      now exists "", b.
    + intros [H|H].
      * destruct (prefix_inv _ _ H) as [b Hb]. now exists "", b.
      * destruct (IH H) as (a & b & ->). now exists (String y a), b.
  - intros (a & b & ->). induction a as [|x a IH].
    + change ("" +:+ q +:+ b) with (q +:+ b).
      pose proof (prefix_app q b) as Hp.
      destruct (q +:+ b); cbn [str_in]; rewrite Hp; reflexivity.
    + change (String x a +:+ q +:+ b) with (String x (a +:+ q +:+ b)).
      cbn [str_in]. rewrite IH. apply orb_true_r.
Qed.

(** A query that occurs in a text matches it whatever the case. *)
Lemma str_in_lower (q a b : string) :
  str_in (lower_ascii q) (lower_ascii (a +:+ q +:+ b)) = true.
Proof.
  apply str_in_spec. exists (lower_ascii a), (lower_ascii b). now rewrite !lower_app.
Qed.









End StrFacts.

(** ** Sorting: the result is a sorted permutation *)

Module SortingFacts.
Import Sorting.
Section Facts.
Context {A K : Type} (key : A -> K) (lt : K -> K -> bool).
Hypothesis lt_asym : forall a b, lt a b = true -> lt b a = false.
Hypothesis ge_trans : forall a b c, lt a b = false -> lt b c = false -> lt a c = false.

Lemma insert_desc_perm x l : Permutation (insert_desc key lt x l) (x :: l).
Proof.
  induction l as [|y l IH]; simpl; [reflexivity|].
  destruct (lt (key x) (key y)); [|reflexivity].
  rewrite IH. apply perm_swap.
Qed.

Lemma sorted_desc_perm l : Permutation (sorted_desc key lt l) l.
Proof.
  induction l as [|x l IH]; simpl; [reflexivity|].
  rewrite insert_desc_perm. now constructor.
Qed.

Lemma insert_desc_sorted x l :
  StronglySorted (not_below key lt) l -> StronglySorted (not_below key lt) (insert_desc key lt x l).
Proof.
  induction l as [|y l IH]; simpl; intros Hs.
  - repeat constructor.
  - inversion Hs as [|? ? Hs' Hall]; subst.
    destruct (lt (key x) (key y)) eqn:E.
    + constructor; [now apply IH|].
      rewrite List.Forall_forall in *. intros z Hz.
      apply (Permutation_in _ (insert_desc_perm x l)) in Hz.
      destruct Hz as [<-|Hz]; [now apply lt_asym | now apply Hall].
    + constructor; [assumption|]. constructor; [assumption|].
      rewrite List.Forall_forall in *. intros z Hz.
      unfold not_below. eapply ge_trans; [exact E | now apply Hall].
Qed.

Lemma sorted_desc_sorted l :
  StronglySorted (not_below key lt) (sorted_desc key lt l).
Proof.
  induction l as [|x l IH]; simpl; [constructor | now apply insert_desc_sorted].
Qed.

Lemma before_cons (z x y : A) l : before x y l -> before x y (z :: l).
Proof. intros (l1 & l2 & l3 & ->). now exists (z :: l1), l2, l3. Qed.

Lemma before_head (x y : A) l : In y l -> before x y (x :: l).
Proof.
  intros H. apply in_split in H as (l2 & l3 & ->). now exists [], l2, l3.
Qed.

Lemma before_or (x y : A) l :
  In x l -> In y l -> x <> y -> before x y l \/ before y x l.
Proof.
  induction l as [|z l IH]; simpl; [tauto|].
  intros [->|Hx] [->|Hy] Hne.
  - congruence.
  - left. now apply before_head.
  - right. now apply before_head.
  - destruct (IH Hx Hy Hne); [left | right]; now apply before_cons.
Qed.

Lemma sorted_before x y l :
  StronglySorted (not_below key lt) l -> before x y l -> not_below key lt x y.
Proof.
  intros Hs (l1 & l2 & l3 & ->).
  induction l1 as [|z l1 IH]; simpl in Hs; inversion Hs as [|? ? Hs' Hall]; subst.
  - rewrite List.Forall_forall in Hall. apply Hall.
    apply in_or_app. right. now left.
  - now apply IH.
Qed.

(** Of two elements of the input, the one with the greater key comes
    first in the output. *)
Lemma sorted_desc_before x y l :
  In x l -> In y l -> lt (key y) (key x) = true ->
  before x y (sorted_desc key lt l).
Proof.
  intros Hx Hy Hlt.
  assert (Hne : x <> y).
  { intros ->. pose proof (lt_asym _ _ Hlt). congruence. }
  pose proof (sorted_desc_perm l) as Hp.
  destruct (before_or x y (sorted_desc key lt l)) as [H|H]; try assumption.
  - eapply Permutation_in; [symmetry; exact Hp | assumption].
  - eapply Permutation_in; [symmetry; exact Hp | assumption].
  - pose proof (sorted_before _ _ _ (sorted_desc_sorted l) H) as Hnb.
    unfold not_below in Hnb. congruence.
Qed.

End Facts.
End SortingFacts.

(** ** knowledge_base.py: facts *)

Module KnowledgeBaseFacts.
Import KnowledgeBase.

(** The order of the sort keys: lexicographic on (score, usage). *)
Lemma key_lt_spec (a b : Q * Z) :
  key_lt a b = true <-> (a.1 < b.1)%Q \/ ((a.1 == b.1)%Q /\ a.2 < b.2).
Proof.
  unfold key_lt. destruct (Qcompare_spec a.1 b.1) as [E|L|G].
  - rewrite Z.ltb_lt. split; [now right|]. intros [H|[_ H]]; [lra | assumption].
  - split; [now left | reflexivity].
  - split; [discriminate|]. intros [H|[H _]]; lra.
Qed.

Lemma key_lt_asym (a b : Q * Z) : key_lt a b = true -> key_lt b a = false.
Proof.
  intros H. apply key_lt_spec in H. apply not_true_iff_false.
  rewrite key_lt_spec. intros H'.
  destruct H as [H|[H1 H2]], H' as [H'|[H1' H2']]; try lra. lia.
Qed.

Lemma key_ge_trans (a b c : Q * Z) :
  key_lt a b = false -> key_lt b c = false -> key_lt a c = false.
Proof.
  rewrite <- !not_true_iff_false, !key_lt_spec. intros Hab Hbc Hac.
  destruct (Qlt_le_dec a.1 b.1) as [L1|L1]; [tauto|].
  destruct (Qlt_le_dec b.1 c.1) as [L2|L2]; [tauto|].
  destruct Hac as [H|[H1 H2]]; [lra|].
  assert (E1 : (a.1 == b.1)%Q) by lra.
  assert (E2 : (b.1 == c.1)%Q) by lra.
  destruct (Z.lt_ge_cases a.2 b.2); [tauto|].
  destruct (Z.lt_ge_cases b.2 c.2); [tauto|]. lia.
Qed.

(** The cache steps change the cache only. *)
Lemma cache_lookup_frame w key now v w0 :
  cache_lookup w key now = Ok (v, w0) -> exists c, w0 = with_cache w c.
Proof.
  unfold cache_lookup. destruct (cache w) as [c|] eqn:Hc.
  - destruct (LRUCache.get c key now) as [[v' c']|e]; simpl; [|discriminate].
    intros H. inversion H; subst. eauto.
  - intros H. inversion H; subst. exists None.
    destruct w0; simpl in *. unfold with_cache. simpl. now rewrite Hc.
Qed.

Lemma cache_store_frame w key value now w' :
  cache_store w key value now = Ok w' -> exists c, w' = with_cache w c.
Proof.
  unfold cache_store. destruct (cache w) as [c|] eqn:Hc.
  - destruct (LRUCache.set c key value now) as [c'|e]; simpl; [|discriminate].
    intros H. inversion H; subst. eauto.
  - intros H. inversion H; subst. exists None.
    destruct w'; simpl in *. unfold with_cache. simpl. now rewrite Hc.
Qed.



(** What a search computes when the cache has no entry for it. *)
Lemma search_content_miss w query content_type hits now now' w0 l w' :
  cache_lookup w (cache_key query content_type) now = Ok (None, w0) ->
  search_content w query content_type hits now now' = Ok (l, w') ->
  exists results w1 c,
    resolve_hits w0 content_type hits [] = Ok (results, w1) /\
    l = rank w1 (match results with
                 | [] => keyword_scan w1 query content_type
                 | _ => results
                 end) /\
    w' = with_cache w1 c.
Proof.
  intros Hmiss. unfold search_content. rewrite Hmiss. simpl.
  destruct (resolve_hits w0 content_type hits []) as [[results w1]|e]; simpl;
    [|discriminate].
  destruct (cache_store w1 _ _ now') as [w2|e] eqn:Hstore; simpl; [|discriminate].
  intros H. inversion H; subst.
  destruct (cache_store_frame _ _ _ _ _ Hstore) as [c ->].
  exists results, w1, c. repeat split; reflexivity.
Qed.

(** What a search returns when the cache has an entry for it. *)
Lemma search_content_hit w query content_type hits now now' w0 cached :
  cache_lookup w (cache_key query content_type) now = Ok (Some cached, w0) ->
  search_content w query content_type hits now now' = Ok (cached, w0).
Proof. intros Hhit. unfold search_content. now rewrite Hhit. Qed.

Lemma rank_perm w l : Permutation (rank w l) l.
Proof. apply SortingFacts.sorted_desc_perm. Qed.

Lemma rank_ranked w l : ranked w (rank w l).
Proof.
  apply SortingFacts.sorted_desc_sorted; [apply key_lt_asym | apply key_ge_trans].
Qed.

Lemma rank_before w l r1 r2 :
  r1 ∈ l -> r2 ∈ l -> key_lt (key_of w r2) (key_of w r1) = true ->
  Sorting.before r1 r2 (rank w l).
Proof.
  intros H1 H2. apply SortingFacts.sorted_desc_before;
    [apply key_lt_asym | apply key_ge_trans | now apply list_elem_of_In..].
Qed.

Lemma elem_of_keyword_scan w query content_type r :
  r ∈ keyword_scan w query content_type <->
  r ∈ PyDict.values (contents w) /\
  exists c, objects w !! r = Some c /\ type_allows content_type c = true /\
            matches (Str.lower query) c = true.
Proof.
  unfold keyword_scan. rewrite list_elem_of_In, List.filter_In, <- list_elem_of_In.
  split; intros [Hin H]; (split; [assumption|]).
  - destruct (objects w !! r) as [c|]; [|discriminate].
    apply andb_true_iff in H. eauto.
  - destruct H as (c & -> & H1 & H2). now rewrite H1, H2.
Qed.


Lemma value_inj (a b : ContentType.t) :
  ContentType.value a = ContentType.value b -> a = b.
Proof. destruct a, b; intros H; first [reflexivity | discriminate H]. Qed.

Lemma type_allows_spec ct c :
  type_allows (Some ct) c = true <-> TrainingContent.content_type c = ct.
Proof.
  unfold type_allows, ContentType.eqb. rewrite String.eqb_eq. split.
  - apply value_inj.
  - now intros ->.
Qed.


(** *** Where the tag index stays consistent *)

Lemma elem_of_index_tags content_id tags : forall index tag i,
  i ∈ default [] (foldl (index_tag content_id) index tags !! tag) <->
  i ∈ default [] (index !! tag) \/ (i = content_id /\ tag ∈ tags).
Proof.
  induction tags as [|t tags IH]; intros index tag i; simpl.
  - split; [now left|]. intros [H|[_ H]]; [assumption | now apply elem_of_nil in H].
  - rewrite IH, elem_of_cons. unfold index_tag.
    destruct (decide (t = tag)) as [->|Hne].
    + rewrite lookup_insert_eq. simpl. rewrite elem_of_app, list_elem_of_singleton.
      tauto.
    + rewrite lookup_insert_ne by assumption. split.
      * intros [H|[H1 H2]]; [now left | right; auto].
      * intros [H|[H1 [H2|H2]]]; [now left | congruence | right; auto].
Qed.

(** The id [add_content] files an item under, and the state it leaves. *)
Lemma add_content_state w content uuid :
  exists tbl,
    (add_content w content uuid).2 =
    mk (<[next_object w :=
            TrainingContent.with_id content (add_content w content uuid).1]>
          (objects w))
       (S (next_object w))
       (PyDict.setitem (add_content w content uuid).1 (next_object w) (contents w))
       (foldl (index_tag (add_content w content uuid).1) (search_index w)
          (TrainingContent.tags content))
       tbl (cache w).
Proof.
  unfold add_content. cbn [alloc fst snd].
  destruct (table (with_store w _ _) !! _); eexists; reflexivity.
Qed.

(** [add_content] of an id that is not in the mirror. *)
Lemma add_content_new_id w content uuid :
  refs_ok w -> index_consistent w ->
  (add_content w content uuid).1 ∉ PyDict.keys (contents w) ->
  refs_ok (add_content w content uuid).2 /\
  index_consistent (add_content w content uuid).2.
Proof.
  intros Hrefs Hcons Hnew.
  destruct (add_content_state w content uuid) as [tbl ->].
  set (cid := (add_content w content uuid).1) in *.
  assert (Hcontents : forall i,
            PyDict.getitem i (PyDict.setitem cid (next_object w) (contents w))
            = if decide (i = cid) then Some (next_object w)
              else PyDict.getitem i (contents w)).
  { intros i. destruct (decide (i = cid)) as [->|Hne].
    - apply PyDictFacts.getitem_setitem_eq.
    - now apply PyDictFacts.getitem_setitem_ne. }
  split.
  - intros i r. cbn. rewrite Hcontents. destruct (decide (i = cid)).
    + intros H. inversion H. lia.
    + intros H. apply Hrefs in H. lia.
  - intros tag i. cbn. rewrite elem_of_index_tags, Hcontents.
    destruct (decide (i = cid)) as [->|Hne].
    + split.
      * intros [H|[_ H]].
        -- exfalso. apply Hnew. apply Hcons in H as (r & c & Hr & _).
           eapply PyDictFacts.getitem_Some_keys. exact Hr.
        -- eexists _, _. split; [reflexivity|]. rewrite lookup_insert_eq.
           split; [reflexivity | exact H].
      * intros (r & c & Hr & Hc & Ht). inversion Hr; subst r.
        rewrite lookup_insert_eq in Hc. inversion Hc; subst c. right. auto.
    + split.
      * intros [H|[H _]]; [|exfalso; exact (Hne H)].
        apply Hcons in H as (r & c & Hr & Hc & Ht). exists r, c.
        split; [assumption|]. split; [|assumption].
        rewrite lookup_insert_ne; [assumption|]. apply Hrefs in Hr. lia.
      * intros (r & c & Hr & Hc & Ht). left. apply Hcons. exists r, c.
        split; [assumption|]. split; [|assumption].
        rewrite lookup_insert_ne in Hc; [assumption|]. apply Hrefs in Hr. lia.
Qed.

(** [update_effectiveness] changes the score and the usage count of an
    item, not its tags. *)
Lemma update_effectiveness_consistent w content_id new_score :
  index_consistent w -> index_consistent (update_effectiveness w content_id new_score).
Proof.
  intros Hcons. unfold update_effectiveness.
  destruct (PyDict.getitem content_id (contents w)) as [r0|] eqn:Hr0; [|assumption].
  destruct (objects w !! r0) as [c0|] eqn:Hc0; [|assumption].
  intros tag i. rewrite (Hcons tag i). cbn. split.
  - intros (r & c & Hr & Hc & Ht). destruct (decide (r = r0)) as [->|Hne].
    + rewrite Hc0 in Hc. inversion Hc; subst c. eexists r0, _.
      split; [assumption|]. rewrite lookup_insert_eq. split; [reflexivity | exact Ht].
    + exists r, c. rewrite lookup_insert_ne by congruence. auto.
  - intros (r & c & Hr & Hc & Ht). destruct (decide (r = r0)) as [->|Hne].
    + rewrite lookup_insert_eq in Hc. inversion Hc; subst c. exists r0, c0. auto.
    + rewrite lookup_insert_ne in Hc by congruence. exists r, c. auto.
Qed.

(** [get_content] of an item of the mirror changes nothing. *)
Lemma get_content_mirrored w content_id r :
  PyDict.getitem content_id (contents w) = Some r ->
  get_content w content_id = Ok (Some r, w).
Proof. intros H. unfold get_content. now rewrite H. Qed.

(** The objects a search makes are new: the mirror and the index are as
    they were, and so are the objects the mirror refers to. *)
Lemma resolve_hits_frame content_type hits : forall w acc res w',
  resolve_hits w content_type hits acc = Ok (res, w') ->
  contents w' = contents w /\ search_index w' = search_index w /\
  (next_object w <= next_object w')%nat /\
  forall r, (r < next_object w)%nat -> objects w' !! r = objects w !! r.
Proof.
  induction hits as [|hit hits IH]; intros w acc res w' H; simpl in H.
  - inversion H; subst. auto.
  - destruct (negb (Str.truthy_opt hit)); [exact (IH _ _ _ _ H)|].
    destruct (table w !! default "" hit) as [row|]; [|exact (IH _ _ _ _ H)].
    destruct (match content_type with
              | Some ct => _
              | None => false
              end); [exact (IH _ _ _ _ H)|].
    destruct (of_row row _) as [content|e]; [|discriminate].
    simpl in H. apply IH in H as (H1 & H2 & H3 & H4). cbn in *.
    repeat split; try assumption; [lia|].
    intros r Hr. rewrite H4 by lia. apply lookup_insert_ne. lia.
Qed.

Lemma search_content_consistent w query content_type hits now now' l w' :
  refs_ok w -> index_consistent w ->
  search_content w query content_type hits now now' = Ok (l, w') ->
  refs_ok w' /\ index_consistent w'.
Proof.
  intros Hrefs Hcons. unfold search_content.
  destruct (cache_lookup w _ now) as [[cached w0]|e] eqn:Hlook; simpl; [|discriminate].
  destruct (cache_lookup_frame _ _ _ _ _ Hlook) as [c0 ->].
  destruct cached as [cached|].
  { intros H. inversion H; subst. auto. }
  destruct (resolve_hits _ content_type hits []) as [[results w1]|e] eqn:Hres; simpl;
    [|discriminate].
  destruct (cache_store w1 _ _ now') as [w2|e] eqn:Hstore; simpl; [|discriminate].
  intros H. inversion H; subst. clear H.
  destruct (cache_store_frame _ _ _ _ _ Hstore) as [c1 ->].
  apply resolve_hits_frame in Hres as (H1 & H2 & H3 & H4).
  change (contents (with_cache w c0)) with (contents w) in H1.
  change (search_index (with_cache w c0)) with (search_index w) in H2.
  change (next_object (with_cache w c0)) with (next_object w) in H3, H4.
  change (objects (with_cache w c0)) with (objects w) in H4.
  split.
  - intros i r Hr. change (contents (with_cache w1 c1)) with (contents w1) in Hr.
    rewrite H1 in Hr. apply Hrefs in Hr.
    change (next_object (with_cache w1 c1)) with (next_object w1). lia.
  - intros tag i.
    change (search_index (with_cache w1 c1)) with (search_index w1).
    change (contents (with_cache w1 c1)) with (contents w1).
    change (objects (with_cache w1 c1)) with (objects w1).
    rewrite H1, H2, (Hcons tag i).
    split; intros (r & c & Hr & Hc & Ht); exists r, c;
      (split; [assumption|]); (split; [|assumption]).
    + rewrite H4; [assumption | now apply Hrefs in Hr].
    + rewrite <- H4; [assumption | now apply Hrefs in Hr].
Qed.

End KnowledgeBaseFacts.

(** ** knowledge_base.py: the claims *)

Module KnowledgeBaseClaims.
Import KnowledgeBase KnowledgeBaseFacts.




(** C5 as stated fails: a search that hits the cache returns the list an
    earlier search stored, and [update_effectiveness] has since changed
    one of its items in place. The second search below returns the item
    scored 4 before the item scored 5. *)
Lemma cache_hit_returns_unranked :
  let w := Demo.kb2 in
  exists l w1 l' w2,
    search_content w "pricing" None [] 0 0 = Ok (l, w1) /\
    search_content (update_effectiveness w1 "kb_a1" 5) "pricing" None [] 1 1
      = Ok (l', w2) /\
    map TrainingContent.effectiveness_score (deref w2 l') = [Some 4%Q; Some 5%Q] /\
    ~ ranked w2 l'.
Proof.
  intros w.
  destruct (search_content w "pricing" None [] 0 0) as [[l w1]|e] eqn:E1;
    [|vm_compute in E1; discriminate].
  destruct (search_content (update_effectiveness w1 "kb_a1" 5) "pricing" None [] 1 1)
    as [[l' w2]|e] eqn:E2.
  - exists l, w1, l', w2. split; [reflexivity|]. split; [exact E2|].
    vm_compute in E1. inversion E1; subst l w1; clear E1.
    vm_compute in E2. inversion E2; subst l' w2; clear E2.
    split; [vm_compute; reflexivity|].
    intros Hs. inversion Hs as [|? ? _ Hall]; subst.
    inversion Hall as [|? ? Hnb _]; subst.
    vm_compute in Hnb. discriminate.
  - exfalso. vm_compute in E1. inversion E1; subst l w1; clear E1.
    vm_compute in E2. discriminate.
Qed.

(** C5, amended. A search that misses the cache returns a ranked list: no
    item stands before one with a greater key (score, usage), the score of
    an item without one counting as 0. So of two results the one with the
    greater score comes first, and with equal scores the one used more
    often. A search that hits the cache returns the stored list as it
    is. *)
Theorem search_miss_is_ranked (w : t) (query : string)
    (content_type : option ContentType.t) (hits : list (option string))
    (now now' : Z) :
  (forall w0 l w',
     cache_lookup w (cache_key query content_type) now = Ok (None, w0) ->
     search_content w query content_type hits now now' = Ok (l, w') ->
     ranked w' l /\
     forall r1 r2 c1 c2,
       r1 ∈ l -> r2 ∈ l ->
       objects w' !! r1 = Some c1 -> objects w' !! r2 = Some c2 ->
       (score c2 < score c1)%Q \/
       ((score c1 == score c2)%Q /\
        TrainingContent.usage_count c2 < TrainingContent.usage_count c1) ->
       Sorting.before r1 r2 l) /\
  (forall w0 cached,
     cache_lookup w (cache_key query content_type) now = Ok (Some cached, w0) ->
     search_content w query content_type hits now now' = Ok (cached, w0)).
Proof.
  split; [|intros w0 cached; apply search_content_hit].
  intros w0 l w' Hmiss Hsearch.
  destruct (search_content_miss _ _ _ _ _ _ _ _ _ Hmiss Hsearch)
    as (results & w1 & c & _ & -> & ->).
  set (found := match results with [] => _ | _ => results end).
  split; [apply (rank_ranked w1)|].
  intros r1 r2 c1 c2 H1 H2 Hc1 Hc2 Hgt.
  change (objects (with_cache w1 c)) with (objects w1) in Hc1, Hc2.
  assert (Hin : forall r, r ∈ rank w1 found -> r ∈ found).
  { intros r. rewrite !list_elem_of_In. apply Permutation_in, rank_perm. }
  apply rank_before; [now apply Hin..|].
  unfold key_of. rewrite Hc1, Hc2. apply key_lt_spec. unfold sort_key. simpl.
  destruct Hgt as [H|[H H']]; [now left | right].
  split; [now symmetry | assumption].
Qed.

(** C5, at work: a first search misses the cache and ranks the item scored
    4 before the item scored 3; the same search again is a hit. *)
Lemma search_miss_is_ranked_witness :
  exists l w',
    search_content Demo.kb2 "pricing" None [] 0 0 = Ok (l, w') /\
    Sorting.before 1%nat 0%nat l /\
    search_content w' "pricing" None [] 1 1 = Ok (l, w').
Proof.
  destruct (search_content Demo.kb2 "pricing" None [] 0 0) as [[l w']|e] eqn:E;
    [|vm_compute in E; discriminate].
  exists l, w'. split; [reflexivity|].
  destruct (search_miss_is_ranked Demo.kb2 "pricing" None [] 0 0) as [Hmiss _].
  destruct (Hmiss _ l w' eq_refl E) as [_ Hbefore].
  destruct (search_miss_is_ranked w' "pricing" None [] 1 1) as [_ Hhit].
  vm_compute in E. inversion E; subst l w'; clear E. split.
  - eapply (Hbefore 1%nat 0%nat); [repeat constructor..|reflexivity|reflexivity|].
    left. vm_compute. reflexivity.
  - apply Hhit. vm_compute. reflexivity.
Defined.

(** C9: the tag index and the mirror part ways.
    - [get_content] of an item that is in the table and not in the mirror
      (written by another process, or not loaded at start-up) puts the item
      in the mirror and leaves the index as it is: the item carries a tag the
      index does not list it under.
    - [add_content] of an id the mirror already holds replaces the item and
      keeps the index entries of the old one: the index lists the id under a
      tag the item no longer carries. *)
Theorem tag_index_goes_stale :
  (index_consistent Demo.kb_unloaded /\
   exists r w',
     get_content Demo.kb_unloaded "kb_c3" = Ok (Some r, w') /\
     ~ index_consistent w') /\
  (index_consistent Demo.kb_tagged /\
   ~ index_consistent (add_content Demo.kb_tagged Demo.retagged "d4").2).
Proof.
  split; split.
  - intros tag i. split.
    + intros H. vm_compute in H. now apply elem_of_nil in H.
    + intros (r & c & H & _). vm_compute in H. discriminate.
  - destruct (get_content Demo.kb_unloaded "kb_c3") as [[[r|] w']|e] eqn:E;
      try (vm_compute in E; discriminate E).
    exists r, w'. split; [reflexivity|].
    vm_compute in E. inversion E; subst r w'; clear E.
    intros H. destruct (H "pricing" "kb_c3") as [_ H'].
    match type of H' with _ -> _ ∈ default [] (search_index ?w !! _) =>
      assert (Hin : "kb_c3" ∈ default [] (search_index w !! "pricing"))
    end.
    { apply H'. eexists _, _. split; [vm_compute; reflexivity|].
      split; [vm_compute; reflexivity|]. vm_compute. constructor. }
    vm_compute in Hin. now apply elem_of_nil in Hin.
  - assert (Ec : contents Demo.kb_tagged = [("kb_c3", 0%nat)])
      by (vm_compute; reflexivity).
    assert (Ei : search_index Demo.kb_tagged = {["pricing" := ["kb_c3"]]})
      by (vm_compute; reflexivity).
    assert (Eo : objects Demo.kb_tagged !! 0%nat
                 = Some (TrainingContent.with_id Demo.tagged "kb_c3"))
      by (vm_compute; reflexivity).
    intros tag i. rewrite Ec, Ei. split.
    + intros H. exists 0%nat, (TrainingContent.with_id Demo.tagged "kb_c3").
      destruct (decide (tag = "pricing")) as [->|Hne].
      * rewrite lookup_singleton_eq in H. simpl in H.
        apply list_elem_of_singleton in H. subst i.
        split; [reflexivity|]. split; [exact Eo|]. simpl. constructor.
      * rewrite lookup_singleton_ne in H by congruence.
        now apply elem_of_nil in H.
    + intros (r & c & Hr & Hc & Ht). simpl in Hr.
      destruct (String.eqb_spec i "kb_c3") as [->|]; [|discriminate].
      inversion Hr; subst r. rewrite Eo in Hc. inversion Hc; subst c.
      simpl in Ht. apply list_elem_of_singleton in Ht. subst tag.
      rewrite lookup_singleton_eq. simpl. constructor.
  - intros H. destruct (H "pricing" "kb_c3") as [H' _].
    destruct H' as (r & c & Hr & Hc & Ht).
    + vm_compute. constructor.
    + vm_compute in Hr. inversion Hr; subst r.
      vm_compute in Hc. inversion Hc; subst c.
      simpl in Ht. apply list_elem_of_singleton in Ht. discriminate.
Qed.

End KnowledgeBaseClaims.

(** ** script_generator.py: facts and claims *)

Module ScriptGeneratorFacts.
Import ScriptGenerator.

Lemma get_script_mirror g script_id script :
  scripts g !! script_id = Some script ->
  get_script g script_id = (Some script, g).
Proof. intros H. unfold get_script. now rewrite H. Qed.

(** A script that [get_script] finds is in the mirror afterwards, and the
    table is as it was. *)
Lemma get_script_found g script_id script g1 :
  get_script g script_id = (Some script, g1) ->
  scripts g1 !! script_id = Some script /\ table g1 = table g /\
  (forall j, j <> script_id -> scripts g1 !! j = scripts g !! j).
Proof.
  unfold get_script. destruct (scripts g !! script_id) as [s|] eqn:Hs.
  - intros H. inversion H; subst. auto.
  - destruct (table g !! script_id) as [row|]; intros H; inversion H; subst.
    simpl. rewrite lookup_insert_eq. repeat split.
    intros j Hj. now rewrite lookup_insert_ne.
Qed.

Lemma get_script_unknown g script_id :
  scripts g !! script_id = None -> table g !! script_id = None ->
  get_script g script_id = (None, g).
Proof. intros H1 H2. unfold get_script. now rewrite H1, H2. Qed.

(** One update of a script that exists. *)
Lemma update_found g script_id success script g1 :
  get_script g script_id = (Some script, g1) ->
  0 <= SalesScript.usage_count script ->
  exists g' script',
    update_success_rate g script_id success = Ok g' /\
    scripts g' !! script_id = Some script' /\
    SalesScript.usage_count script' = SalesScript.usage_count script + 1 /\
    (SalesScript.success_rate script' ==
     next_rate (SalesScript.success_rate script)
       (SalesScript.usage_count script + 1) success)%Q /\
    (forall row, table g !! script_id = Some row ->
       exists row', table g' !! script_id = Some row' /\
         SalesScriptModel.usage_count row' = Some (SalesScript.usage_count script') /\
         SalesScriptModel.success_rate row' = Some (SalesScript.success_rate script')).
Proof.
  intros Hget Hpos. destruct (get_script_found _ _ _ _ Hget) as (_ & Htab & _).
  unfold update_success_rate, float_div. rewrite Hget.
  destruct (Z.eqb_spec (SalesScript.usage_count script + 1) 0) as [|_]; [lia|].
  set (n := SalesScript.usage_count script + 1).
  destruct success; simpl; eexists _, _; (split; [reflexivity|]); simpl;
    rewrite lookup_insert_eq; (split; [reflexivity|]); simpl;
    (split; [reflexivity|]); (split; [unfold next_rate; try reflexivity|]).
  - intros row Hrow. rewrite Htab, Hrow. eexists. rewrite lookup_insert_eq.
    split; [reflexivity|]. split; reflexivity.
  - fold n. now rewrite Qplus_0_r.
  - intros row Hrow. rewrite Htab, Hrow. eexists. rewrite lookup_insert_eq.
    split; [reflexivity|]. split; reflexivity.
Qed.

Lemma successes_cons (b : bool) outcomes :
  successes (b :: outcomes) = (if b then 1 else 0) + successes outcomes.
Proof. unfold successes. destruct b; simpl; lia. Qed.

Lemma successes_bounds outcomes :
  0 <= successes outcomes <= Z.of_nat (length outcomes).
Proof.
  unfold successes. pose proof (List.filter_length_le (fun b : bool => b) outcomes). lia.
Qed.

(** The running total: with [rate * n] the number of successes so far,
    the next rate times [n + 1] is that number plus the new outcome. *)
Lemma next_rate_total (rate : Q) (n total : Z) (success : bool) :
  0 <= n ->
  (rate * inject_Z n == inject_Z total)%Q ->
  (next_rate rate (n + 1) success * inject_Z (n + 1)
   == inject_Z (total + (if success then 1 else 0)))%Q.
Proof.
  intros Hn Htot. unfold next_rate.
  replace (n + 1 - 1) with n by lia.
  assert (Hnz : ~ (inject_Z (n + 1) == 0)%Q).
  { change 0%Q with (inject_Z 0). rewrite inject_Z_injective. lia. }
  rewrite Qmult_comm, Qmult_div_r by assumption.
  rewrite Htot, inject_Z_plus. now destruct success.
Qed.

(** A run of updates on a script of the mirror. *)
Lemma update_all_total outcomes : forall g script_id script (total : Z),
  scripts g !! script_id = Some script ->
  0 <= SalesScript.usage_count script ->
  (SalesScript.success_rate script * inject_Z (SalesScript.usage_count script)
   == inject_Z total)%Q ->
  exists g' script',
    update_all g script_id outcomes = Ok g' /\
    scripts g' !! script_id = Some script' /\
    SalesScript.usage_count script'
      = SalesScript.usage_count script + Z.of_nat (length outcomes) /\
    (SalesScript.success_rate script' * inject_Z (SalesScript.usage_count script')
     == inject_Z (total + successes outcomes))%Q.
Proof.
  induction outcomes as [|success outcomes IH]; intros g script_id script total Hs Hn Htot.
  - exists g, script. simpl. split; [reflexivity|]. split; [assumption|].
    split; [lia|]. unfold successes. simpl. now rewrite Z.add_0_r.
  - destruct (update_found g script_id success script g
                (get_script_mirror _ _ _ Hs) Hn)
      as (g1 & s1 & Hup & Hs1 & Hn1 & Hr1 & _).
    destruct (IH g1 script_id s1 (total + (if success then 1 else 0)) Hs1)
      as (g' & s' & Hall & Hs' & Hn' & Hr'); [lia| |].
    + rewrite Hr1, Hn1. now apply next_rate_total.
    + exists g', s'. simpl. rewrite Hup. simpl.
      split; [assumption|]. split; [assumption|]. split; [lia|].
      rewrite Hr', successes_cons. apply inject_Z_injective. lia.
Qed.

Lemma mean_bounds outcomes : outcomes <> [] -> (0 <= mean outcomes <= 1)%Q.
Proof.
  intros Hne. unfold mean. pose proof (successes_bounds outcomes) as [Hlo Hhi].
  assert (Hlen : 0 < Z.of_nat (length outcomes)) by (destruct outcomes; [congruence | simpl; lia]).
  assert (Hpos : (0 < inject_Z (Z.of_nat (length outcomes)))%Q).
  { change 0%Q with (inject_Z 0). now rewrite <- Zlt_Qlt. }
  split.
  - apply Qle_shift_div_l; [assumption|]. rewrite Qmult_0_l.
    change 0%Q with (inject_Z 0). now rewrite <- Zle_Qle.
  - apply Qle_shift_div_r; [assumption|]. rewrite Qmult_1_l.
    now rewrite <- Zle_Qle.
Qed.

End ScriptGeneratorFacts.

Module ScriptGeneratorClaims.
Import ScriptGenerator ScriptGeneratorFacts.

(** Over exact rationals, that is if no operation rounded: for a script
    that [get_script] finds, with a usage count that is not negative,
    [update_success_rate] raises the count to [n] and sets the rate to
    [(old_rate * (n - 1) + (1 if success else 0)) / n], in the mirror and in
    the row of the table when there is one; from a script with a count of 0,
    any run of updates leaves the count at the number of outcomes and the
    rate at their arithmetic mean, within [0, 1]. *)
Lemma exact_rate_is_running_mean :
  (forall g script_id success script g1,
     get_script g script_id = (Some script, g1) ->
     0 <= SalesScript.usage_count script ->
     exists g' script',
       update_success_rate g script_id success = Ok g' /\
       scripts g' !! script_id = Some script' /\
       SalesScript.usage_count script' = SalesScript.usage_count script + 1 /\
       (SalesScript.success_rate script' ==
        (SalesScript.success_rate script
           * inject_Z (SalesScript.usage_count script + 1 - 1)
         + (if success then 1 else 0))
        / inject_Z (SalesScript.usage_count script + 1))%Q /\
       (forall row, table g !! script_id = Some row ->
          exists row', table g' !! script_id = Some row' /\
            SalesScriptModel.usage_count row'
              = Some (SalesScript.usage_count script') /\
            SalesScriptModel.success_rate row'
              = Some (SalesScript.success_rate script'))) /\
  (forall g script_id script g1 outcomes,
     get_script g script_id = (Some script, g1) ->
     SalesScript.usage_count script = 0 ->
     outcomes <> [] ->
     exists g' script',
       update_all g script_id outcomes = Ok g' /\
       scripts g' !! script_id = Some script' /\
       SalesScript.usage_count script' = Z.of_nat (length outcomes) /\
       (SalesScript.success_rate script' == mean outcomes)%Q /\
       (0 <= SalesScript.success_rate script' <= 1)%Q) /\
  (forall g script_id script g1,
     get_script g script_id = (Some script, g1) ->
     SalesScript.usage_count script = 0 ->
     exists g' s1 g'' s2,
       update_success_rate g script_id false = Ok g' /\
       scripts g' !! script_id = Some s1 /\
       SalesScript.usage_count s1 = 1 /\
       (SalesScript.success_rate s1 == 0)%Q /\
       update_success_rate g' script_id true = Ok g'' /\
       scripts g'' !! script_id = Some s2 /\
       SalesScript.usage_count s2 = 2 /\
       (SalesScript.success_rate s2 == 1 # 2)%Q).
Proof.
  assert (Hrun : forall g script_id script g1 outcomes,
     get_script g script_id = (Some script, g1) ->
     SalesScript.usage_count script = 0 ->
     outcomes <> [] ->
     exists g' script',
       update_all g script_id outcomes = Ok g' /\
       scripts g' !! script_id = Some script' /\
       SalesScript.usage_count script' = Z.of_nat (length outcomes) /\
       (SalesScript.success_rate script' * inject_Z (Z.of_nat (length outcomes))
        == inject_Z (successes outcomes))%Q).
  { intros g script_id script g1 outcomes Hget Hzero Hne.
    destruct outcomes as [|success outcomes]; [congruence|].
    destruct (update_found g script_id success script g1 Hget) as
      (g2 & s2 & Hup & Hs2 & Hn2 & Hr2 & _); [lia|].
    destruct (update_all_total outcomes g2 script_id s2 (if success then 1 else 0) Hs2)
      as (g' & s' & Hall & Hs' & Hn' & Hr'); [lia| |].
    - rewrite Hr2, Hn2, Hzero.
      rewrite (next_rate_total (SalesScript.success_rate script) 0 0 success);
        [reflexivity | lia | ring].
    - exists g', s'. simpl. rewrite Hup. simpl. split; [assumption|].
      split; [assumption|]. rewrite Hn', Hn2, Hzero.
      split; [lia|]. rewrite Hn', Hn2, Hzero in Hr'.
      replace (Z.of_nat (S (length outcomes))) with (0 + 1 + Z.of_nat (length outcomes)) by lia.
      rewrite Hr', successes_cons. reflexivity. }
  assert (Hmean : forall outcomes (rate : Q),
     outcomes <> [] ->
     (rate * inject_Z (Z.of_nat (length outcomes)) == inject_Z (successes outcomes))%Q ->
     (rate == mean outcomes)%Q).
  { intros outcomes rate Hne H. unfold mean. rewrite <- H.
    rewrite Qdiv_mult_l; [reflexivity|].
    change 0%Q with (inject_Z 0). rewrite inject_Z_injective.
    destruct outcomes; [congruence | simpl; lia]. }
  split; [|split].
  - intros g script_id success script g1 Hget Hpos.
    destruct (update_found g script_id success script g1 Hget Hpos)
      as (g' & s' & H1 & H2 & H3 & H4 & H5).
    exists g', s'. repeat (split; [assumption|]). assumption.
  - intros g script_id script g1 outcomes Hget Hzero Hne.
    destruct (Hrun g script_id script g1 outcomes Hget Hzero Hne)
      as (g' & s' & H1 & H2 & H3 & H4).
    exists g', s'. repeat (split; [assumption|]).
    pose proof (Hmean outcomes _ Hne H4) as Hm. split; [assumption|].
    rewrite Hm. now apply mean_bounds.
  - intros g script_id script g1 Hget Hzero.
    destruct (update_found g script_id false script g1 Hget) as
      (g' & s1 & Hup1 & Hs1 & Hn1 & Hr1 & _); [lia|].
    destruct (update_found g' script_id true s1 g' (get_script_mirror _ _ _ Hs1)) as
      (g'' & s2 & Hup2 & Hs2 & Hn2 & Hr2 & _); [lia|].
    exists g', s1, g'', s2. rewrite Hzero in Hn1.
    assert (Hz : (SalesScript.success_rate s1 == 0)%Q).
    { rewrite Hr1. unfold next_rate. rewrite Hzero.
      change (inject_Z (0 + 1 - 1)) with 0%Q. change (inject_Z (0 + 1)) with 1%Q.
      field. }
    split; [exact Hup1|]. split; [exact Hs1|]. split; [lia|].
    split; [exact Hz|]. split; [exact Hup2|]. split; [exact Hs2|].
    split; [lia|]. rewrite Hr2. unfold next_rate. rewrite Hn1, Hz. reflexivity.
Qed.


(** C10. [update_success_rate] of an id that is neither in the mirror nor
    in the table returns without raising, and the mirror and the table are
    as they were. *)
Theorem update_unknown_script_changes_nothing (g : t) (script_id : string)
    (success : bool) :
  scripts g !! script_id = None ->
  table g !! script_id = None ->
  update_success_rate g script_id success = Ok g.
Proof.
  intros Hm Ht. unfold update_success_rate.
  now rewrite (get_script_unknown _ _ Hm Ht).
Qed.

Lemma update_unknown_script_changes_nothing_witness :
  update_success_rate Demo.gen0 "script_zz" true = Ok Demo.gen0.
Proof.
  apply (update_unknown_script_changes_nothing Demo.gen0 "script_zz" true);
    reflexivity.
Defined.

(** With the service of this repository a call never raises: the [try] of
    [_generate_variants] completes and each variant is what
    [generate_response] returned for its style. *)
Lemma variants_loop_with_llm_service
    (client : option (list (string * string) -> result string)) (script : string) :
  variants_loop (with_llm_service client) styles script [] =
  Ok (map (fun style : string * string =>
             LLMService.generate_response client variant_system_prompt
               (variant_prompt (style_names_tw style.1) style.2 script) None [])
          styles).
Proof. reflexivity. Qed.

Lemma variants_with_llm_service
    (client : option (list (string * string) -> result string)) (script : string) :
  _generate_variants (with_llm_service client) script =
  map (fun style : string * string =>
         LLMService.generate_response client variant_system_prompt
           (variant_prompt (style_names_tw style.1) style.2 script) None [])
      styles.
Proof. reflexivity. Qed.

(** Every prompt of [_generate_variants] names the scripts. *)
Lemma variant_prompt_names_scripts (style_name_tw style_desc script : string) :
  Str.str_in "話術" (variant_prompt style_name_tw style_desc script) = true.
Proof.
  apply StrFacts.str_in_spec. unfold variant_prompt.
  exists "請將以下銷售". eexists.
  change "請將以下銷售話術改寫為" with ("請將以下銷售" +:+ "話術" +:+ "改寫為").
  rewrite !StrFacts.append_assoc. reflexivity.
Qed.

(** The canned reply to a prompt of [_generate_variants]. *)
Lemma fallback_response_of_variant_prompt (style_name_tw style_desc script : string) :
  let prompt := variant_prompt style_name_tw style_desc script in
  LLMService._fallback_response prompt None =
  if Str.str_in "客戶" prompt || Str.str_in "如何處理" prompt ||
     Str.str_in "客户" prompt || Str.str_in "如何处理" prompt
  then LLMService.advice_customer else LLMService.advice_script.
Proof.
  intros prompt. unfold LLMService._fallback_response.
  unfold prompt at 5. rewrite variant_prompt_names_scripts. reflexivity.
Qed.

(** C7 as stated fails. The API call for the friendly variant fails, the
    other two succeed: the friendly piece alone is replaced, but by the
    canned script advice of [_fallback_response], which is neither the
    truncated fallback text of [_generate_variants] nor derived from the
    base script. *)
Lemma failed_variant_is_not_a_truncated_script :
  let variants :=
    _generate_variants (with_llm_service (Some Demo.flaky_client)) "Hello" in
  variants = ["FORMAL"; LLMService.advice_script; "CONCISE"] /\
  variants !! 1%nat <> fallback_variants "Hello" !! 1%nat /\
  Str.str_in "Hello" LLMService.advice_script = false.
Proof.
  split; [vm_compute; reflexivity|]. split; [|vm_compute; reflexivity].
  vm_compute. discriminate.
Qed.

(** C7, amended. [_generate_variants], calling the text generation service
    of this repository, returns three texts, in the order formal, friendly,
    concise; its [try] completes, so that its handler, which would replace
    the three variants by truncated fallback texts, is not reached. The
    variant of a style whose API call returns a text is that text, whatever
    the other calls did. The variant of a style whose API call fails, or
    every variant when there is no API client, is the canned reply of
    [_fallback_response] to the prompt of that style: the customer advice
    when the prompt mentions one of its four customer keywords, else the
    script advice. *)
Theorem failed_variant_is_answered_by_canned_reply
    (client : option (list (string * string) -> result string)) (script : string) :
  let variants := _generate_variants (with_llm_service client) script in
  variants_loop (with_llm_service client) styles script [] = Ok variants /\
  length variants = 3%nat /\
  forall (i : nat) (style : string * string),
    styles !! i = Some style ->
    let prompt := variant_prompt (style_names_tw style.1) style.2 script in
    let canned :=
      if Str.str_in "客戶" prompt || Str.str_in "如何處理" prompt ||
         Str.str_in "客户" prompt || Str.str_in "如何处理" prompt
      then LLMService.advice_customer else LLMService.advice_script in
    match client with
    | None => variants !! i = Some canned
    | Some create =>
        match create (LLMService.messages_for variant_system_prompt prompt None []) with
        | Ok text => variants !! i = Some text
        | Raise _ => variants !! i = Some canned
        end
    end.
Proof.
  intros variants. split; [reflexivity|]. split; [reflexivity|].
  intros i style Hi prompt canned.
  assert (Hv : variants !! i =
               Some (LLMService.generate_response client variant_system_prompt
                       prompt None [])).
  { unfold variants. rewrite variants_with_llm_service, list_lookup_fmap, Hi.
    reflexivity. }
  assert (Hc : LLMService._fallback_response prompt None = canned)
    by apply fallback_response_of_variant_prompt.
  rewrite Hv. unfold LLMService.generate_response.
  destruct client as [create|]; [|now rewrite Hc].
  destruct (create _); [reflexivity | now rewrite Hc].
Qed.

(** C7, at work, on the API client that fails on the friendly variant only:
    the formal and the concise variants are the generated texts, the friendly
    one is the canned script advice. *)
Lemma failed_variant_is_answered_by_canned_reply_witness :
  let variants :=
    _generate_variants (with_llm_service (Some Demo.flaky_client)) "Hello" in
  variants !! 0%nat = Some "FORMAL" /\
  variants !! 1%nat = Some LLMService.advice_script /\
  variants !! 2%nat = Some "CONCISE".
Proof.
  destruct (failed_variant_is_answered_by_canned_reply (Some Demo.flaky_client) "Hello")
    as (_ & _ & H).
  pose proof (H 0%nat _ eq_refl) as H0.
  pose proof (H 1%nat _ eq_refl) as H1.
  pose proof (H 2%nat _ eq_refl) as H2.
  split; [exact H0|]. split; [exact H1|exact H2].
Defined.

End ScriptGeneratorClaims.

(** ** script_generator.py: the success rate in binary64, facts and claim *)

Module ScriptGenerator64Facts.
Import ScriptGenerator64.

Lemma of_int_in_range (n : Z) :
  Binary64.in_range n -> Binary64.of_int n = Ok (Binary64.nearest n).
Proof.
  unfold Binary64.in_range, Binary64.of_int. intros H.
  now destruct (Z.ltb_spec (Z.abs n) Binary64.max_int); [|lia].
Qed.

Lemma of_int_out_of_range (n : Z) :
  ~ Binary64.in_range n -> Binary64.of_int n = Raise OverflowError.
Proof.
  unfold Binary64.in_range, Binary64.of_int. intros H.
  now destruct (Z.ltb_spec (Z.abs n) Binary64.max_int).
Qed.

Lemma small_in_range (n : Z) : -1 <= n <= 23 -> Binary64.in_range n.
Proof.
  assert (H : (23 <? Binary64.max_int) = true) by (vm_compute; reflexivity).
  apply Z.ltb_lt in H. unfold Binary64.in_range. lia.
Qed.













End ScriptGenerator64Facts.

Module ScriptGenerator64Claims.
Import ScriptGenerator64 ScriptGenerator64Facts.
Import PrimFloat.


(** A usage count of -1 makes the update divide by zero. *)
Lemma update_of_count_minus_one_raises g script_id success script :
  scripts g !! script_id = Some script ->
  SalesScript64.usage_count script = -1 ->
  update_success_rate g script_id success = Raise ZeroDivisionError.
Proof.
  intros Hs Hn. unfold update_success_rate, get_script.
  rewrite Hs. cbn [mbind result_bind]. rewrite Hn.
  replace (-1 + 1 - 1) with (-1) by lia. replace (-1 + 1) with 0 by lia.
  rewrite (of_int_in_range (-1) (small_in_range (-1) ltac:(lia))),
    (of_int_in_range 1 (small_in_range 1 ltac:(lia))).
  unfold float_div. rewrite (of_int_in_range 0 (small_in_range 0 ltac:(lia))).
  now destruct success.
Qed.



End ScriptGenerator64Claims.

(** ** learning_system.py: the feedback rule *)

Module LearningSystemClaims.
Import LearningSystem.
Section Claims.
Context (float_str : Q -> string).

Lemma assign_ids_type l uuids : forall n i,
  i ∈ assign_ids l uuids n ->
  exists i0, i0 ∈ l /\
    LearningInsight.insight_type i = LearningInsight.insight_type i0 /\
    LearningInsight.confidence i = LearningInsight.confidence i0.
Proof.
  induction l as [|x l IH]; intros n i H; simpl in H.
  - now apply elem_of_nil in H.
  - apply elem_of_cons in H as [->|H].
    + exists x. split; [left|]. split; reflexivity.
    + destruct (IH _ _ H) as (i0 & Hin & Ht & Hc). exists i0.
      split; [now right | auto].
Qed.

(** The insights a call returns are those of its two parts, with or
    without ids. *)
Lemma analyze_conversation_insights ls conversation uuids now i :
  i ∈ (analyze_conversation float_str ls conversation uuids now).1 ->
  exists i0,
    i0 ∈ quality_insights float_str conversation now
         ++ pattern_insights conversation now /\
    LearningInsight.insight_type i = LearningInsight.insight_type i0 /\
    LearningInsight.confidence i = LearningInsight.confidence i0.
Proof.
  unfold analyze_conversation.
  destruct (Str.truthy (Conversation.sales_id conversation)); simpl.
  - apply assign_ids_type.
  - intros H. exists i. auto.
Qed.

Lemma pattern_insights_type conversation now i :
  i ∈ pattern_insights conversation now ->
  LearningInsight.insight_type i = "pattern".
Proof.
  unfold pattern_insights. rewrite list_elem_of_In, in_map_iff.
  intros (issue & <- & _). reflexivity.
Qed.

(** The rule as the source applies it, for a score that is not zero. *)
Lemma feedback_rule_nonzero conversation now (score : Q) :
  Conversation.feedback_score conversation = Some score ->
  ~ (score == 0)%Q ->
  ((4.5 <= score)%Q ->
     exists i, quality_insights float_str conversation now = [i] /\
       LearningInsight.insight_type i = "strength" /\
       LearningInsight.confidence i = 0.9%Q) /\
  ((score <= 2.5)%Q ->
     exists i, quality_insights float_str conversation now = [i] /\
       LearningInsight.insight_type i = "improvement" /\
       LearningInsight.confidence i = 0.85%Q) /\
  ((2.5 < score)%Q -> (score < 4.5)%Q ->
     quality_insights float_str conversation now = []).
Proof.
  intros Hs Hnz. unfold quality_insights. rewrite Hs.
  assert (Ht : truthy_Q score = true).
  { unfold truthy_Q. apply negb_true_iff, not_true_iff_false.
    now rewrite Qeq_bool_iff. }
  rewrite Ht. split; [|split].
  - intros H. apply Qle_bool_iff in H. rewrite H. eexists. repeat split.
  - intros H.
    destruct (Qle_bool 4.5 score) eqn:E; [apply Qle_bool_iff in E; lra|].
    apply Qle_bool_iff in H. rewrite H. eexists. repeat split.
  - intros H1 H2.
    destruct (Qle_bool 4.5 score) eqn:E; [apply Qle_bool_iff in E; lra|].
    destruct (Qle_bool score 2.5) eqn:E'; [apply Qle_bool_iff in E'; lra|].
    reflexivity.
Qed.

(** C1, where the source departs from it: a conversation rated 0 has a
    feedback score, and the score is at most 2.5, yet no improvement
    insight is emitted: the feedback part gives nothing and every insight
    returned is a pattern. *)
Theorem zero_score_emits_no_improvement (ls : t) (conversation : Conversation.t)
    (uuids : nat -> string) (now : Z) (score : Q) :
  Conversation.feedback_score conversation = Some score ->
  (score == 0)%Q ->
  (score <= 2.5)%Q /\
  quality_insights float_str conversation now = [] /\
  forall i, i ∈ (analyze_conversation float_str ls conversation uuids now).1 ->
    LearningInsight.insight_type i = "pattern".
Proof.
  intros Hs Hz. split; [lra|].
  assert (Hq : quality_insights float_str conversation now = []).
  { unfold quality_insights. rewrite Hs. unfold truthy_Q.
    apply Qeq_bool_iff in Hz. now rewrite Hz. }
  split; [assumption|].
  intros i Hi. apply analyze_conversation_insights in Hi as (i0 & Hin & -> & _).
  rewrite Hq in Hin. now apply pattern_insights_type in Hin.
Qed.
End Claims.

(** C1, at work: the conversation [conv_3], rated 0. *)
Lemma zero_score_emits_no_improvement_witness :
  (analyze_conversation (fun _ => "0.0") (mk ∅ []) Demo.conv_zero
     (fun _ => "00000000") 0).1 = [].
Proof.
  destruct (zero_score_emits_no_improvement (fun _ => "0.0") (mk ∅ [])
              Demo.conv_zero (fun _ => "00000000") 0 0%Q eq_refl)
    as (_ & _ & H); [reflexivity|].
  destruct (analyze_conversation _ _ _ _ _).1 as [|i l] eqn:E; [reflexivity|].
  vm_compute in E. discriminate.
Defined.

End LearningSystemClaims.

(** ** conversation_engine.py: the scenario summary *)

Module ConversationEngineClaims.
Import ConversationEngine.

(** C8, where the source departs from it. The history of a subject loaded
    from the table lists the most recent conversation first, and
    [_build_context] takes the scenario of [history[-1]], the last of the
    list: with two conversations or more the summary is that of the oldest
    one loaded, not of the most recent. *)
Theorem scenario_summary_is_from_last :
  (forall (newest oldest : Conversation.t) (between : list Conversation.t)
          (request : ChatRequest.t),
     _build_context [] (newest :: between ++ [oldest]) request
     = "最近對話場景：" +:+ Str.format_opt (Conversation.scenario oldest)) /\
  (exists e',
     user_history Demo.engine "u1" 3000000 3000000
       = Ok ([Demo.conv_new; Demo.conv_old], e') /\
     Conversation.created_at Demo.conv_old < Conversation.created_at Demo.conv_new /\
     _build_context [] [Demo.conv_new; Demo.conv_old] Demo.request
     = "最近對話場景：cold call").
Proof.
  split.
  - intros newest oldest between request. unfold _build_context.
    change (newest :: between ++ [oldest]) with ((newest :: between) ++ [oldest]).
    rewrite last_snoc. reflexivity.
  - eexists. split; [vm_compute; reflexivity|]. split; [reflexivity|].
    vm_compute. reflexivity.
Qed.

End ConversationEngineClaims.

(** ** cache.py: further properties *)

Module CacheMore.
Import LRUCache LRUCacheFacts CacheOps CacheRunFacts.
Section More.
Context {V : Type}.
Implicit Types (c : LRUCache.t V) (k key : string).

(** What a [set] that returns leaves behind: the key holds the value,
    stamped with the time of the call, and the settings are as they were. *)
Lemma set_stores c key (value : V) now c' :
  wf c -> set c key value now = Ok c' ->
  PyDict.getitem key (cache c') = Some value /\
  timestamps c' !! key = Some now /\
  max_size c' = max_size c /\ ttl c' = ttl c.
Proof.
  intros [Hnd Hdom] Hset.
  destruct (PyDict.getitem key (cache c)) as [v|] eqn:Hv.
  - rewrite (set_present _ _ _ _ _ Hnd Hv) in Hset. inversion Hset; subst. simpl.
    rewrite lookup_insert_eq. repeat split.
    apply PyDictFacts.getitem_app_last. now apply PyDictFacts.not_elem_of_delitem.
  - apply PyDictFacts.getitem_None in Hv.
    destruct (Z.lt_ge_cases (Z.of_nat (length (cache c))) (max_size c)) as [Hlt|Hge].
    + rewrite (set_room _ _ _ _ Hv Hlt) in Hset. inversion Hset; subst. simpl.
      rewrite lookup_insert_eq. repeat split.
      now apply PyDictFacts.getitem_app_last.
    + destruct (cache c) as [|[lru v0] rest] eqn:Hc.
      * rewrite set_empty_full in Hset;
          [discriminate | assumption | simpl in Hge; lia].
      * rewrite (set_full c key value now lru v0 rest) in Hset;
          [|rewrite Hc; assumption..|assumption].
        inversion Hset; subst. simpl. rewrite lookup_insert_eq. repeat split.
        apply PyDictFacts.getitem_app_last.
        simpl in Hv. apply not_elem_of_cons in Hv. tauto.
Qed.

(** The size after a [set] that returns. *)
Lemma set_size c key (value : V) now c' :
  wf c -> set c key value now = Ok c' ->
  size c' = size c \/ (size c < max_size c /\ size c' = size c + 1).
Proof.
  intros [Hnd Hdom] Hset. unfold size.
  destruct (PyDict.getitem key (cache c)) as [v|] eqn:Hv.
  - rewrite (set_present _ _ _ _ _ Hnd Hv) in Hset. inversion Hset; subst. simpl.
    left. rewrite length_app. simpl.
    pose proof (PyDictFacts.length_delitem _ _ (PyDictFacts.getitem_Some_keys _ _ _ Hv)).
    lia.
  - apply PyDictFacts.getitem_None in Hv.
    destruct (Z.lt_ge_cases (Z.of_nat (length (cache c))) (max_size c)) as [Hlt|Hge].
    + rewrite (set_room _ _ _ _ Hv Hlt) in Hset. inversion Hset; subst. simpl.
      right. rewrite length_app. simpl. lia.
    + destruct (cache c) as [|[lru v0] rest] eqn:Hc.
      * rewrite set_empty_full in Hset;
          [discriminate | assumption | simpl in Hge; lia].
      * rewrite (set_full c key value now lru v0 rest) in Hset;
          [|rewrite Hc; assumption..|assumption].
        inversion Hset; subst. simpl. left. rewrite length_app. simpl. lia.
Qed.

Lemma get_size c key now r c' :
  wf c -> get c key now = Ok (r, c') ->
  size c' <= size c /\ max_size c' = max_size c /\ ttl c' = ttl c.
Proof.
  intros [Hnd Hdom] Hget. unfold size.
  destruct (get_cases c key now Hnd) as [[_ E]|[(Hin & _ & E)|(v & Hv & _ & E)]];
    rewrite E in Hget; inversion Hget; subst; clear Hget.
  - repeat split. lia.
  - rewrite (cache_delete_present _ _ Hin).
    pose proof (PyDictFacts.length_delitem _ _ Hin). repeat split. lia.
  - simpl. rewrite length_app. simpl.
    pose proof (PyDictFacts.length_delitem _ _ (PyDictFacts.getitem_Some_keys _ _ _ Hv)).
    repeat split. lia.
Qed.

(** What a hit leaves behind: the entry is still there. *)
Lemma get_hit_stored c key now (v : V) c1 :
  wf c -> get c key now = Ok (Some v, c1) ->
  wf c1 /\ PyDict.getitem key (cache c1) = Some v /\
  timestamps c1 = timestamps c /\ ttl c1 = ttl c.
Proof.
  intros Hwf Hget. split; [eapply wf_get; eassumption|].
  destruct Hwf as [Hnd Hdom].
  destruct (get_cases c key now Hnd) as [[_ E]|[(_ & _ & E)|(v0 & Hv & _ & E)]];
    rewrite E in Hget; inversion Hget; subst; clear Hget.
  simpl. repeat split.
  apply PyDictFacts.getitem_app_last. now apply PyDictFacts.not_elem_of_delitem.
Qed.

(** [get] returns on every cache, and [set] on every cache with room for
    an entry. *)
Lemma get_returns c key now :
  wf c -> exists r c', get c key now = Ok (r, c') /\ wf c' /\ max_size c' = max_size c.
Proof.
  intros Hwf. pose proof Hwf as [Hnd _].
  destruct (get_cases c key now Hnd) as [[_ E]|[(_ & _ & E)|(v & _ & _ & E)]];
    eexists _, _; (split; [exact E|]);
    (split; [eapply wf_get; [exact Hwf | exact E] | reflexivity]).
Qed.

Lemma set_returns c key (value : V) now :
  wf c -> 0 < max_size c -> exists c', set c key value now = Ok c'.
Proof.
  intros [Hnd Hdom] Hm.
  destruct (PyDict.getitem key (cache c)) as [v|] eqn:Hv.
  - eexists. now apply (set_present c key value now v).
  - apply PyDictFacts.getitem_None in Hv.
    destruct (Z.lt_ge_cases (Z.of_nat (length (cache c))) (max_size c)) as [Hlt|Hge].
    + eexists. now apply set_room.
    + destruct (cache c) as [|[lru v0] rest] eqn:Hc; [simpl in Hge; lia|].
      eexists. apply (set_full c key value now lru v0 rest);
        [rewrite Hc; assumption..|assumption].
Qed.

Lemma delete_size c key : size (delete c key) <= size c.
Proof.
  unfold size. destruct (cache_delete c key) as [->|[_ ->]]; [|lia].
  destruct (decide (key ∈ PyDict.keys (cache c))) as [Hin|Hn].
  - pose proof (PyDictFacts.length_delitem _ _ Hin). lia.
  - assert (E : PyDict.delitem key (cache c) = cache c).
    { clear -Hn. induction (cache c) as [|[k0 v0] d IH]; simpl; [reflexivity|].
      simpl in Hn. apply not_elem_of_cons in Hn as [Hne Hn].
      destruct (String.eqb_spec key k0); [congruence|]. now rewrite IH. }
    rewrite E. lia.
Qed.

Lemma step_bounded c o now c' (m t : Z) :
  wf c -> step c o now = Ok c' ->
  max_size c = m -> ttl c = t -> size c <= m ->
  wf c' /\ max_size c' = m /\ ttl c' = t /\ size c' <= m.
Proof.
  intros Hwf Hstep Hm Ht Hle. destruct o as [key|key value|key|]; simpl in Hstep.
  - destruct (get c key now) as [[r c1]|e] eqn:Hget; simpl in Hstep; [|discriminate].
    inversion Hstep; subst c1. destruct (get_size _ _ _ _ _ Hwf Hget) as (H1 & H2 & H3).
    split; [eapply wf_get; eassumption|]. repeat split; lia.
  - destruct (set_stores _ _ _ _ _ Hwf Hstep) as (_ & _ & H2 & H3).
    split; [eapply wf_set; eassumption|].
    destruct (set_size _ _ _ _ _ Hwf Hstep) as [H|[H H']]; repeat split; lia.
  - inversion Hstep; subst. split; [now apply wf_delete|].
    pose proof (delete_size c key). repeat split; simpl; lia.
  - inversion Hstep; subst. split; [apply wf_clear|].
    repeat split; unfold size in *; simpl; lia.
Qed.

Lemma run_bounded ops : forall c stamp n c' stamp' (m t : Z),
  wf c -> run c stamp n ops = Ok (c', stamp') ->
  max_size c = m -> ttl c = t -> size c <= m ->
  wf c' /\ max_size c' = m /\ ttl c' = t /\ size c' <= m.
Proof.
  induction ops as [|[o now] ops IH]; intros c stamp n c' stamp' m t Hwf Hrun Hm Ht Hle;
    simpl in Hrun.
  - inversion Hrun; subst. auto.
  - destruct (step c o now) as [c1|e] eqn:Hstep; simpl in Hrun; [|discriminate].
    destruct (step_bounded _ _ _ _ m t Hwf Hstep Hm Ht Hle) as (H1 & H2 & H3 & H4).
    eapply IH; eassumption.
Qed.

Lemma run_empty ops : forall c stamp n c' stamp',
  cache c = [] -> max_size c <= 0 ->
  run c stamp n ops = Ok (c', stamp') ->
  cache c' = [] /\ max_size c' = max_size c.
Proof.
  induction ops as [|[o now] ops IH]; intros c stamp n c' stamp' Hc Hm Hrun;
    simpl in Hrun.
  - inversion Hrun; subst. auto.
  - destruct (step c o now) as [c1|e] eqn:Hstep; simpl in Hrun; [|discriminate].
    assert (H1 : cache c1 = [] /\ max_size c1 = max_size c).
    { destruct o as [key|key value|key|]; simpl in Hstep.
      - unfold get, PyDict.contains in Hstep. rewrite Hc in Hstep. simpl in Hstep.
        inversion Hstep; subst. auto.
      - rewrite set_empty_full in Hstep by assumption. discriminate.
      - inversion Hstep; subst. unfold delete, PyDict.contains. rewrite Hc. auto.
      - inversion Hstep; subst. auto. }
    destruct H1 as [H1 H2].
    destruct (IH _ _ _ _ _ H1 ltac:(lia) Hrun) as [H3 H4]. split; [assumption | lia].
Qed.

End More.

(** X1. A cache built with a capacity that is not negative never holds
    more entries than its capacity, whatever operations are applied to it;
    its capacity and its TTL never change. *)
Theorem size_never_exceeds_capacity {V : Type} (m t : Z) (ops : list (op V * Z))
    (c : LRUCache.t V) (stamp : gmap string nat) :
  0 <= m ->
  run (init m t) ∅ 0 ops = Ok (c, stamp) ->
  size c <= m /\ max_size c = m /\ ttl c = t.
Proof.
  intros Hm Hrun.
  destruct (run_bounded ops _ _ _ _ _ m t (wf_init m t) Hrun eq_refl eq_refl)
    as (_ & H1 & H2 & H3); [unfold size; simpl; lia | auto].
Qed.

Lemma size_never_exceeds_capacity_witness :
  match run (init 2 3600) ∅ 0
          [(OpSet "a" 1, 0); (OpSet "b" 2, 1); (OpSet "c" 3, 2); (OpSet "d" 4, 3)]
  with
  | Ok (c, _) => size c <= 2 /\ max_size c = 2 /\ ttl c = 3600
  | Raise _ => False
  end.
Proof.
  destruct (run _ _ _ _) as [[c stamp]|e] eqn:E.
  - refine (size_never_exceeds_capacity 2 3600 _ c stamp _ E). lia.
  - vm_compute in E. discriminate E.
Defined.

(** X2. A value that [set] has stored is what [get] returns for the key, as
    long as the read comes no later than [ttl] seconds after the write. *)
Theorem get_after_set {V : Type} (c : LRUCache.t V) (key : string) (value : V)
    (now later : Z) (c' : LRUCache.t V) :
  wf c ->
  set c key value now = Ok c' ->
  later - now <= ttl c * 1000000 ->
  exists c'', get c' key later = Ok (Some value, c'').
Proof.
  intros Hwf Hset Hlate.
  destruct (set_stores _ _ _ _ _ Hwf Hset) as (Hv & Hts & _ & Httl).
  pose proof (wf_set _ _ _ _ _ Hwf Hset) as [Hnd _].
  eexists. apply get_fresh; [assumption..|].
  unfold expired, ttl_delta. rewrite Hts, Httl. apply Z.ltb_ge. lia.
Qed.

Lemma get_after_set_witness :
  exists c'' : LRUCache.t Z,
    get (mk 2 3600 [("a", 7)] (<["a" := 0]> ∅)) "a" 1000000 = Ok (Some 7, c'').
Proof.
  apply (get_after_set (init 2 3600) "a" 7 0 1000000);
    [apply wf_init | reflexivity | simpl; lia].
Defined.

(** X3. [set] of a key the cache already holds replaces its value and its
    timestamp and makes it the most recently used; nothing is evicted, even
    from a full cache: the size and every other entry stay as they were. *)
Theorem set_present_key_overwrites {V : Type} (c : LRUCache.t V) (key : string)
    (old value : V) (now : Z) :
  wf c ->
  PyDict.getitem key (cache c) = Some old ->
  exists c',
    set c key value now = Ok c' /\
    cache c' = PyDict.delitem key (cache c) ++ [(key, value)] /\
    timestamps c' = <[key := now]> (timestamps c) /\
    size c' = size c /\
    forall k, k <> key ->
      PyDict.getitem k (cache c') = PyDict.getitem k (cache c).
Proof.
  intros [Hnd Hdom] Hold. eexists. split; [now apply (set_present c key value now old)|].
  simpl. split; [reflexivity|]. split; [reflexivity|]. split.
  - unfold size. simpl. rewrite length_app. simpl.
    pose proof (PyDictFacts.length_delitem _ _ (PyDictFacts.getitem_Some_keys _ _ _ Hold)).
    lia.
  - intros k Hne. rewrite PyDictFacts.getitem_app_ne by assumption.
    now apply PyDictFacts.getitem_delitem_ne.
Qed.

Lemma set_present_key_overwrites_witness :
  exists c' : LRUCache.t Z,
    set (mk 1 3600 [("a", 1)] (<["a" := 0]> ∅)) "a" 2 5 = Ok c' /\
    cache c' = [("a", 2)] /\ size c' = 1.
Proof.
  destruct (set_present_key_overwrites
              (mk 1 3600 [("a", 1)] (<["a" := 0]> ∅)) "a" 1 2 5)
    as (c' & H1 & H2 & _ & H3 & _).
  - eapply (wf_set (init 1 3600) "a" 1 0); [apply wf_init | reflexivity].
  - reflexivity.
  - exists c'. split; [exact H1|]. split; [exact H2 | exact H3].
Defined.

(** X4. After [delete] the key is a miss; the other entries are as they
    were; and [delete] of a key the cache does not hold changes nothing. *)
Theorem delete_removes_only_the_key {V : Type} (c : LRUCache.t V) (key : string)
    (now : Z) :
  wf c ->
  get (delete c key) key now = Ok (None, delete c key) /\
  (forall k, k <> key ->
     PyDict.getitem k (cache (delete c key)) = PyDict.getitem k (cache c) /\
     timestamps (delete c key) !! k = timestamps c !! k) /\
  (PyDict.getitem key (cache c) = None -> delete c key = c).
Proof.
  intros Hwf. pose proof Hwf as [Hnd Hdom]. split; [|split].
  - apply get_absent.
    destruct (cache_delete c key) as [->|[Hn ->]]; [|assumption].
    now apply PyDictFacts.not_elem_of_delitem.
  - intros k Hne. split.
    + destruct (cache_delete c key) as [->|[_ ->]]; [|reflexivity].
      now apply PyDictFacts.getitem_delitem_ne.
    + simpl. apply lookup_delete_ne. congruence.
  - intros Hnone. apply PyDictFacts.getitem_None in Hnone.
    unfold delete. apply PyDictFacts.contains_false in Hnone as Hc. rewrite Hc.
    assert (Hts : timestamps c !! key = None).
    { destruct (timestamps c !! key) eqn:E; [|reflexivity].
      exfalso. apply Hnone, Hdom. eauto. }
    rewrite delete_id by assumption. now destruct c.
Qed.

Lemma delete_removes_only_the_key_witness :
  get (delete (mk 2 3600 [("a", 1)] (<["a" := 0]> ∅)) "a") "a" 1 =
    Ok (None, delete (mk 2 3600 [("a", 1)] (<["a" := 0]> ∅)) "a").
Proof.
  apply (delete_removes_only_the_key (mk 2 3600 [("a", 1)] (<["a" := 0]> ∅)) "a" 1).
  eapply (wf_set (init 2 3600) "a" 1 0); [apply wf_init | reflexivity].
Defined.

(** X5. A cache built with a capacity of zero or less never stores
    anything: every [set] raises [StopIteration] (from [next(iter(...))] on
    the empty dictionary) and the cache stays empty. *)
Theorem zero_capacity_cache_raises {V : Type} (m t : Z) (ops : list (op V * Z))
    (c : LRUCache.t V) (stamp : gmap string nat) :
  m <= 0 ->
  run (init m t) ∅ 0 ops = Ok (c, stamp) ->
  cache c = [] /\
  forall key value now, set c key value now = Raise StopIteration.
Proof.
  intros Hm Hrun.
  destruct (run_empty ops (init m t) ∅ 0%nat c stamp eq_refl Hm Hrun) as [Hc Hmax].
  split; [assumption|]. intros key value now.
  apply set_empty_full; [assumption | simpl in Hmax; lia].
Qed.

Lemma zero_capacity_cache_raises_witness :
  set (init 0 3600 : LRUCache.t Z) "a" 1 0 = Raise StopIteration.
Proof.
  apply (zero_capacity_cache_raises 0 3600 [] (init 0 3600) ∅); [lia | reflexivity].
Defined.

End CacheMore.

Module CacheDecoratorFacts.
Import LRUCache LRUCacheFacts CacheDecorator.

(** X6. Once a call of a decorated function has returned a value other than
    [None], a later call with the same key, made before the entry expires,
    returns that value from the cache: the function is not run and the
    state is not touched. *)
Theorem cached_call_is_served_from_cache {A S : Type} (c c1 : LRUCache.t (option A))
    (key : string) (f g : S -> result (option A * S)) (s s1 s2 : S) (a : A)
    (now now' later later' : Z) :
  wf c ->
  cached (Some c) key f s now now' = Ok (Some a, s1, Some c1) ->
  expired c1 key later = false ->
  exists c2, cached (Some c1) key g s2 later later' = Ok (Some a, s2, Some c2).
Proof.
  intros Hwf Hcall Hfresh. pose proof Hwf as [Hnd Hdom].
  assert (Hc1 : wf c1 /\ PyDict.getitem key (cache c1) = Some (Some a)).
  { unfold cached in Hcall.
    destruct (get_cases c key now Hnd) as [[_ E]|[(_ & _ & E)|(v & Hv & _ & E)]];
      rewrite E in Hcall; cbn [mbind result_bind] in Hcall.
    - destruct (f s) as [[r s']|e]; cbn [mbind result_bind] in Hcall; [|discriminate].
      destruct (set c key r now') as [c2|e] eqn:Hset;
        cbn [mbind result_bind] in Hcall; [|discriminate].
      inversion Hcall; subst. split; [eapply wf_set; eassumption|].
      now destruct (CacheMore.set_stores _ _ _ _ _ Hwf Hset).
    - destruct (f s) as [[r s']|e]; cbn [mbind result_bind] in Hcall; [|discriminate].
      destruct (set (delete c key) key r now') as [c2|e] eqn:Hset;
        cbn [mbind result_bind] in Hcall; [|discriminate].
      inversion Hcall; subst. pose proof (wf_delete _ key Hwf) as Hwf'.
      split; [eapply wf_set; eassumption|].
      now destruct (CacheMore.set_stores _ _ _ _ _ Hwf' Hset).
    - assert (Hwf' : wf (mk (max_size c) (ttl c)
                           (PyDict.delitem key (cache c) ++ [(key, v)]) (timestamps c)))
        by (eapply wf_get; eassumption).
      destruct v as [a0|].
      + inversion Hcall; subst. split; [assumption|]. simpl.
        apply PyDictFacts.getitem_app_last. now apply PyDictFacts.not_elem_of_delitem.
      + destruct (f s) as [[r s']|e]; cbn [mbind result_bind] in Hcall; [|discriminate].
        match type of Hcall with context [set ?c0 key r now'] =>
          destruct (set c0 key r now') as [c2|e] eqn:Hset end;
          cbn [mbind result_bind] in Hcall; [|discriminate].
        inversion Hcall; subst. split; [eapply wf_set; eassumption|].
        now destruct (CacheMore.set_stores _ _ _ _ _ Hwf' Hset). }
  destruct Hc1 as [[Hnd1 _] Hv1]. eexists. unfold cached.
  rewrite (get_fresh c1 key later (Some a) Hnd1 Hv1 Hfresh). reflexivity.
Qed.

Lemma cached_call_is_served_from_cache_witness :
  exists c2 : LRUCache.t (option Z),
    cached (Some (mk 2 3600 [("k", Some 7)] (<["k" := 5]> ∅))) "k"
      (fun s : Z => Raise LLMError) 0 10 11 = Ok (Some 7, 0, Some c2).
Proof.
  apply (cached_call_is_served_from_cache (init 2 3600) _ "k"
           (fun s : Z => Ok (Some 7, s + 1)) _ 0 1 0 7 4 5 10 11);
    [apply wf_init | reflexivity | reflexivity].
Defined.

(** X7. A result [None] is stored but never served: while the cache holds
    [None] for the key, a call runs the function again, returns what it
    returns and stores that in place of the [None]. *)
Theorem cached_none_is_recomputed {A S : Type} (c : LRUCache.t (option A))
    (key : string) (g : S -> result (option A * S)) (s s' : S) (r : option A)
    (now now' : Z) :
  wf c -> size c <= max_size c ->
  PyDict.getitem key (cache c) = Some None ->
  g s = Ok (r, s') ->
  exists c2,
    cached (Some c) key g s now now' = Ok (r, s', Some c2) /\
    PyDict.getitem key (cache c2) = Some r.
Proof.
  intros Hwf Hsize Hv Hg. pose proof Hwf as [Hnd Hdom].
  pose proof (PyDictFacts.getitem_Some_keys _ _ _ Hv) as Hin.
  unfold cached.
  destruct (get_cases c key now Hnd) as [[Hn _]|[(_ & _ & E)|(v & Hv' & _ & E)]];
    [contradiction | |]; rewrite E; cbn [mbind result_bind]; rewrite ?Hg;
    cbn [mbind result_bind].
  - pose proof (wf_delete _ key Hwf) as Hwf'.
    assert (Hset : set (delete c key) key r now' =
              Ok (mk (max_size (delete c key)) (ttl (delete c key))
                     (cache (delete c key) ++ [(key, r)])
                     (<[key := now']> (timestamps (delete c key))))).
    { apply set_room.
      - rewrite (cache_delete_present _ _ Hin). now apply PyDictFacts.not_elem_of_delitem.
      - rewrite (cache_delete_present _ _ Hin).
        pose proof (PyDictFacts.length_delitem _ _ Hin). unfold size in Hsize.
        change (max_size (delete c key)) with (max_size c). lia. }
    rewrite Hset. cbn [mbind result_bind]. eexists. split; [reflexivity|].
    now destruct (CacheMore.set_stores _ _ _ _ _ Hwf' Hset).
  - rewrite Hv in Hv'. inversion Hv'; subst v.
    assert (Hwf' : wf (mk (max_size c) (ttl c)
                         (PyDict.delitem key (cache c) ++ [(key, None)]) (timestamps c)))
      by (eapply wf_get; eassumption).
    match goal with |- context [set ?c0 key r now'] =>
      destruct (set c0 key r now') as [c2|e] eqn:Hset end.
    + cbn [mbind result_bind]. eexists. split; [reflexivity|].
      now destruct (CacheMore.set_stores _ _ _ _ _ Hwf' Hset).
    + exfalso. destruct Hwf' as [Hnd' _].
      rewrite (set_present _ key r now' None Hnd') in Hset; [discriminate|].
      simpl. apply PyDictFacts.getitem_app_last.
      now apply PyDictFacts.not_elem_of_delitem.
Qed.

Lemma cached_none_is_recomputed_witness :
  exists c2 : LRUCache.t (option Z),
    cached (Some (mk 1 3600 [("k", None)] (<["k" := 5]> ∅))) "k"
      (fun s : Z => Ok (Some 7, s + 1)) 0 10 11 = Ok (Some 7, 1, Some c2) /\
    PyDict.getitem "k" (cache c2) = Some (Some 7).
Proof.
  apply (cached_none_is_recomputed (mk 1 3600 [("k", None)] (<["k" := 5]> ∅)) "k"
           (fun s : Z => Ok (Some 7, s + 1)) 0 1 (Some 7) 10 11).
  - eapply (wf_set (init 1 3600) "k" None 5); [apply wf_init | reflexivity].
  - vm_compute. discriminate.
  - reflexivity.
  - reflexivity.
Defined.

End CacheDecoratorFacts.

(** ** knowledge_base.py: further properties *)

Module KnowledgeBaseMore.
Import KnowledgeBase KnowledgeBaseFacts.

(** The ids [get_by_tags] collects. *)
Lemma elem_of_content_ids (index : gmap string (list string)) tags :
  forall (acc : gset string) cid,
    cid ∈ foldl (fun ids tag =>
                   match index !! tag with
                   | Some l => ids ∪ list_to_set l
                   | None => ids
                   end) acc tags <->
    cid ∈ acc \/ exists tag, tag ∈ tags /\ cid ∈ default [] (index !! tag).
Proof.
  induction tags as [|t tags IH]; intros acc cid; simpl.
  - split; [now left|]. intros [H|(tag & Hin & _)]; [assumption|].
    now apply elem_of_nil in Hin.
  - rewrite IH. destruct (index !! t) as [l|] eqn:E.
    + rewrite elem_of_union, elem_of_list_to_set. split.
      * intros [[H|H]|(tag & Hin & H)].
        -- now left.
        -- right. exists t. rewrite E. split; [apply elem_of_cons; now left | exact H].
        -- right. exists tag. split; [apply elem_of_cons; now right | exact H].
      * intros [H|(tag & Hin & H)]; [now left; left|].
        apply elem_of_cons in Hin as [->|Hin].
        -- rewrite E in H. left; right; exact H.
        -- right. eauto.
    + split.
      * intros [H|(tag & Hin & H)]; [now left|].
        right. exists tag. split; [apply elem_of_cons; now right | exact H].
      * intros [H|(tag & Hin & H)]; [now left|].
        apply elem_of_cons in Hin as [->|Hin].
        -- rewrite E in H. now apply elem_of_nil in H.
        -- right. eauto.
Qed.

Lemma elem_of_get_by_tags w tags r :
  r ∈ get_by_tags w tags <->
  exists cid tag,
    tag ∈ tags /\ cid ∈ default [] (search_index w !! tag) /\
    PyDict.getitem cid (contents w) = Some r.
Proof.
  unfold get_by_tags. rewrite list_elem_of_omap. split.
  - intros (cid & Hin & Hg). apply elem_of_elements, elem_of_content_ids in Hin.
    destruct Hin as [H|(tag & Hin & H)]; [now apply elem_of_empty in H|].
    exists cid, tag. auto.
  - intros (cid & tag & Hin & H & Hg). exists cid. split; [|assumption].
    apply elem_of_elements, elem_of_content_ids. right. eauto.
Qed.

(** The index update of [_load_from_database]. *)
Lemma elem_of_index_tags_once content_id tags : forall index tag i,
  i ∈ default [] (foldl (index_tag_once content_id) index tags !! tag) <->
  i ∈ default [] (index !! tag) \/ (i = content_id /\ tag ∈ tags).
Proof.
  induction tags as [|t tags IH]; intros index tag i; simpl.
  - split; [now left|]. intros [H|[_ H]]; [assumption | now apply elem_of_nil in H].
  - rewrite IH, elem_of_cons. unfold index_tag_once.
    destruct (decide (t = tag)) as [->|Hne].
    + destruct (bool_decide (content_id ∈ default [] (index !! tag))) eqn:E.
      * apply bool_decide_eq_true in E. rewrite lookup_insert_eq. simpl. split.
        -- intros [H|[H1 H2]]; [now left | right; auto].
        -- intros [H|[-> [H2|H2]]]; [now left | now left | right; auto].
      * rewrite lookup_insert_eq. simpl.
        rewrite elem_of_app, list_elem_of_singleton. tauto.
    + assert (E : forall l : list string, <[t := l]> index !! tag = index !! tag)
        by (intros l; now apply lookup_insert_ne).
      destruct (bool_decide _); rewrite E; split.
      * intros [H|[H1 H2]]; [now left | right; auto].
      * intros [H|[H1 [H2|H2]]]; [now left | congruence | right; auto].
      * intros [H|[H1 H2]]; [now left | right; auto].
      * intros [H|[H1 [H2|H2]]]; [now left | congruence | right; auto].
Qed.

(** Filing a new object under an id the mirror does not hold, and listing
    the id under its tags, keeps the mirror and the index in step. *)
Lemma filed_new_id w cid c index' tbl :
  refs_ok w -> index_consistent w ->
  cid ∉ PyDict.keys (contents w) ->
  (forall tag i,
     i ∈ default [] (index' !! tag) <->
     i ∈ default [] (search_index w !! tag) \/
     (i = cid /\ tag ∈ TrainingContent.tags c)) ->
  let w' := mk (<[next_object w := c]> (objects w)) (S (next_object w))
               (PyDict.setitem cid (next_object w) (contents w))
               index' tbl (cache w) in
  refs_ok w' /\ index_consistent w'.
Proof.
  intros Hrefs Hcons Hnew Hindex w'.
  assert (Hcontents : forall i,
            PyDict.getitem i (PyDict.setitem cid (next_object w) (contents w))
            = if decide (i = cid) then Some (next_object w)
              else PyDict.getitem i (contents w)).
  { intros i. destruct (decide (i = cid)) as [->|Hne].
    - apply PyDictFacts.getitem_setitem_eq.
    - now apply PyDictFacts.getitem_setitem_ne. }
  split.
  - intros i r. cbn. rewrite Hcontents. destruct (decide (i = cid)).
    + intros H. inversion H. lia.
    + intros H. apply Hrefs in H. lia.
  - intros tag i. cbn. rewrite Hindex, Hcontents.
    destruct (decide (i = cid)) as [->|Hne].
    + split.
      * intros [H|[_ H]].
        -- exfalso. apply Hnew. apply Hcons in H as (r & c0 & Hr & _).
           eapply PyDictFacts.getitem_Some_keys. exact Hr.
        -- eexists _, _. split; [reflexivity|]. rewrite lookup_insert_eq.
           split; [reflexivity | exact H].
      * intros (r & c0 & Hr & Hc & Ht). inversion Hr; subst r.
        rewrite lookup_insert_eq in Hc. inversion Hc; subst c0. right. auto.
    + split.
      * intros [H|[H _]]; [|exfalso; exact (Hne H)].
        apply Hcons in H as (r & c0 & Hr & Hc & Ht). exists r, c0.
        split; [assumption|]. split; [|assumption].
        rewrite lookup_insert_ne; [assumption|]. apply Hrefs in Hr. lia.
      * intros (r & c0 & Hr & Hc & Ht). left. apply Hcons. exists r, c0.
        split; [assumption|]. split; [|assumption].
        rewrite lookup_insert_ne in Hc; [assumption|]. apply Hrefs in Hr. lia.
Qed.

Lemma of_row_tags row usage c :
  of_row row usage = Ok c ->
  TrainingContent.tags c = or_list (TrainingContentModel.tags row) [] /\
  TrainingContent.content_type c = TrainingContentModel.content_type row /\
  TrainingContent.id c = Some (TrainingContentModel.id row).
Proof.
  unfold of_row.
  destruct (validate_text 200 _) as [title|e]; cbn [mbind result_bind]; [|discriminate].
  destruct (validate_text 10000 _) as [content|e]; cbn [mbind result_bind];
    [|discriminate].
  destruct (validate_text 100 _) as [created_by|e]; cbn [mbind result_bind];
    [|discriminate].
  destruct (20 <? length _)%nat; [discriminate|].
  destruct usage as [usage_count|]; [|discriminate].
  destruct (usage_count <? 0); [discriminate|].
  destruct (negb _); [discriminate|].
  intros H. inversion H; subst. auto.
Qed.

Lemma load_row_state w row c :
  of_row row (Some (or_Z (TrainingContentModel.usage_count row) 0)) = Ok c ->
  load_row w row =
  Ok (mk (<[next_object w := c]> (objects w))
         (S (next_object w))
         (PyDict.setitem (TrainingContentModel.id row) (next_object w) (contents w))
         (foldl (index_tag_once (TrainingContentModel.id row)) (search_index w)
            (TrainingContent.tags c))
         (table w) (cache w)).
Proof. intros H. unfold load_row. rewrite H. reflexivity. Qed.

Lemma load_row_raises w row e :
  of_row row (Some (or_Z (TrainingContentModel.usage_count row) 0)) = Raise e ->
  load_row w row = Raise e.
Proof. intros H. unfold load_row. rewrite H. reflexivity. Qed.

Lemma loaded_nil tbl c0 : loaded [] (mk ∅ 0 [] ∅ tbl c0).
Proof.
  repeat split.
  - intros i r H. discriminate H.
  - intros H. now apply elem_of_nil in H.
  - intros (r & c & H & _). discriminate H.
  - intros row H. now apply elem_of_nil in H.
Qed.

(** The loop of [_load_from_database] loads the rows up to the first one
    that fails validation. *)
Lemma load_rows_loaded rows : forall w done,
  loaded done w ->
  NoDup (map TrainingContentModel.id (done ++ rows)) ->
  exists more rest,
    rows = more ++ rest /\
    loaded (done ++ more) (load_rows w rows) /\
    match rest with
    | [] => True
    | row :: _ =>
        exists e,
          of_row row (Some (or_Z (TrainingContentModel.usage_count row) 0)) = Raise e
    end.
Proof.
  induction rows as [|row rows IH]; intros w done Hl Hnd.
  - exists [], []. split; [reflexivity|]. rewrite app_nil_r. cbn [load_rows]. auto.
  - cbn [load_rows].
    destruct (of_row row (Some (or_Z (TrainingContentModel.usage_count row) 0)))
      as [c|e] eqn:Hc.
    + rewrite (load_row_state w row c Hc).
      destruct Hl as (Hrefs & Hcons & Hkeys & Hrows).
      assert (Hnew : TrainingContentModel.id row ∉ PyDict.keys (contents w)).
      { rewrite Hkeys. rewrite map_app in Hnd. apply NoDup_app in Hnd as (_ & Hne & _).
        intros H. apply (Hne _ H). simpl. apply elem_of_cons. now left. }
      destruct (filed_new_id w (TrainingContentModel.id row) c
                  (foldl (index_tag_once (TrainingContentModel.id row)) (search_index w)
                     (TrainingContent.tags c))
                  (table w) Hrefs Hcons Hnew) as [Hrefs' Hcons'].
      { intros tag i. apply elem_of_index_tags_once. }
      set (w' := mk _ _ _ _ _ _) in *.
      destruct (IH w' (done ++ [row])) as (more & rest & -> & Hl' & Hrest).
      * split; [exact Hrefs'|]. split; [exact Hcons'|]. subst w'.
        cbn [contents objects]. split.
        -- rewrite (PyDictFacts.setitem_absent _ _ _ Hnew), PyDictFacts.keys_app, Hkeys,
             map_app. reflexivity.
        -- intros row' Hin. apply elem_of_app in Hin as [Hin|Hin].
           ++ destruct (Hrows _ Hin) as (r & c' & Hc' & Hr & Ho). exists r, c'.
              assert (Hid : TrainingContentModel.id row' <> TrainingContentModel.id row).
              { intros E. apply Hnew. rewrite Hkeys, <- E.
                apply list_elem_of_fmap. eauto. }
              split; [assumption|].
              rewrite PyDictFacts.getitem_setitem_ne by assumption.
              split; [assumption|]. rewrite lookup_insert_ne; [assumption|].
              apply Hrefs in Hr. lia.
           ++ apply list_elem_of_singleton in Hin. subst row'.
              exists (next_object w), c.
              rewrite PyDictFacts.getitem_setitem_eq, lookup_insert_eq. auto.
      * rewrite <- app_assoc. exact Hnd.
      * exists (row :: more), rest. rewrite <- app_assoc in Hl'. auto.
    + rewrite (load_row_raises w row e Hc). exists [], (row :: rows).
      split; [reflexivity|]. rewrite app_nil_r. split; [assumption|]. eauto.
Qed.

Lemma loaded_init rows tbl c0 :
  NoDup (map TrainingContentModel.id rows) ->
  exists more rest,
    rows = more ++ rest /\
    loaded more (init rows tbl c0) /\
    match rest with
    | [] => True
    | row :: _ =>
        exists e,
          of_row row (Some (or_Z (TrainingContentModel.usage_count row) 0)) = Raise e
    end.
Proof.
  intros Hnd. exact (load_rows_loaded rows _ [] (loaded_nil tbl c0) Hnd).
Qed.

(** X8. With the tag index in step with the mirror, [get_by_tags] returns
    exactly the mirrored items that carry one of the given tags. *)
Theorem get_by_tags_returns_the_tagged (w : t) (tags : list string) (r : nat) :
  index_consistent w ->
  (r ∈ get_by_tags w tags <->
   exists i c tag,
     tag ∈ tags /\
     PyDict.getitem i (contents w) = Some r /\
     objects w !! r = Some c /\
     tag ∈ TrainingContent.tags c).
Proof.
  intros Hcons. rewrite elem_of_get_by_tags. split.
  - intros (cid & tag & Hin & H & Hg).
    apply Hcons in H as (r' & c & Hr' & Hc & Ht).
    rewrite Hg in Hr'. inversion Hr'; subst r'. exists cid, c, tag. auto.
  - intros (i & c & tag & Hin & Hg & Hc & Ht). exists i, tag.
    split; [assumption|]. split; [|assumption]. apply Hcons. eauto.
Qed.

Lemma get_by_tags_returns_the_tagged_witness :
  0%nat ∈ get_by_tags Demo.kb_tagged ["closing"; "pricing"].
Proof.
  apply (get_by_tags_returns_the_tagged Demo.kb_tagged ["closing"; "pricing"] 0%nat).
  - apply (add_content_new_id Demo.kb0 Demo.tagged "c3").
    + apply (loaded_nil ∅ _).
    + apply (loaded_nil ∅ _).
    + intros H. now apply elem_of_nil in H.
  - exists "kb_c3", Demo.tagged, "pricing".
    split; [apply elem_of_cons; right; apply elem_of_cons; now left|].
    split; [reflexivity|]. split; [reflexivity|].
    apply elem_of_cons. now left.
Defined.

(** X9. A knowledge base loaded from rows with distinct ids holds in
    memory the rows that come before the first one that fails validation
    (all of them when none fails), in their order, each as
    [TrainingContent(...)] builds it; its tag index is in step with the
    mirror, and lists the id of each loaded row under each of its tags. The
    rows from the first failing one on are not loaded. *)
Theorem load_mirrors_and_indexes_rows (rows : list TrainingContentModel.t)
    (tbl : gmap string TrainingContentModel.t)
    (c0 : option (LRUCache.t (list nat))) :
  NoDup (map TrainingContentModel.id rows) ->
  let w := init rows tbl c0 in
  index_consistent w /\
  exists loaded_rows rest,
    rows = loaded_rows ++ rest /\
    PyDict.keys (contents w) = map TrainingContentModel.id loaded_rows /\
    (forall row, row ∈ loaded_rows ->
       exists r c,
         of_row row (Some (or_Z (TrainingContentModel.usage_count row) 0)) = Ok c /\
         get_content w (TrainingContentModel.id row) = Ok (Some r, w) /\
         objects w !! r = Some c /\
         forall tag, tag ∈ or_list (TrainingContentModel.tags row) [] ->
           TrainingContentModel.id row ∈ default [] (search_index w !! tag)) /\
    match rest with
    | [] => True
    | row :: _ =>
        exists e,
          of_row row (Some (or_Z (TrainingContentModel.usage_count row) 0)) = Raise e
    end.
Proof.
  intros Hnd w.
  destruct (loaded_init rows tbl c0 Hnd)
    as (more & rest & Hrows & (_ & Hcons & Hkeys & Hall) & Hrest).
  fold w in Hcons, Hkeys, Hall.
  split; [assumption|]. exists more, rest.
  split; [assumption|]. split; [assumption|]. split; [|assumption].
  intros row Hin. destruct (Hall row Hin) as (r & c & Hc & Hr & Ho). exists r, c.
  split; [assumption|]. split; [now apply get_content_mirrored|].
  split; [assumption|]. intros tag Htag. apply Hcons. exists r, c.
  split; [assumption|]. split; [assumption|].
  destruct (of_row_tags _ _ _ Hc) as (-> & _). exact Htag.
Qed.

(** X9, at work: the title of the first row is stripped; the second row
    has a negative usage count and ends the loading, so the third row is
    not loaded. *)
Lemma load_mirrors_and_indexes_rows_witness :
  let padded :=
    TrainingContentModel.mk "kb_p1" " Discounts " "when to offer one"
      ContentType.BEST_PRACTICE (Some ["pricing"]) "trainer" 0 None None in
  let refused :=
    TrainingContentModel.mk "kb_p2" "Closing" "how to close"
      ContentType.BEST_PRACTICE None "trainer" 0 (Some (-1)) None in
  let w := init [padded; refused; Demo.row_c3] ∅ None in
  index_consistent w /\
  PyDict.keys (contents w) = ["kb_p1"] /\
  TrainingContent.title <$> deref w (PyDict.values (contents w)) = ["Discounts"].
Proof.
  intros padded refused w. split.
  - apply (load_mirrors_and_indexes_rows [padded; refused; Demo.row_c3] ∅ None).
    simpl. repeat constructor; rewrite ?elem_of_cons, ?elem_of_nil;
      intros H; repeat destruct H as [H|H]; try discriminate H; exact H.
  - split; vm_compute; reflexivity.
Defined.

End KnowledgeBaseMore.

Module KnowledgeBaseSearch.
Import KnowledgeBase KnowledgeBaseFacts KnowledgeBaseMore.

(** The id [add_content] files an item under: its own when it has one
    that is not empty, else a new one. *)
Lemma add_content_id w content uuid :
  (add_content w content uuid).1 =
  match TrainingContent.id content with
  | Some i => if Str.truthy i then i else "kb_" +:+ uuid
  | None => "kb_" +:+ uuid
  end.
Proof. unfold add_content. cbn [alloc]. destruct (table _ !! _); reflexivity. Qed.

(** X10. [get_content] of the id that [add_content] returned gives the
    item that was added, carrying that id, from the mirror and without a
    change of state; the id is never the empty string. *)
Theorem add_content_then_get_content (w : t) (content : TrainingContent.t)
    (uuid : string) :
  let cid := (add_content w content uuid).1 in
  let w' := (add_content w content uuid).2 in
  cid <> "" /\
  exists r,
    get_content w' cid = Ok (Some r, w') /\
    objects w' !! r = Some (TrainingContent.with_id content cid) /\
    TrainingContent.id (TrainingContent.with_id content cid) = Some cid.
Proof.
  intros cid w'. split.
  - subst cid. rewrite add_content_id.
    destruct (TrainingContent.id content) as [i|]; [|discriminate].
    destruct (Str.truthy i) eqn:Ht; [|discriminate].
    intros ->. discriminate Ht.
  - destruct (add_content_state w content uuid) as [tbl E].
    fold cid in E. fold w' in E. exists (next_object w). rewrite E.
    split; [|split; [cbn [objects]; apply lookup_insert_eq | reflexivity]].
    apply get_content_mirrored. cbn [contents].
    apply PyDictFacts.getitem_setitem_eq.
Qed.

(** X11. [add_content] never changes or removes a stored row: when the
    table already has a row for the id, the commit fails and the row stays
    as it is, though the mirror takes the new item. Afterwards the table
    has a row for the id. *)
Theorem add_content_keeps_stored_rows (w : t) (content : TrainingContent.t)
    (uuid : string) :
  let cid := (add_content w content uuid).1 in
  let w' := (add_content w content uuid).2 in
  (forall i row, table w !! i = Some row -> table w' !! i = Some row) /\
  is_Some (table w' !! cid) /\
  (table w !! cid = None -> table w' !! cid = Some (to_row cid (TrainingContent.with_id content cid))).
Proof.
  intros cid w'. subst cid w'. unfold add_content. cbn [alloc fst snd].
  set (cid := match TrainingContent.id content with
              | Some i => if Str.truthy i then i else "kb_" +:+ uuid
              | None => "kb_" +:+ uuid
              end).
  change (table (with_store w (<[next_object w := TrainingContent.with_id content cid]>
                                 (objects w)) (S (next_object w))))
    with (table w).
  destruct (table w !! cid) as [row0|] eqn:E; cbn [fst snd table with_search_index
    with_contents with_table with_store].
  - split; [auto|]. split; [rewrite E; eauto | discriminate].
  - split; [|split].
    + intros i row H. rewrite lookup_insert_ne; [assumption|]. congruence.
    + rewrite lookup_insert_eq. eauto.
    + intros _. apply lookup_insert_eq.
Qed.

Lemma resolve_hits_table content_type hits : forall w acc res w',
  resolve_hits w content_type hits acc = Ok (res, w') ->
  table w' = table w /\ cache w' = cache w.
Proof.
  induction hits as [|hit hits IH]; intros w acc res w' H; simpl in H.
  - inversion H; subst. auto.
  - destruct (negb (Str.truthy_opt hit)); [exact (IH _ _ _ _ H)|].
    destruct (table w !! default "" hit) as [row|]; [|exact (IH _ _ _ _ H)].
    destruct (match content_type with
              | Some ct => _
              | None => false
              end); [exact (IH _ _ _ _ H)|].
    destruct (of_row row _) as [content|e]; [|discriminate].
    simpl in H. apply IH in H as (H1 & H2). cbn in *. auto.
Qed.

(** X12. A search changes nothing but the cache and the store of objects,
    to which it only adds: the mirror, the tag index, the table and every
    object there was are as before. *)
Theorem search_leaves_knowledge_untouched (w : t) (query : string)
    (content_type : option ContentType.t) (hits : list (option string))
    (now now' : Z) (l : list nat) (w' : t) :
  search_content w query content_type hits now now' = Ok (l, w') ->
  contents w' = contents w /\ search_index w' = search_index w /\
  table w' = table w /\
  forall r, (r < next_object w)%nat -> objects w' !! r = objects w !! r.
Proof.
  unfold search_content.
  destruct (cache_lookup w _ now) as [[cached w0]|e] eqn:Hlook; simpl; [|discriminate].
  destruct (cache_lookup_frame _ _ _ _ _ Hlook) as [c0 ->].
  destruct cached as [cached|].
  { intros H. inversion H; subst. auto. }
  destruct (resolve_hits _ content_type hits []) as [[results w1]|e] eqn:Hres; simpl;
    [|discriminate].
  destruct (cache_store w1 _ _ now') as [w2|e] eqn:Hstore; simpl; [|discriminate].
  intros H. inversion H; subst. clear H.
  destruct (cache_store_frame _ _ _ _ _ Hstore) as [c1 ->].
  pose proof (resolve_hits_table _ _ _ _ _ _ Hres) as [Ht _].
  apply resolve_hits_frame in Hres as (H1 & H2 & H3 & H4).
  cbn in *. auto.
Qed.

Lemma search_leaves_knowledge_untouched_witness :
  exists l w',
    search_content Demo.kb2 "pricing" None [] 0 0 = Ok (l, w') /\
    contents w' = contents Demo.kb2.
Proof.
  destruct (search_content Demo.kb2 "pricing" None [] 0 0) as [[l w']|e] eqn:E;
    [|vm_compute in E; discriminate].
  exists l, w'. split; [reflexivity|].
  exact (proj1 (search_leaves_knowledge_untouched Demo.kb2 "pricing" None [] 0 0 l w' E)).
Defined.

(** X13. After a search has returned, the cache holds its result under the
    key of the query, and until that entry expires or is evicted every
    search for the same query and type returns that list, whatever the
    vector hits and whatever the knowledge base holds by then. *)
Theorem repeated_search_is_served_from_cache (w : t) (c : LRUCache.t (list nat))
    (query : string) (content_type : option ContentType.t)
    (hits : list (option string)) (now now' : Z) (l : list nat) (w' : t) :
  cache w = Some c -> LRUCache.wf c ->
  search_content w query content_type hits now now' = Ok (l, w') ->
  exists c',
    cache w' = Some c' /\
    PyDict.getitem (cache_key query content_type) (LRUCache.cache c') = Some l /\
    forall w2 hits2 later later',
      cache w2 = Some c' ->
      LRUCache.expired c' (cache_key query content_type) later = false ->
      exists c'',
        search_content w2 query content_type hits2 later later'
        = Ok (l, with_cache w2 (Some c'')).
Proof.
  intros Hc Hwf Hsearch.
  assert (Hc' : exists c', cache w' = Some c' /\ LRUCache.wf c' /\
            PyDict.getitem (cache_key query content_type) (LRUCache.cache c') = Some l).
  { unfold search_content, cache_lookup in Hsearch. rewrite Hc in Hsearch.
    destruct (LRUCache.get c _ now) as [[v c1]|e] eqn:Hget;
      cbn [mbind result_bind] in Hsearch; [|discriminate].
    destruct v as [l0|].
    - inversion Hsearch; subst l0 w'. exists c1. split; [reflexivity|].
      destruct (CacheMore.get_hit_stored _ _ _ _ _ Hwf Hget) as (H1 & H2 & _). auto.
    - destruct (resolve_hits _ content_type hits []) as [[results w1]|e] eqn:Hres;
        cbn [mbind result_bind] in Hsearch; [|discriminate].
      apply resolve_hits_table in Hres as [_ Hc1]. cbn [cache with_cache] in Hc1.
      unfold cache_store in Hsearch. rewrite Hc1 in Hsearch.
      destruct (LRUCache.set c1 _ _ now') as [c2|e] eqn:Hset;
        cbn [mbind result_bind] in Hsearch; [|discriminate].
      inversion Hsearch; subst l w'. exists c2. split; [reflexivity|].
      assert (Hwf1 : LRUCache.wf c1) by (eapply LRUCacheFacts.wf_get; eassumption).
      split; [eapply LRUCacheFacts.wf_set; eassumption|].
      now destruct (CacheMore.set_stores _ _ _ _ _ Hwf1 Hset). }
  destruct Hc' as (c' & Hcw' & [Hnd _] & Hl). exists c'.
  split; [assumption|]. split; [assumption|].
  intros w2 hits2 later later' Hc2 Hfresh. eexists.
  unfold search_content, cache_lookup. rewrite Hc2.
  rewrite (LRUCacheFacts.get_fresh c' _ later l Hnd Hl Hfresh). reflexivity.
Qed.

Lemma repeated_search_is_served_from_cache_witness :
  exists l w' c',
    search_content Demo.kb2 "pricing" None [] 0 0 = Ok (l, w') /\
    cache w' = Some c' /\
    PyDict.getitem (cache_key "pricing" None) (LRUCache.cache c') = Some l.
Proof.
  destruct (search_content Demo.kb2 "pricing" None [] 0 0) as [[l w']|e] eqn:E;
    [|vm_compute in E; discriminate].
  destruct (repeated_search_is_served_from_cache Demo.kb2 (LRUCache.init 200 3600)
              "pricing" None [] 0 0 l w' eq_refl (LRUCacheFacts.wf_init 200 3600) E)
    as (c' & H1 & H2 & _).
  exists l, w', c'. auto.
Defined.

Lemma resolve_hits_typed ct hits : forall w acc res w',
  resolve_hits w (Some ct) hits acc = Ok (res, w') ->
  (forall r, r ∈ acc ->
     (r < next_object w)%nat /\
     exists c, objects w !! r = Some c /\ TrainingContent.content_type c = ct) ->
  forall r, r ∈ res ->
    (r < next_object w')%nat /\
    exists c, objects w' !! r = Some c /\ TrainingContent.content_type c = ct.
Proof.
  induction hits as [|hit hits IH]; intros w acc res w' H Hacc; simpl in H.
  - inversion H; subst. assumption.
  - destruct (negb (Str.truthy_opt hit)); [exact (IH _ _ _ _ H Hacc)|].
    destruct (table w !! default "" hit) as [row|]; [|exact (IH _ _ _ _ H Hacc)].
    destruct (negb (String.eqb
                      (ContentType.value (TrainingContentModel.content_type row))
                      (ContentType.value ct))) eqn:Hty;
      [exact (IH _ _ _ _ H Hacc)|].
    destruct (of_row row _) as [content|e] eqn:Hcontent; [|discriminate].
    simpl in H. refine (IH _ _ _ _ H _). cbn.
    intros r Hr. apply elem_of_app in Hr as [Hr|Hr].
    + destruct (Hacc r Hr) as (Hlt & c & Hc & Hct). split; [lia|]. exists c.
      split; [|assumption]. rewrite lookup_insert_ne; [assumption | lia].
    + apply list_elem_of_singleton in Hr. subst r. split; [lia|].
      exists content. rewrite lookup_insert_eq. split; [reflexivity|].
      destruct (of_row_tags _ _ _ Hcontent) as (_ & -> & _).
      apply negb_false_iff, String.eqb_eq in Hty. now apply value_inj.
Qed.

(** X14. A search with a type filter that misses the cache returns items
    of that type only, whether they come from the vector hits or from the
    keyword scan. *)
Theorem search_miss_honours_type_filter (w : t) (query : string)
    (ct : ContentType.t) (hits : list (option string)) (now now' : Z)
    (w0 : t) (l : list nat) (w' : t) :
  cache_lookup w (cache_key query (Some ct)) now = Ok (None, w0) ->
  search_content w query (Some ct) hits now now' = Ok (l, w') ->
  forall r, r ∈ l ->
    exists c, objects w' !! r = Some c /\ TrainingContent.content_type c = ct.
Proof.
  intros Hmiss Hsearch r Hr.
  destruct (search_content_miss _ _ _ _ _ _ _ _ _ Hmiss Hsearch)
    as (results & w1 & c1 & Hres & -> & ->).
  change (objects (with_cache w1 c1)) with (objects w1).
  apply list_elem_of_In in Hr. apply (Permutation_in _ (rank_perm _ _)) in Hr.
  apply list_elem_of_In in Hr.
  destruct results as [|r0 results].
  - apply elem_of_keyword_scan in Hr as (_ & c & Hc & Ht & _).
    exists c. split; [assumption|]. now apply type_allows_spec.
  - refine (proj2 (resolve_hits_typed ct hits w0 [] _ w1 Hres _ r Hr)).
    intros r' H. now apply elem_of_nil in H.
Qed.

Lemma search_miss_honours_type_filter_witness :
  exists l w',
    search_content Demo.kb2 "pricing" (Some ContentType.BEST_PRACTICE) [] 0 0
    = Ok (l, w') /\
    forall r, r ∈ l ->
      exists c, objects w' !! r = Some c /\
                TrainingContent.content_type c = ContentType.BEST_PRACTICE.
Proof.
  destruct (search_content Demo.kb2 "pricing" (Some ContentType.BEST_PRACTICE) [] 0 0)
    as [[l w']|e] eqn:E; [|vm_compute in E; discriminate].
  exists l, w'. split; [reflexivity|].
  exact (search_miss_honours_type_filter Demo.kb2 "pricing" ContentType.BEST_PRACTICE
           [] 0 0 _ l w' eq_refl E).
Defined.

Lemma refs_ok_update_effectiveness w content_id new_score :
  refs_ok w -> refs_ok (update_effectiveness w content_id new_score).
Proof.
  intros Hrefs. unfold update_effectiveness.
  destruct (PyDict.getitem content_id (contents w)) as [r0|]; [|assumption].
  destruct (objects w !! r0) as [c0|]; [|assumption].
  intros i r H. cbn in *. now apply Hrefs in H.
Qed.

(** X15. The tag index stays in step with the mirror under [add_content]
    of an id the mirror does not hold, under [update_effectiveness] and
    under [search_content]. *)
Theorem index_stays_in_step (w : t) :
  refs_ok w -> index_consistent w ->
  (forall content uuid,
     (add_content w content uuid).1 ∉ PyDict.keys (contents w) ->
     refs_ok (add_content w content uuid).2 /\
     index_consistent (add_content w content uuid).2) /\
  (forall content_id new_score,
     refs_ok (update_effectiveness w content_id new_score) /\
     index_consistent (update_effectiveness w content_id new_score)) /\
  (forall query content_type hits now now' l w',
     search_content w query content_type hits now now' = Ok (l, w') ->
     refs_ok w' /\ index_consistent w').
Proof.
  intros Hrefs Hcons. split; [|split].
  - intros content uuid. now apply add_content_new_id.
  - intros content_id new_score.
    split; [now apply refs_ok_update_effectiveness
           | now apply update_effectiveness_consistent].
  - intros query content_type hits now now' l w'.
    now apply search_content_consistent.
Qed.

Lemma index_stays_in_step_witness :
  index_consistent (update_effectiveness Demo.kb_tagged "kb_c3" 4).
Proof.
  refine (proj2 (proj1 (proj2 (index_stays_in_step Demo.kb_tagged _ _)) "kb_c3" 4%Q)).
  - apply (add_content_new_id Demo.kb0 Demo.tagged "c3").
    + apply (loaded_nil ∅ _).
    + apply (loaded_nil ∅ _).
    + intros H. now apply elem_of_nil in H.
  - apply (add_content_new_id Demo.kb0 Demo.tagged "c3").
    + apply (loaded_nil ∅ _).
    + apply (loaded_nil ∅ _).
    + intros H. now apply elem_of_nil in H.
Defined.



End KnowledgeBaseSearch.

(** ** script_generator.py: further properties *)

Module ScriptGeneratorMore.
Import ScriptGenerator ScriptGeneratorFacts.

Lemma variants_loop_length generate_response todo script : forall acc variants,
  variants_loop generate_response todo script acc = Ok variants ->
  length variants = (length acc + length todo)%nat.
Proof.
  induction todo as [|[style_name style_desc] todo IH]; intros acc variants H;
    simpl in H.
  - inversion H; subst. simpl. lia.
  - destruct (generate_response _ _) as [variant|e]; simpl in H; [|discriminate].
    apply IH in H. rewrite length_app in H. simpl in *. lia.
Qed.

Lemma _generate_variants_length generate_response script :
  length (_generate_variants generate_response script) = 3%nat.
Proof.
  unfold _generate_variants.
  destruct (variants_loop generate_response styles script []) as [variants|e] eqn:E.
  - apply variants_loop_length in E. simpl in E.
    rewrite length_firstn. lia.
  - reflexivity.
Qed.

(** X17. A generated script can be read back: [get_script] of its id
    returns the script [generate_script] returned, from the mirror. The
    script has exactly three variants, a usage count of 0 and a success
    rate of 0, and the table has a row for its id. *)
Theorem generated_script_is_read_back
    (generate_response : string -> string -> result string)
    (llm_generate_script : string -> option string -> option string -> string)
    (g : t) (request : ScriptGenerationRequest.t) (created_by : string)
    (related_content : list TrainingContent.t) (uuid : string) (now : Z) :
  let script :=
    (generate_script generate_response llm_generate_script g request created_by
       related_content uuid now).1 in
  let g' :=
    (generate_script generate_response llm_generate_script g request created_by
       related_content uuid now).2 in
  SalesScript.id script = Some ("script_" +:+ uuid) /\
  get_script g' ("script_" +:+ uuid) = (Some script, g') /\
  length (SalesScript.variants script) = 3%nat /\
  SalesScript.usage_count script = 0 /\
  SalesScript.success_rate script = 0%Q /\
  is_Some (table g' !! ("script_" +:+ uuid)).
Proof.
  intros script g'. subst script g'. unfold generate_script. cbn [fst snd].
  split; [reflexivity|]. split.
  - apply get_script_mirror. cbn [scripts]. apply lookup_insert_eq.
  - split; [apply _generate_variants_length|].
    split; [reflexivity|]. split; [reflexivity|]. cbn [table].
    destruct (table g !! ("script_" +:+ uuid)) as [row|] eqn:E.
    + rewrite E. eauto.
    + rewrite lookup_insert_eq. eauto.
Qed.



(** X19. [generate_script] looks for the base script in the mirror only.
    For a base script that is in the table but not in the mirror the text
    is generated from scratch, as without a base script; once [get_script]
    has loaded it, the text is the optimised text of the row. *)
Theorem base_script_is_read_from_the_mirror
    (generate_response : string -> string -> result string)
    (llm_generate_script : string -> option string -> option string -> string)
    (g : t) (request : ScriptGenerationRequest.t) (base_id : string)
    (row : SalesScriptModel.t) (created_by : string)
    (related_content : list TrainingContent.t) (uuid : string) (now : Z) :
  ScriptGenerationRequest.base_script_id request = Some base_id ->
  base_id <> "" ->
  scripts g !! base_id = None ->
  table g !! base_id = Some row ->
  SalesScript.script
    (generate_script generate_response llm_generate_script g request created_by
       related_content uuid now).1
  = _generate_from_scratch llm_generate_script request related_content /\
  SalesScript.script
    (generate_script generate_response llm_generate_script
       (get_script g base_id).2 request created_by related_content uuid now).1
  = _optimize_script generate_response (SalesScriptModel.script row) request.
Proof.
  intros Hbase Hne Hmirror Hrow.
  assert (Ht : Str.truthy base_id = true).
  { unfold Str.truthy. apply negb_true_iff, String.eqb_neq. exact Hne. }
  unfold generate_script. cbn [fst SalesScript.script]. rewrite Hbase, Ht. split.
  - now rewrite Hmirror.
  - unfold get_script. rewrite Hmirror, Hrow. cbn [snd scripts].
    rewrite lookup_insert_eq. reflexivity.
Qed.

Lemma base_script_is_read_from_the_mirror_witness :
  let g := ScriptGenerator.mk ∅
             {["script_s1" :=
                 SalesScriptModel.mk "script_s1" "Renewal - SMB" "Hello" "Renewal"
                   (Some "SMB") None "system" 0 None None None]} in
  let request :=
    ScriptGenerationRequest.mk "Renewal" None None (Some "script_s1") in
  SalesScript.script
    (generate_script (fun _ _ => Ok "BETTER") (fun _ _ _ => "NEW") g request
       "system" [] "s2" 0).1 = "NEW" /\
  SalesScript.script
    (generate_script (fun _ _ => Ok "BETTER") (fun _ _ _ => "NEW")
       (get_script g "script_s1").2 request "system" [] "s2" 0).1 = "BETTER".
Proof.
  intros g request.
  apply (base_script_is_read_from_the_mirror (fun _ _ => Ok "BETTER")
           (fun _ _ _ => "NEW") g request "script_s1"
           (SalesScriptModel.mk "script_s1" "Renewal - SMB" "Hello" "Renewal"
              (Some "SMB") None "system" 0 None None None) "system" [] "s2" 0).
  - reflexivity.
  - discriminate.
  - reflexivity.
  - reflexivity.
Defined.

End ScriptGeneratorMore.

(** ** learning_system.py: further properties *)

Module LearningSystemMore.
Import LearningSystem.

Lemma In_firstn {A : Type} (x : A) n : forall l, In x (firstn n l) -> In x l.
Proof.
  induction n as [|n IH]; intros [|y l]; simpl; try tauto.
  intros [H|H]; [now left | right; now apply IH].
Qed.

Lemma filter_none {A : Type} (f : A -> bool) (l : list A) :
  (forall x, In x l -> f x = false) -> List.filter f l = [].
Proof.
  induction l as [|y l IH]; simpl; intros H; [reflexivity|].
  rewrite (H y) by now left. apply IH. intros x Hx. apply H. now right.
Qed.

Lemma _identify_common_issues_length conversation :
  (length (_identify_common_issues conversation) <= 4)%nat.
Proof.
  unfold _identify_common_issues.
  destruct (Conversation.messages conversation) as [|m msgs]; [simpl; lia|].
  rewrite !length_app.
  repeat match goal with
         | |- context [length (if ?b then _ else _)] => destruct b
         end; simpl; lia.
Qed.

Lemma quality_insights_length float_str conversation now :
  (length (quality_insights float_str conversation now) <= 1)%nat.
Proof.
  unfold quality_insights.
  destruct (Conversation.feedback_score conversation) as [score|]; [|simpl; lia].
  destruct (truthy_Q score); [|simpl; lia].
  destruct (Qle_bool 4.5 score); [simpl; lia|].
  destruct (Qle_bool score 2.5); simpl; lia.
Qed.

Lemma assign_ids_length l uuids : forall n, length (assign_ids l uuids n) = length l.
Proof. induction l as [|i l IH]; intros n; simpl; [reflexivity | now rewrite IH]. Qed.

Lemma assign_ids_saved l uuids : forall n,
  Forall (fun i => is_Some (LearningInsight.id i)) (assign_ids l uuids n).
Proof.
  induction l as [|i l IH]; intros n; simpl; constructor; [simpl; eauto | apply IH].
Qed.

Lemma distinct_spec (l : list string) : distinct l = true <-> NoDup l.
Proof.
  induction l as [|x l IH]; simpl.
  - split; [constructor | reflexivity].
  - rewrite andb_true_iff, negb_true_iff, IH, NoDup_cons,
      <- not_true_iff_false, existsb_exists.
    split; intros [Hn Hd]; (split; [|assumption]).
    + intros Hin. apply Hn. exists x. split; [now apply list_elem_of_In|].
      apply String.eqb_refl.
    + intros (y & Hy & E). apply String.eqb_eq in E. subst y.
      apply Hn. now apply list_elem_of_In.
Qed.

(** When the commit of new rows goes through. *)
Lemma commit_rows_spec (table rows : list LearningInsightModel.t) :
  (NoDup (map LearningInsightModel.id rows) /\
   (forall row old, row ∈ rows -> old ∈ table ->
      LearningInsightModel.id row <> LearningInsightModel.id old) ->
   commit_rows table rows = table ++ rows) /\
  (~ (NoDup (map LearningInsightModel.id rows) /\
      forall row old, row ∈ rows -> old ∈ table ->
        LearningInsightModel.id row <> LearningInsightModel.id old) ->
   commit_rows table rows = table).
Proof.
  unfold commit_rows.
  destruct (distinct _ && forallb _ rows) eqn:E.
  - split; [reflexivity|]. intros Hn. exfalso. apply Hn.
    apply andb_true_iff in E as [Hd Hf]. split; [now apply distinct_spec|].
    intros row old Hrow Hold Heq. rewrite forallb_forall in Hf.
    specialize (Hf row (proj1 (list_elem_of_In _ _) Hrow)).
    apply negb_true_iff in Hf. apply not_true_iff_false in Hf. apply Hf.
    apply existsb_exists. exists old. split; [now apply list_elem_of_In|].
    apply String.eqb_eq. now symmetry.
  - split; [|reflexivity]. intros [Hd Hnew]. exfalso.
    apply not_true_iff_false in E. apply E, andb_true_iff.
    split; [now apply distinct_spec|]. apply forallb_forall. intros row Hrow.
    apply negb_true_iff, not_true_iff_false. intros Hex.
    apply existsb_exists in Hex as (old & Hold & Heq). apply String.eqb_eq in Heq.
    apply (Hnew row old); [now apply list_elem_of_In.. | now symmetry].
Qed.

(** X20. An analysis gives at most five insights. For a conversation with
    a subject they get ids of their own and are appended to what the memory
    holds for the subject, the other subjects untouched. Their rows, one
    each, are appended to the table when their ids are distinct and new to
    the table; when an id clashes the commit fails and the table is as it
    was, while the memory has the insights all the same. For a conversation
    without a subject nothing is stored. *)
Theorem analysis_is_stored_for_its_subject (float_str : Q -> string) (ls : t)
    (conversation : Conversation.t) (uuids : nat -> string) (now : Z) :
  let l := (analyze_conversation float_str ls conversation uuids now).1 in
  let ls' := (analyze_conversation float_str ls conversation uuids now).2 in
  let sales_id := Conversation.sales_id conversation in
  let rows := map (to_row sales_id) l in
  let ids_are_new :=
    NoDup (map LearningInsightModel.id rows) /\
    forall row old, row ∈ rows -> old ∈ table ls ->
      LearningInsightModel.id row <> LearningInsightModel.id old in
  (length l <= 5)%nat /\
  (sales_id <> "" ->
     Forall (fun i => is_Some (LearningInsight.id i)) l /\
     insights ls' !! sales_id = Some (default [] (insights ls !! sales_id) ++ l) /\
     (forall other, other <> sales_id -> insights ls' !! other = insights ls !! other) /\
     (ids_are_new -> table ls' = table ls ++ rows) /\
     (~ ids_are_new -> table ls' = table ls) /\
     Forall (fun row => LearningInsightModel.sales_id row = sales_id) rows) /\
  (sales_id = "" -> ls' = ls).
Proof.
  intros l ls' sales_id rows ids_are_new. subst rows ids_are_new l ls'.
  unfold analyze_conversation. fold sales_id.
  assert (Hlen : (length (quality_insights float_str conversation now ++
                          pattern_insights conversation now) <= 5)%nat).
  { rewrite length_app. unfold pattern_insights. rewrite length_map.
    pose proof (quality_insights_length float_str conversation now).
    pose proof (_identify_common_issues_length conversation). lia. }
  unfold Str.truthy. destruct (String.eqb_spec sales_id "") as [E|E]; cbn [negb fst snd].
  - split; [assumption|]. split; [congruence | reflexivity].
  - split; [now rewrite assign_ids_length|]. split; [|congruence]. intros _.
    split; [apply assign_ids_saved|]. cbn [insights table].
    split; [apply lookup_insert_eq|].
    split; [intros other Hne; now apply lookup_insert_ne|].
    split; [apply commit_rows_spec|]. split; [apply commit_rows_spec|].
    apply Forall_forall. intros row Hin.
    apply list_elem_of_In, in_map_iff in Hin as (i & <- & _). reflexivity.
Qed.

(** The ids drawn clash: the memory takes the two insights, the table
    none. *)
Lemma clashing_ids_store_no_row :
  let conversation :=
    Conversation.mk (Some "conv_9") "u1" None None
      [ConversationMessage.mk "user" "too expensive?" 0;
       ConversationMessage.mk "assistant" "let me explain" 1;
       ConversationMessage.mk "user" "ok" 2]
      (Some 5%Q) 3 in
  let ls' :=
    (analyze_conversation (fun _ => "5.0") (mk ∅ []) conversation
       (fun _ => "abcd1234") 0).2 in
  length (default [] (insights ls' !! "u1")) = 2%nat /\ table ls' = [].
Proof. vm_compute. split; reflexivity. Qed.

(** The insights [generate_personalized_training] reads. *)
Lemma elem_of_latest (rows : list LearningInsightModel.t) sales_id n i :
  In i (firstn n
          (Sorting.sorted_desc LearningInsightModel.created_at Z.ltb
             (List.filter
                (fun i => String.eqb (LearningInsightModel.sales_id i) sales_id)
                rows))) ->
  In i rows /\ LearningInsightModel.sales_id i = sales_id.
Proof.
  intros H. apply In_firstn in H.
  apply (Permutation_in _ (SortingFacts.sorted_desc_perm _ _ _)) in H.
  apply List.filter_In in H as [H1 H2]. split; [assumption|].
  now apply String.eqb_eq.
Qed.

(** X21. Training suggestions are never none: a call that returns gives
    between one and six suggestions. *)
Theorem training_suggestions_are_never_empty (ls : t) (sales_id : string)
    (kb : KnowledgeBase.t) (hits : list (option string)) (now now' : Z)
    (l : list string) (kb' : KnowledgeBase.t) :
  generate_personalized_training ls sales_id kb hits now now' = Ok (l, kb') ->
  (1 <= length l <= 6)%nat.
Proof.
  unfold generate_personalized_training.
  set (db_insights := firstn 20 _).
  destruct db_insights as [|i0 rest] eqn:Hdb.
  { intros H. inversion H; subst. simpl. lia. }
  rewrite <- Hdb. clear Hdb.
  set (improvements := List.filter _ db_insights).
  set (strengths := List.filter _ db_insights).
  set (patterns := List.filter _ db_insights).
  set (s1 := map _ (firstn 3 _)).
  set (s2 := match Sorting.sorted_desc _ _ strengths with [] => _ | _ => _ end).
  set (s3 := match patterns with [] => _ | _ => _ end).
  assert (H1 : (length s1 <= 3)%nat).
  { subst s1. rewrite length_map, length_firstn. lia. }
  assert (H2 : (length s2 <= 1)%nat).
  { subst s2. destruct (Sorting.sorted_desc _ _ strengths); simpl; lia. }
  assert (H3 : (length s3 <= 1)%nat).
  { subst s3. destruct patterns; simpl; lia. }
  match goal with
  | |- context [mbind _ ?m] => destruct m as [[s4 kb1]|e] eqn:E4
  end; cbn [mbind result_bind]; [|discriminate].
  assert (H4 : (length s4 <= 1)%nat).
  { destruct improvements.
    - inversion E4; subst. simpl. lia.
    - destruct (KnowledgeBase.search_content _ _ _ _ _ _) as [[rc kb2]|e];
        cbn [mbind result_bind] in E4; [|discriminate].
      destruct (KnowledgeBase.deref _ _); inversion E4; subst; simpl; lia. }
  intros H. inversion H; subst. clear H.
  assert (Hsum : (length (s1 ++ s2 ++ s3 ++ s4) <= 6)%nat)
    by (rewrite !length_app; lia).
  destruct (app s1 (app s2 (app s3 s4))) as [|x xs]; simpl in *; lia.
Qed.

Lemma training_suggestions_are_never_empty_witness :
  (1 <= length ["继续练习，保持良好表现"] <= 6)%nat.
Proof.
  apply (training_suggestions_are_never_empty (LearningSystem.mk ∅ []) "u1"
           Demo.kb0 [] 0 0 _ Demo.kb0).
  reflexivity.
Defined.

(** X22. For a subject without an insight of type [improvement] the
    suggestions are made without a search: the call returns whatever the
    knowledge base is, and leaves it as it is. *)
Theorem training_without_improvements_needs_no_search (ls : t) (sales_id : string) :
  (forall i, In i (table ls) ->
     LearningInsightModel.sales_id i = sales_id ->
     LearningInsightModel.insight_type i <> "improvement") ->
  exists l, l <> [] /\
    forall kb hits now now',
      generate_personalized_training ls sales_id kb hits now now' = Ok (l, kb).
Proof.
  intros Hnone. unfold generate_personalized_training.
  set (db_insights := firstn 20 _).
  assert (Hdb : forall i, In i db_insights ->
            LearningInsightModel.insight_type i <> "improvement").
  { intros i Hi. apply elem_of_latest in Hi as [H1 H2]. now apply Hnone. }
  destruct db_insights as [|i0 rest] eqn:E.
  { eexists. split; [|intros; reflexivity]. discriminate. }
  rewrite <- E in *. clear E.
  rewrite (filter_none
             (fun i => String.eqb (LearningInsightModel.insight_type i) "improvement")
             db_insights).
  2:{ intros x Hx. apply String.eqb_neq. now apply Hdb. }
  cbn [mbind result_bind firstn map app Sorting.sorted_desc foldr].
  eexists. split; [|intros; reflexivity].
  destruct (_ ++ _ ++ []); discriminate.
Qed.

Lemma training_without_improvements_needs_no_search_witness :
  exists l, l <> [] /\
    forall kb hits now now',
      generate_personalized_training
        (LearningSystem.mk ∅
           [LearningInsightModel.mk "insight_1" "u1" "strength" "good opening"
              0.9 [] 0]) "u1" kb hits now now' = Ok (l, kb).
Proof.
  apply training_without_improvements_needs_no_search.
  intros i [<-|[]] _. discriminate.
Defined.

End LearningSystemMore.

(** ** conversation_engine.py: further properties *)

Module ConversationEngineMore.
Import ConversationEngine.

Lemma created_at_lt_asym (a b : Z) : (a <? b) = true -> (b <? a) = false.
Proof. rewrite Z.ltb_lt, Z.ltb_ge. lia. Qed.

Lemma created_at_ge_trans (a b c : Z) :
  (a <? b) = false -> (b <? c) = false -> (a <? c) = false.
Proof. rewrite !Z.ltb_ge. lia. Qed.

Lemma recent_first_sorted rows sales_id :
  StronglySorted
    (fun a b => Conversation.created_at b <= Conversation.created_at a)
    (recent_first rows sales_id).
Proof.
  pose proof (SortingFacts.sorted_desc_sorted Conversation.created_at Z.ltb
                created_at_lt_asym created_at_ge_trans
                (List.filter (fun c => String.eqb (Conversation.sales_id c) sales_id) rows))
    as H.
  unfold recent_first. induction H as [|a l Hs IH Hall]; constructor; [assumption|].
  eapply List.Forall_impl; [|exact Hall]. intros b Hb.
  unfold Sorting.not_below in Hb. now apply Z.ltb_ge in Hb.
Qed.

Lemma sorted_app_inv {A : Type} (R : A -> A -> Prop) (l1 l2 : list A) :
  StronglySorted R (l1 ++ l2) ->
  StronglySorted R l1 /\ forall a b, a ∈ l1 -> b ∈ l2 -> R a b.
Proof.
  induction l1 as [|x l1 IH]; simpl; intros H.
  - split; [constructor|]. intros a b Ha. now apply elem_of_nil in Ha.
  - inversion H as [|? ? Hs Hall]; subst. destruct (IH Hs) as [IH1 IH2].
    rewrite List.Forall_forall in Hall. split.
    + constructor; [assumption|]. apply List.Forall_forall. intros y Hy.
      apply Hall, in_or_app. now left.
    + intros a b Ha Hb. apply elem_of_cons in Ha as [->|Ha]; [|now apply IH2].
      apply Hall, in_or_app. right. now apply list_elem_of_In.
Qed.

(** What the query of [get_conversation_history] returns. *)
Lemma query_history_latest rows sales_id limit :
  let l := query_history rows sales_id limit in
  (length l <= limit)%nat /\
  Forall (fun c => Conversation.sales_id c = sales_id /\ In c rows) l /\
  StronglySorted
    (fun a b => Conversation.created_at b <= Conversation.created_at a) l /\
  exists older,
    Permutation (l ++ older)
      (List.filter (fun c => String.eqb (Conversation.sales_id c) sales_id) rows) /\
    forall a b, a ∈ l -> b ∈ older ->
      Conversation.created_at b <= Conversation.created_at a.
Proof.
  intros l. subst l. unfold query_history. fold (recent_first rows sales_id).
  pose proof (recent_first_sorted rows sales_id) as Hs.
  rewrite <- (take_drop limit (recent_first rows sales_id)) in Hs.
  apply sorted_app_inv in Hs as (Hs1 & Hcross).
  split; [rewrite length_firstn; lia|]. split; [|split; [exact Hs1|]].
  - apply Forall_forall. intros c Hc. apply list_elem_of_In in Hc.
    apply LearningSystemMore.In_firstn in Hc.
    apply (Permutation_in _ (SortingFacts.sorted_desc_perm _ _ _)) in Hc.
    apply List.filter_In in Hc as [H1 H2]. split; [now apply String.eqb_eq | assumption].
  - exists (drop limit (recent_first rows sales_id)). split.
    + rewrite take_drop. apply SortingFacts.sorted_desc_perm.
    + intros a b Ha Hb. exact (Hcross a b Ha Hb).
Qed.

(** X23. When the cache has no entry for the request (or is disabled),
    [get_conversation_history] returns conversations of the subject only,
    at most [limit] of them, the most recent first, and no conversation of
    the subject that is left out is more recent than one returned. The
    table and the memory are not changed. *)
Theorem history_is_the_latest_of_the_subject (e : t) (sales_id : string)
    (limit : nat) (limit_str : string) (now now' : Z)
    (l : list Conversation.t) (e' : t) :
  (forall c, cache e = Some c ->
     PyDict.getitem (history_key sales_id limit_str) (LRUCache.cache c) = None) ->
  get_conversation_history e sales_id limit limit_str now now' = Ok (l, e') ->
  (length l <= limit)%nat /\
  Forall (fun c => Conversation.sales_id c = sales_id /\ In c (table e)) l /\
  StronglySorted
    (fun a b => Conversation.created_at b <= Conversation.created_at a) l /\
  (exists older,
     Permutation (l ++ older)
       (List.filter (fun c => String.eqb (Conversation.sales_id c) sales_id) (table e)) /\
     forall a b, a ∈ l -> b ∈ older ->
       Conversation.created_at b <= Conversation.created_at a) /\
  table e' = table e /\ conversation_history e' = conversation_history e.
Proof.
  intros Hmiss Hget.
  assert (E : l = query_history (table e) sales_id limit /\
              table e' = table e /\ conversation_history e' = conversation_history e).
  { unfold get_conversation_history in Hget.
    destruct (cache e) as [c|] eqn:Hc.
    - rewrite (LRUCacheFacts.get_absent c _ now) in Hget
        by (apply PyDictFacts.getitem_None; now apply Hmiss).
      cbn [mbind result_bind cache table conversation_history] in Hget.
      destruct (LRUCache.set c _ _ now') as [c'|ex];
        cbn [mbind result_bind] in Hget; [|discriminate].
      inversion Hget; subst. auto.
    - cbn [mbind result_bind] in Hget. rewrite Hc in Hget.
      cbn [mbind result_bind] in Hget. inversion Hget; subst. auto. }
  destruct E as (-> & Ht & Hh).
  destruct (query_history_latest (table e) sales_id limit) as (H1 & H2 & H3 & H4).
  auto 10.
Qed.

Lemma history_is_the_latest_of_the_subject_witness :
  get_conversation_history Demo.engine "u1" 1 "1" 0 0 = Ok ([Demo.conv_new], Demo.engine) /\
  (length [Demo.conv_new] <= 1)%nat.
Proof.
  split; [reflexivity|].
  refine (proj1 (history_is_the_latest_of_the_subject Demo.engine "u1" 1 "1" 0 0
                   [Demo.conv_new] Demo.engine _ eq_refl)).
  intros c H. discriminate H.
Defined.

(** X24. A conversation saved in this process is the last of the history
    the next [chat] of its subject works with: the history comes from the
    memory, with no query and no cache lookup, and the state is not
    changed. A conversation without an id is saved under a new one. *)
Theorem saved_conversation_is_last_in_memory (e : t) (sales_id : string)
    (conversation : Conversation.t) (uuid : string) (now now' : Z) :
  let e' := save_conversation e sales_id conversation uuid in
  exists saved,
    user_history e' sales_id now now'
    = Ok (default [] (conversation_history e !! sales_id) ++ [saved], e') /\
    Conversation.id saved =
      (if Str.truthy_opt (Conversation.id conversation)
       then Conversation.id conversation else Some ("conv_" +:+ uuid)) /\
    Conversation.scenario saved = Conversation.scenario conversation /\
    Conversation.messages saved = Conversation.messages conversation /\
    forall request,
      _build_context [] (default [] (conversation_history e !! sales_id) ++ [saved])
        request
      = "最近對話場景：" +:+ Str.format_opt (Conversation.scenario conversation).
Proof.
  intros e'. subst e'. unfold save_conversation.
  set (saved := if Str.truthy_opt (Conversation.id conversation) then conversation
                else _).
  exists saved. split; [|split; [|split; [|split]]].
  - unfold user_history. cbn [conversation_history]. rewrite lookup_insert_eq.
    cbn [default]. destruct (default [] (conversation_history e !! sales_id) ++ [saved])
      as [|x xs] eqn:E; [|reflexivity].
    symmetry in E. now apply app_cons_not_nil in E.
  - subst saved. now destruct (Str.truthy_opt (Conversation.id conversation)).
  - subst saved. now destruct (Str.truthy_opt (Conversation.id conversation)).
  - subst saved. now destruct (Str.truthy_opt (Conversation.id conversation)).
  - intros request. unfold _build_context. rewrite last_snoc.
    assert (Hs : Conversation.scenario saved = Conversation.scenario conversation)
      by (subst saved; now destruct (Str.truthy_opt (Conversation.id conversation))).
    rewrite Hs. reflexivity.
Qed.

Lemma user_history_returns e user_id now now' :
  (forall c, cache e = Some c -> LRUCache.wf c /\ 0 < LRUCache.max_size c) ->
  exists h e', user_history e user_id now now' = Ok (h, e') /\ table e' = table e.
Proof.
  intros Hcache. unfold user_history.
  destruct (default [] (conversation_history e !! user_id)) as [|x xs];
    [|eexists _, _; split; reflexivity].
  assert (Hget : exists h e1,
            get_conversation_history e user_id 10 "10" now now' = Ok (h, e1) /\
            table e1 = table e).
  { unfold get_conversation_history. destruct (cache e) as [c|] eqn:Hc.
    - destruct (Hcache c eq_refl) as [Hwf Hm].
      destruct (CacheMore.get_returns c (history_key user_id "10") now Hwf)
        as (r & c1 & -> & Hwf1 & Hm1).
      cbn [mbind result_bind]. destruct r as [l|].
      + eexists _, _. split; reflexivity.
      + cbn [cache table conversation_history].
        destruct (CacheMore.set_returns c1 (history_key user_id "10")
                    (query_history (table e) user_id 10) now' Hwf1) as [c2 ->];
          [lia|].
        cbn [mbind result_bind]. eexists _, _. split; reflexivity.
    - cbn [mbind result_bind]. rewrite Hc. cbn [mbind result_bind].
      eexists _, _. split; reflexivity. }
  destruct Hget as (h & e1 & -> & Ht). cbn [mbind result_bind].
  destruct h; eexists _, _; split; first [reflexivity | assumption].
Qed.

(** X25. With the cache disabled, or in order and with room for an entry,
    [chat] always answers. The answer carries one suggestion for each of
    the first two items found, so at most two, the two fixed script ids
    and the confidence 0.85; the table of conversations is not changed. *)
Theorem chat_always_answers (e : t)
    (client : option (list (string * string) -> result string))
    (request : ChatRequest.t) (relevant_content : list TrainingContent.t)
    (now now' : Z) :
  (forall c, cache e = Some c -> LRUCache.wf c /\ 0 < LRUCache.max_size c) ->
  exists response e',
    Chat.chat e client request relevant_content now now' = Ok (response, e') /\
    ChatResponse.suggestions response =
      map (fun item => "參考：" +:+ TrainingContent.title item)
          (firstn 2 relevant_content) /\
    (length (ChatResponse.suggestions response) <= 2)%nat /\
    ChatResponse.related_scripts response = ["script_001"; "script_002"] /\
    ChatResponse.confidence response = 0.85%Q /\
    table e' = table e.
Proof.
  intros Hcache. unfold Chat.chat.
  destruct (user_history_returns e (ChatRequest.sales_id request) now now' Hcache)
    as (h & e1 & -> & Ht).
  cbn [mbind result_bind]. eexists _, _. split; [reflexivity|].
  cbn [ChatResponse.suggestions ChatResponse.related_scripts ChatResponse.confidence].
  unfold _extract_suggestions.
  assert (Hlen : (length (map (fun item => "參考：" +:+ TrainingContent.title item)
                            (firstn 2 relevant_content)) <= 2)%nat)
    by (rewrite length_map, length_firstn; lia).
  rewrite firstn_all2 by lia. auto.
Qed.

Lemma chat_always_answers_witness :
  exists response e',
    Chat.chat Demo.engine None Demo.request [] 0 0 = Ok (response, e') /\
    ChatResponse.suggestions response = [].
Proof.
  destruct (chat_always_answers Demo.engine None Demo.request [] 0 0)
    as (response & e' & H1 & H2 & _).
  - intros c H. discriminate H.
  - exists response, e'. split; [exact H1 | exact H2].
Defined.

End ConversationEngineMore.

(** ** llm_service.py and [_generate_response]: the messages sent *)

Module LLMServiceMore.
Import LLMService.

Lemma last_n_length {A : Type} (n : nat) (l : list A) : (length (last_n n l) <= n)%nat.
Proof. unfold last_n. rewrite length_skipn. lia. Qed.

Lemma last_n_app {A : Type} (n : nat) (older recent : list A) :
  length recent = n -> last_n n (older ++ recent) = recent.
Proof.
  intros H. unfold last_n. rewrite length_app, H.
  replace (length older + n - n)%nat with (length older) by lia.
  apply drop_app_length.
Qed.

(** X26. Whatever it is asked, the service sends between two and eight
    messages: first the system prompt, which names Traditional Chinese (the
    rule is appended to a prompt that does not), then the context if there
    is one, then at most the last five messages of the history, and last
    the message of the user. *)
Theorem messages_carry_the_language_rule (system_prompt user_message : string)
    (context : option string) (conversation_history : list (string * string)) :
  let messages := messages_for system_prompt user_message context conversation_history in
  (2 <= length messages <= 8)%nat /\
  (exists prompt,
     head messages = Some ("system", prompt) /\ Str.occurs "繁體" prompt /\
     (Str.occurs "繁體" system_prompt -> prompt = system_prompt)) /\
  last messages = Some ("user", user_message) /\
  (Str.truthy_opt context = false ->
   messages =
     [("system", default "" (snd <$> head messages))] ++
     last_n 5 conversation_history ++ [("user", user_message)]).
Proof.
  intros messages. subst messages. unfold messages_for.
  set (prompt := if _ && _ then _ else system_prompt).
  set (ctx := if Str.truthy_opt context then _ else []).
  assert (Hctx : (length ctx <= 1)%nat)
    by (subst ctx; destruct (Str.truthy_opt context); simpl; lia).
  pose proof (last_n_length 5 conversation_history) as Hhist.
  split; [|split; [|split]].
  - rewrite !length_app. simpl. lia.
  - exists prompt. split; [reflexivity|]. subst prompt.
    destruct (Str.str_in "繁體中文" system_prompt) eqn:E1; cbn [negb andb].
    + split; [|reflexivity]. apply StrFacts.str_in_spec in E1 as (a & b & ->).
      exists a, ("中文" +:+ b). reflexivity.
    + destruct (Str.str_in "繁體" system_prompt) eqn:E2; cbn [negb].
      * split; [|reflexivity]. now apply StrFacts.str_in_spec.
      * split.
        -- exists (system_prompt +:+ Str.nl +:+ Str.nl +:+ "**重要：請務必使用"),
             "中文回答，不要使用簡體中文。所有回應都必須是繁體中文。**".
           rewrite !StrFacts.append_assoc. reflexivity.
        -- intros H. apply StrFacts.str_in_spec in H. congruence.
  - rewrite !app_assoc. apply last_snoc.
  - intros Hnone. subst ctx. rewrite Hnone. reflexivity.
Qed.

(** X27. [_generate_response] hands the service the last four messages of
    each of the last three conversations, so twelve at most, and the
    conversations before the last three never matter. Its system prompt
    names Traditional Chinese and is sent as it is. *)
Theorem history_window_is_three_by_four :
  (forall history, (length (Chat.conversation_window history) <= 12)%nat) /\
  (forall older recent,
     length recent = 3%nat ->
     Chat.conversation_window (older ++ recent) = Chat.conversation_window recent) /\
  (forall user_message context history,
     head (messages_for Chat.system_prompt user_message context
             (Chat.conversation_window history))
     = Some ("system", Chat.system_prompt)).
Proof.
  split; [|split].
  - intros history. unfold Chat.conversation_window.
    pose proof (last_n_length 3 history) as H3.
    induction (last_n 3 history) as [|conv l IH]; simpl; [lia|].
    rewrite length_app, length_map.
    pose proof (last_n_length 4 (Conversation.messages conv)). simpl in H3.
    specialize (IH ltac:(lia)).
    destruct l as [|c1 [|c2 [|c3 l]]]; simpl in *; try lia.
    all: rewrite ?length_app, ?length_map in *;
      repeat match goal with
             | |- context [last_n 4 (Conversation.messages ?c)] =>
                 lazymatch goal with
                 | _ : (length (last_n 4 (Conversation.messages c)) <= 4)%nat |- _ => fail
                 | _ => pose proof (last_n_length 4 (Conversation.messages c))
                 end
             end; simpl; lia.
  - intros older recent H. unfold Chat.conversation_window.
    rewrite (last_n_app 3 older recent H).
    replace (last_n 3 recent) with recent; [reflexivity|].
    unfold last_n. rewrite H. reflexivity.
  - intros user_message context history. reflexivity.
Qed.

End LLMServiceMore.

(** ** main.py: the pages of the search endpoint *)

Module MainMore.
Import Main.

Lemma pages_concat {A : Type} (k : nat) (l : list A) : forall m,
  concat (map (fun i => firstn k (skipn (i * k) l)) (seq 0 m)) = firstn (m * k) l.
Proof.
  induction m as [|m IH].
  - reflexivity.
  - rewrite seq_S, map_app, concat_app, IH. simpl. rewrite app_nil_r.
    rewrite take_take_drop. f_equal. lia.
Qed.

Lemma page_items {A : Type} (all_results : list A) (page page_size : Z) :
  1 <= page -> 1 <= page_size <= 100 ->
  PaginatedResponse.items (search_content all_results page page_size) =
  firstn (Z.to_nat page_size)
    (skipn ((Z.to_nat page - 1) * Z.to_nat page_size) all_results).
Proof.
  intros Hp Hs. unfold search_content, slice. cbn [PaginatedResponse.items].
  destruct (Z.ltb_spec page 1); [lia|].
  destruct (Z.ltb_spec page_size 1); [lia|].
  destruct (Z.ltb_spec 100 page_size); [lia|]. cbn [orb].
  f_equal; [f_equal; lia|]. f_equal. nia.
Qed.

(** X28. The pages of a search partition its results. With a page size
    between 1 and 100, the items of the pages 1 to [total_pages], one
    after the other, are the results in their order; each page holds at
    most [page_size] items, and a page after the last holds none. *)
Theorem pages_partition_the_results {A : Type} (all_results : list A)
    (page_size : Z) :
  1 <= page_size <= 100 ->
  let total_pages :=
    PaginatedResponse.total_pages (search_content all_results 1 page_size) in
  total_pages = (Z.of_nat (length all_results) + page_size - 1) / page_size /\
  concat (map (fun page =>
                 PaginatedResponse.items
                   (search_content all_results (Z.of_nat page) page_size))
              (seq 1 (Z.to_nat total_pages)))
  = all_results /\
  (forall page,
     (length (PaginatedResponse.items (search_content all_results page page_size))
      <= Z.to_nat page_size)%nat) /\
  (forall page, total_pages < page ->
     PaginatedResponse.items (search_content all_results page page_size) = []).
Proof.
  intros Hs total_pages. subst total_pages.
  assert (Htp : PaginatedResponse.total_pages (search_content all_results 1 page_size)
                = (Z.of_nat (length all_results) + page_size - 1) / page_size).
  { unfold search_content. cbn [PaginatedResponse.total_pages].
    destruct (Z.ltb_spec page_size 1); [lia|].
    destruct (Z.ltb_spec 100 page_size); [lia|]. reflexivity. }
  rewrite Htp. set (n := Z.of_nat (length all_results)).
  set (m := (n + page_size - 1) / page_size).
  assert (Hm0 : 0 <= m) by (apply Z.div_pos; lia).
  assert (Hm1 : n <= page_size * m).
  { pose proof (Z.mul_succ_div_gt (n + page_size - 1) page_size ltac:(lia)) as H.
    fold m in H. lia. }
  split; [reflexivity|]. split; [|split].
  - transitivity (firstn (Z.to_nat m * Z.to_nat page_size) all_results);
      [|apply firstn_all2; nia].
    rewrite <- pages_concat. rewrite <- seq_shift, map_map. f_equal.
    apply map_ext_in. intros i _. rewrite page_items by lia.
    rewrite Nat2Z.id. simpl. rewrite Nat.sub_0_r. reflexivity.
  - intros page. unfold search_content, slice. cbn [PaginatedResponse.items].
    destruct (Z.ltb_spec page_size 1); [lia|].
    destruct (Z.ltb_spec 100 page_size); [lia|]. cbn [orb].
    rewrite length_firstn. lia.
  - intros page Hpage. rewrite page_items by lia.
    rewrite skipn_all2; [now destruct (Z.to_nat page_size)|]. nia.
Qed.

Lemma pages_partition_the_results_witness :
  concat (map (fun page =>
                 PaginatedResponse.items (search_content [1; 2; 3; 4; 5] (Z.of_nat page) 2))
              (seq 1 3))
  = [1; 2; 3; 4; 5].
Proof.
  exact (proj1 (proj2 (pages_partition_the_results [1; 2; 3; 4; 5] 2 ltac:(lia)))).
Defined.

End MainMore.
